(** * DocsGPT ingestion workers: a shallow embedding of application/worker.py

    The development follows the source file top to bottom: the constants,
    [extract_zip_recursive], [download_file], [upload_index], the two
    ingestion flows [ingest_worker] and [remote_worker], the scheduler
    ([sync], [sync_worker]) and [attachment_worker].

    The workers are effectful Python: they touch the file system, call
    collaborators that live outside the file (the directory reader, the
    chunker, the embedding sink, the HTTP client, the stores) and raise or
    catch exceptions.  They are modelled in a state-and-exception monad
    that also records the calls made to the collaborators, in order. *)

From Stdlib Require Import String Ascii List ZArith Arith Bool Lia.
From Stdlib Require Import DecimalString.
Import ListNotations.
Set Warnings "-register-all".
Local Open Scope string_scope.
Local Open Scope list_scope.

(** ** Python values and exceptions *)

Module Py.

(** The subclasses of [Exception] that the embedded code raises, catches
    or lets through.  [RequestException] stands for
    [requests.RequestException] and those of its subclasses that are not
    listed (connection errors, timeouts); [HTTPError] is the subclass
    that [raise_for_status] raises; [KeyError] is raised by a subscript
    on a dictionary that lacks the key; [OtherException] is any other
    [Exception] a collaborator may raise.  Signals that are not
    [Exception]s (interrupts, interpreter exit) are outside the model. *)
Inductive exn : Type :=
| RequestException (msg : string)
| HTTPError (msg : string)
| ValueError (msg : string)
| KeyError (key : string)
| UnboundLocalError (var : string)
| FileNotFoundError (path : string)
| FileExistsError (path : string)
| NotADirectoryError (path : string)
| IsADirectoryError (path : string)
| OSError (msg : string)
| BadZipFile (msg : string)
| OtherException (cls msg : string).

(** [str(e)] *)
Definition str_exn (e : exn) : string :=
  match e with
  | RequestException m | HTTPError m | ValueError m | OSError m
  | BadZipFile m => m
  | KeyError k => "'" ++ k ++ "'"
  | UnboundLocalError v =>
      "cannot access local variable '" ++ v
        ++ "' where it is not associated with a value"
  | FileNotFoundError p => "[Errno 2] No such file or directory: '" ++ p ++ "'"
  | FileExistsError p => "[Errno 17] File exists: '" ++ p ++ "'"
  | NotADirectoryError p => "[Errno 20] Not a directory: '" ++ p ++ "'"
  | IsADirectoryError p => "[Errno 21] Is a directory: '" ++ p ++ "'"
  | OtherException _ m => m
  end.

(** [isinstance(e, requests.RequestException)] *)
Definition is_request_exception (e : exn) : bool :=
  match e with RequestException _ | HTTPError _ => true | _ => false end.

(** The outcome of one call of a library function or of a collaborator:
    a value or a raised exception. *)
Inductive call (A : Type) : Type :=
| Ok (a : A)
| Err (e : exn).
Arguments Ok {A} a.
Arguments Err {A} e.

(** The outcome of running a piece of the embedded code: a value, a
    raised exception, or [OutOfFuel] when the bounded model of a walk was
    given too little fuel (never caught by [except]). *)
Inductive result (A : Type) : Type :=
| Return (a : A)
| Raise (e : exn)
| OutOfFuel.
Arguments Return {A} a.
Arguments Raise {A} e.
Arguments OutOfFuel {A}.

Definition is_return {A} (r : result A) : bool :=
  match r with Return _ => true | _ => false end.

(** [s.startswith(p)] and [s.endswith(p)] *)
Definition startswith (s p : string) : bool := String.prefix p s.

Definition endswith (s p : string) : bool :=
  (String.length p <=? String.length s)%nat
  && String.eqb (substring (String.length s - String.length p)
                           (String.length p) s) p.

(** [posixpath.join(a, b)]: an absolute [b] replaces [a]; otherwise a
    separator is inserted unless [a] is empty or already ends with one. *)
Definition join2 (path b : string) : string :=
  if startswith b "/" then b
  else if String.eqb path "" || endswith path "/" then path ++ b
  else path ++ "/" ++ b.

(** [os.path.join(a, *p)] *)
Definition os_path_join (a : string) (p : list string) : string :=
  fold_left join2 p a.

(** [s.split(sep)] for a one-character separator. *)
Fixpoint split_on (sep : ascii) (s acc : string) : list string :=
  match s with
  | EmptyString => [acc]
  | String c s' =>
      if Ascii.eqb c sep then acc :: split_on sep s' ""
      else split_on sep s' (acc ++ String c "")
  end.

(** [s.rstrip("/")] *)
Fixpoint rstrip_slash (s : string) : string :=
  match s with
  | EmptyString => EmptyString
  | String c s' =>
      let r := rstrip_slash s' in
      if String.eqb r "" && Ascii.eqb c "/"%char then EmptyString
      else String c r
  end.

Fixpoint all_slashes (s : string) : bool :=
  match s with
  | EmptyString => true
  | String c s' => Ascii.eqb c "/"%char && all_slashes s'
  end.

(** [posixpath.dirname(p)]: what comes before the last slash, without
    trailing slashes unless it consists of slashes only. *)
Definition dirname (p : string) : string :=
  let pieces := split_on "/"%char p "" in
  let head :=
    match removelast pieces with
    | [] => ""
    | before => (String.concat "/" before ++ "/")%string
    end in
  if negb (String.eqb head "") && negb (all_slashes head)
  then rstrip_slash head else head.

(** [posixpath.normpath(path)]: empty and current-directory components
    are dropped and parent-directory components are resolved against the
    text of the path; one or two leading slashes are kept. *)
Definition normpath (path : string) : string :=
  if String.eqb path "" then "."
  else
    let initial_slashes :=
      if startswith path "/" then
        if startswith path "//" && negb (startswith path "///") then 2
        else 1
      else 0 in
    let step (new_comps : list string) (comp : string) : list string :=
      if String.eqb comp "" || String.eqb comp "." then new_comps
      else if negb (String.eqb comp "..")
              || (Nat.eqb initial_slashes 0
                  && match new_comps with [] => true | _ :: _ => false end)
              || String.eqb (last new_comps "") ".."
           then new_comps ++ [comp]
           else removelast new_comps in
    let comps := fold_left step (split_on "/"%char path "") [] in
    let joined :=
      (String.concat "" (repeat "/" initial_slashes)
       ++ String.concat "/" comps)%string in
    if String.eqb joined "" then "." else joined.

(** [string.ascii_letters] *)
Definition ascii_letters : string :=
  "abcdefghijklmnopqrstuvwxyzABCDEFGHIJKLMNOPQRSTUVWXYZ".

End Py.
Export Py.

(** ** The file system

    A tree of named entries.  A regular file holds either plain bytes or
    the image of a valid zip archive, given by its member list in archive
    order (a member whose name ends with a slash is a directory entry).
    Entries of a directory are kept in the order in which they were
    created.  Path strings are resolved from the root of the tree (the
    working directory of the process); repeated and trailing slashes are
    handled as the operating system does.  Symbolic links and permissions
    are not modelled, and neither is the resolution of the components [.]
    and [..]: the calls are meant for paths without them (see
    [scratch_path_ok] below for the working paths of the jobs). *)

Module FS.

Inductive data : Type :=
| Plain (bytes : string)
| Zip (members : list (string * data)).

Inductive node : Type :=
| File (d : data)
| Dir (entries : list (string * node)).

Definition entries := list (string * node).

Fixpoint assoc {A} (k : string) (l : list (string * A)) : option A :=
  match l with
  | [] => None
  | (k', v) :: l' => if String.eqb k k' then Some v else assoc k l'
  end.

(** Bind [k] to [v], in place when [k] is already bound, at the end
    otherwise. *)
Fixpoint set_entry {A} (k : string) (v : A) (l : list (string * A))
  : list (string * A) :=
  match l with
  | [] => [(k, v)]
  | (k', v') :: l' =>
      if String.eqb k k' then (k, v) :: l' else (k', v') :: set_entry k v l'
  end.

(** Drop every binding of [k]. *)
Fixpoint del_entry {A} (k : string) (l : list (string * A))
  : list (string * A) :=
  match l with
  | [] => []
  | (k', v') :: l' =>
      if String.eqb k k' then del_entry k l'
      else (k', v') :: del_entry k l'
  end.

Definition put_entry {A} (k : string) (o : option A) (l : list (string * A))
  : list (string * A) :=
  match o with Some v => set_entry k v l | None => del_entry k l end.

(** Components of a path string: the pieces between slashes, empty pieces
    and the current-directory component dropped. *)
Definition keep_component (c : string) : bool :=
  negb (String.eqb c "" || String.eqb c ".").

Definition split_path (p : string) : list string :=
  filter keep_component (split_on "/"%char p "").

(** A path string that ends with a slash can only resolve to a
    directory. *)
Definition names_directory (p : string) : bool := endswith p "/".

(** The pieces of a path string, each with the part of the string that
    ends with it. *)
Fixpoint prefixes (before : option string) (pieces : list string)
  : list (string * string) :=
  match pieces with
  | [] => []
  | c :: rest =>
      let here := match before with
                  | None => c
                  | Some b => (b ++ "/" ++ c)%string
                  end in
      (c, here) :: prefixes (Some here) rest
  end.

Fixpoint name_last (p : string) (l : list (string * string))
  : list (string * string) :=
  match l with
  | [] => []
  | (c, here) :: l' =>
      match l' with
      | [] => [(c, p)]
      | _ :: _ => (c, here) :: name_last p l'
      end
  end.

(** The directories [os.makedirs(p)] may have to make, outermost first:
    one per component, each with the path string [os.mkdir] is called
    with, which is the part of [p] that ends with the component and, for
    the last component, [p] itself. *)
Definition mkdir_levels (p : string) : list (string * string) :=
  name_last p
    (filter (fun cp => keep_component (fst cp))
       (prefixes None (split_on "/"%char p ""))).

(** The node a component list leads to. *)
Fixpoint lookup (n : node) (p : list string) : option node :=
  match p with
  | [] => Some n
  | c :: p' =>
      match n with
      | Dir es =>
          match assoc c es with Some m => lookup m p' | None => None end
      | File _ => None
      end
  end.

(** Apply [f] to what sits at the end of [p] (or to [None] when the last
    component is unbound) and rebuild the tree.  [name] is the path
    string, used in the exceptions.  The root cannot be replaced by
    nothing. *)
Fixpoint alter (name : string) (f : option node -> call (option node))
  (n : node) (p : list string) : call node :=
  match p with
  | [] =>
      match f (Some n) with
      | Ok (Some n') => Ok n'
      | Ok None =>
          Err (OSError ("[Errno 22] Invalid argument: '" ++ name ++ "'"))
      | Err e => Err e
      end
  | c :: p' =>
      match n with
      | File _ => Err (NotADirectoryError name)
      | Dir es =>
          match p' with
          | [] =>
              match f (assoc c es) with
              | Ok o => Ok (Dir (put_entry c o es))
              | Err e => Err e
              end
          | _ :: _ =>
              match assoc c es with
              | None => Err (FileNotFoundError name)
              | Some m =>
                  match alter name f m p' with
                  | Ok m' => Ok (Dir (set_entry c m' es))
                  | Err e => Err e
                  end
              end
          end
      end
  end.

(** A chain of fresh nested directories. *)
Fixpoint chain (p : list string) : node :=
  match p with
  | [] => Dir []
  | c :: p' => Dir [(c, chain p')]
  end.

(** [os.makedirs] on the levels of a path: the levels that exist are
    passed, from the first missing one on the directories are made, and
    the leaf must not exist.  A regular file in the way stops the call at
    the level below it, with the path string of that level in the
    exception. *)
Fixpoint makedirs_at (name : string) (n : node) (p : list (string * string))
  : call node :=
  match p with
  | [] => Err (FileExistsError name)
  | (c, here) :: p' =>
      match n with
      | File _ => Err (NotADirectoryError here)
      | Dir es =>
          match assoc c es with
          | None => Ok (Dir (es ++ [(c, chain (map fst p'))]))
          | Some m =>
              match makedirs_at name m p' with
              | Ok m' => Ok (Dir (set_entry c m' es))
              | Err e => Err e
              end
          end
      end
  end.

(** *** The calls of [os], [os.path], [shutil] and [open] used by the
    workers.  The empty path string names nothing. *)

Definition os_path_exists (root : node) (p : string) : bool :=
  negb (String.eqb p "")
  && match lookup root (split_path p) with
     | Some (Dir _) => true
     | Some (File _) => negb (names_directory p)
     | None => false
     end.

Definition os_path_isdir (root : node) (p : string) : bool :=
  negb (String.eqb p "")
  && match lookup root (split_path p) with
     | Some (Dir _) => true
     | _ => false
     end.

Definition os_makedirs (root : node) (p : string) : call node :=
  if String.eqb p "" then Err (FileNotFoundError p)
  else makedirs_at p root (mkdir_levels p).

Definition os_mkdir (root : node) (p : string) : call node :=
  if String.eqb p "" then Err (FileNotFoundError p)
  else alter p (fun o => match o with
                         | None => Ok (Some (Dir []))
                         | Some _ => Err (FileExistsError p)
                         end) root (split_path p).

(** [os.remove]: regular files only. *)
Definition os_remove (root : node) (p : string) : call node :=
  if String.eqb p "" then Err (FileNotFoundError p)
  else alter p (fun o => match o with
                         | Some (File _) =>
                             if names_directory p
                             then Err (NotADirectoryError p)
                             else Ok None
                         | Some (Dir _) => Err (IsADirectoryError p)
                         | None => Err (FileNotFoundError p)
                         end) root (split_path p).

(** [shutil.rmtree]: directories only, with all they hold. *)
Definition rmtree_at (p : string) (o : option node) : call (option node) :=
  match o with
  | Some (Dir _) => Ok None
  | Some (File _) => Err (NotADirectoryError p)
  | None => Err (FileNotFoundError p)
  end.

Definition shutil_rmtree (root : node) (p : string) : call node :=
  if String.eqb p "" then Err (FileNotFoundError p)
  else alter p (rmtree_at p) root (split_path p).

(** [open(p, "wb")] followed by a write of [d] and the close. *)
Definition write_file (root : node) (p : string) (d : data) : call node :=
  if String.eqb p "" then Err (FileNotFoundError p)
  else alter p (fun o => match o with
                         | Some (Dir _) => Err (IsADirectoryError p)
                         | Some (File _) =>
                             if names_directory p
                             then Err (NotADirectoryError p)
                             else Ok (Some (File d))
                         | None =>
                             if names_directory p
                             then Err (IsADirectoryError p)
                             else Ok (Some (File d))
                         end) root (split_path p).

(** [open(p, "rb")] and a read of the whole file. *)
Definition read_file (root : node) (p : string) : call data :=
  if String.eqb p "" then Err (FileNotFoundError p)
  else match lookup root (split_path p) with
       | Some (File d) =>
           if names_directory p then Err (NotADirectoryError p) else Ok d
       | Some (Dir _) => Err (IsADirectoryError p)
       | None => Err (FileNotFoundError p)
       end.

(** *** zipfile *)

(** The member name as [ZipFile._extract_member] sanitises it: empty,
    current-directory and parent-directory components are dropped. *)
Definition member_parts (name : string) : list string :=
  filter (fun c => negb (String.eqb c "" || String.eqb c "."
                         || String.eqb c ".."))
         (split_on "/"%char name "").

Definition join_parts (parts : list string) : string :=
  String.concat "/" parts.

(** [ZipFile._extract_member(member, targetpath)]: the target is the
    normalised join of the destination and the sanitised member name; the
    upper directories are created when they do not exist, then the
    directory is made or the file written.  A member that is not a
    directory entry and whose name has no component left is refused. *)
Definition extract_member (root : node) (extract_to : string)
  (m : string * data) : call node :=
  let arcname := join_parts (member_parts (fst m)) in
  let is_dir := endswith (fst m) "/" in
  if String.eqb arcname "" && negb is_dir then
    Err (ValueError "Empty filename.")
  else
    let targetpath := normpath (os_path_join extract_to [arcname]) in
    let upperdirs := dirname targetpath in
    let made :=
      if negb (String.eqb upperdirs "")
         && negb (os_path_exists root upperdirs)
      then os_makedirs root upperdirs
      else Ok root in
    match made with
    | Ok root1 =>
        if is_dir then
          if os_path_isdir root1 targetpath then Ok root1
          else os_mkdir root1 targetpath
        else write_file root1 targetpath (snd m)
    | Err e => Err e
    end.

(** [ZipFile.extractall(extract_to)]: the members in archive order; the
    first failure stops the extraction and what was written stays. *)
Fixpoint extractall (root : node) (extract_to : string)
  (members : list (string * data)) : call unit * node :=
  match members with
  | [] => (Ok tt, root)
  | m :: ms =>
      match extract_member root extract_to m with
      | Ok root1 => extractall root1 extract_to ms
      | Err e => (Err e, root)
      end
  end.

End FS.
Export FS.

(** ** Values exchanged with the collaborators *)

(** A value of a payload dictionary. *)
Inductive pyval : Type :=
| VStr (s : string)
| VInt (z : Z).

(** A Python [dict] with string keys, in insertion order. *)
Definition dict := list (string * pyval).

(** [d.update(more)] *)
Definition dict_update (d more : dict) : dict :=
  fold_left (fun acc kv => set_entry (fst kv) (snd kv) acc) more d.

(** [str(n)] and the [%d] format for an integer. *)
Definition str_Z (z : Z) : string := NilZero.string_of_int (Z.to_int z).

(** A raw document of [application.parser.schema.base]. *)
Record Document : Type := {
  text : string;
  extra_info : dict
}.

(** The final document format handed to the embedding sink. *)
Record LCDocument : Type := {
  page_content : string;
  metadata : dict
}.

(** [bson.objectid.ObjectId], given by the hexadecimal text that [str]
    shows for it. *)
Record ObjectId : Type := { oid_hex : string }.

Definition str_oid (i : ObjectId) : string := oid_hex i.

(** The keyword arguments of [Chunker(...)]. *)
Record ChunkPolicy : Type := {
  chunking_strategy : string;
  max_tokens : Z;
  min_tokens : Z;
  duplicate_headers : bool
}.

(** The keyword arguments of [SimpleDirectoryReader(...)]; [None] is an
    argument left out or passed as [None]. *)
Record ReaderArgs : Type := {
  input_dir : option string;
  input_files : option (list string);
  recursive : option bool;
  required_exts : option (list string);
  num_files_limit : option Z;
  exclude_hidden : option bool;
  file_metadata : option (string -> dict)
}.

(** A [requests] response: the status line, the address that was
    requested (with the query string the library built) and the body. *)
Record Response : Type := {
  status_code : Z;
  reason : string;
  url : string;
  content : data
}.

(** The document written by [attachment_worker]. *)
Record AttachmentRecord : Type := {
  att_user : string;
  att_path : string;
  att_content : string;
  att_token_count : Z;
  att_date : Z
}.

(** A document of the [sources] collection, as [sync_worker] reads it.
    [src_sync_frequency] is [None] when the field is missing; [src_id] is
    [str(doc.get("_id"))]. *)
Record SourceDoc : Type := {
  src_id : string;
  src_name : string;
  src_user : string;
  src_type : string;
  src_remote_data : string;
  src_retriever : string;
  src_sync_frequency : option string
}.

(** The arguments of one [remote_worker] call. *)
Record RemoteJob : Type := {
  source_data : string;
  name_job : string;
  user : string;
  loader : string;
  directory : string;
  retriever : string;
  sync_frequency : string;
  operation_mode : string;
  doc_id : option string
}.

(** What a run does to the outside, in order.  [EvExtract] and
    [EvRemoteWorker] are call markers: the first is recorded when
    [extract_zip_recursive] enters its [try] block at the given depth,
    the second at the entry of [remote_worker]. *)
Inductive event : Type :=
| EvLog (level msg : string)
| EvUpdateState (state : string) (current : Z)
| EvGet (url : string) (params : dict)
| EvPost (url : string) (files : list (string * data)) (payload : dict)
| EvLoadData (args : ReaderArgs)
| EvChunk (policy : ChunkPolicy) (documents : list Document)
| EvCreateLoader (loader_type : string)
| EvRemoteLoad (loader_type remote_data : string)
| EvEmbed (docs : list LCDocument) (folder : string) (id : ObjectId)
| EvInsertOne (record : AttachmentRecord)
| EvExtract (zip_path extract_to : string) (current_depth : Z)
| EvRemoteWorker (job : RemoteJob).

(** ** The collaborators

    Everything [worker.py] imports and calls, and the task object [self].
    [X] is the state of the outside world (network, stores, clock,
    identifier source, the backend that keeps the progress of the task);
    a call may succeed or raise, and may change that state.  The
    embedding sink also reads and writes the file system; the directory
    reader reads it.  [ObjectId_from] is [ObjectId(s)] of [bson] on a
    string; [task_update_state] is [self.update_state] of the task. *)
Record Env (X : Type) : Type := {
  API_URL : string;
  VECTOR_STORE : string;
  urljoin : string -> string -> string;
  requests_get : string -> dict -> X -> call Response * X;
  requests_post :
    string -> list (string * data) -> dict -> X -> call Response * X;
  scandir_order : list string -> list string;
  reader_load_data : ReaderArgs -> node -> X -> call (list Document) * X;
  chunker_chunk :
    ChunkPolicy -> list Document -> X -> call (list Document) * X;
  to_langchain_format : Document -> LCDocument;
  count_tokens_docs : list LCDocument -> call Z;
  num_tokens_from_string : string -> call Z;
  embed_and_store_documents :
    list LCDocument -> string -> ObjectId -> node -> X
    -> call unit * node * X;
  new_ObjectId : X -> ObjectId * X;
  ObjectId_from : string -> call ObjectId;
  task_update_state : string -> Z -> X -> call unit * X;
  create_loader : string -> X -> call unit * X;
  loader_load_data : string -> string -> X -> call (list Document) * X;
  sources_find : X -> list SourceDoc;
  insert_one : AttachmentRecord -> X -> call ObjectId * X;
  datetime_now : X -> Z * X
}.
Arguments API_URL {X} _.
Arguments VECTOR_STORE {X} _.
Arguments urljoin {X} _ _ _.
Arguments requests_get {X} _ _ _ _.
Arguments requests_post {X} _ _ _ _ _.
Arguments scandir_order {X} _ _.
Arguments reader_load_data {X} _ _ _ _.
Arguments chunker_chunk {X} _ _ _ _.
Arguments to_langchain_format {X} _ _.
Arguments count_tokens_docs {X} _ _.
Arguments num_tokens_from_string {X} _ _.
Arguments embed_and_store_documents {X} _ _ _ _ _ _.
Arguments new_ObjectId {X} _ _.
Arguments ObjectId_from {X} _ _.
Arguments task_update_state {X} _ _ _ _.
Arguments create_loader {X} _ _ _.
Arguments loader_load_data {X} _ _ _ _.
Arguments sources_find {X} _ _.
Arguments insert_one {X} _ _ _.
Arguments datetime_now {X} _ _.

(** [ObjectId.is_valid(s)] on a string, as [bson] defines it: the string
    is not empty and [ObjectId(s)] does not raise. *)
Definition ObjectId_is_valid {X} (env : Env X) (s : string) : bool :=
  negb (String.eqb s "")
  && match ObjectId_from env s with Ok _ => true | Err _ => false end.

(** ** The monad of the workers *)

Record State (X : Type) : Type := mkState {
  fs : node;
  ext : X
}.
Arguments mkState {X} _ _.
Arguments fs {X} _.
Arguments ext {X} _.

(** A computation: from a state to an outcome, the state it leaves and
    the events it produced. *)
Definition M (X A : Type) : Type :=
  State X -> result A * State X * list event.

Definition ret {X A} (a : A) : M X A := fun s => (Return a, s, []).

Definition raise {X A} (e : exn) : M X A := fun s => (Raise e, s, []).

Definition out_of_fuel {X A} : M X A := fun s => (OutOfFuel, s, []).

Definition bind {X A B} (m : M X A) (k : A -> M X B) : M X B :=
  fun s =>
    match m s with
    | (Return a, s1, t1) =>
        match k a s1 with (r, s2, t2) => (r, s2, t1 ++ t2) end
    | (Raise e, s1, t1) => (Raise e, s1, t1)
    | (OutOfFuel, s1, t1) => (OutOfFuel, s1, t1)
    end.

Declare Scope py_scope.
Delimit Scope py_scope with py.
Notation "x <- m ;; k" := (bind m (fun x => k))
  (at level 61, m at next level, right associativity) : py_scope.
Notation "m ;; k" := (bind m (fun _ => k))
  (at level 61, right associativity) : py_scope.
Local Open Scope py_scope.

Definition tell {X} (ev : event) : M X unit := fun s => (Return tt, s, [ev]).

Definition gets {X A} (f : State X -> A) : M X A :=
  fun s => (Return (f s), s, []).

(** A call that may raise, as a computation. *)
Definition lift_call {X A} (c : call A) : M X A :=
  fun s => match c with
           | Ok a => (Return a, s, [])
           | Err e => (Raise e, s, [])
           end.

(** A file-system call: the tree is replaced on success and untouched when
    the call raises. *)
Definition fs_op {X} (f : node -> call node) : M X unit :=
  fun s =>
    match f (fs s) with
    | Ok root => (Return tt, mkState root (ext s), [])
    | Err e => (Raise e, s, [])
    end.

(** A call to a collaborator that only touches the outside world. *)
Definition ext_op {X A} (f : X -> call A * X) : M X A :=
  fun s =>
    match f (ext s) with
    | (Ok a, x) => (Return a, mkState (fs s) x, [])
    | (Err e, x) => (Raise e, mkState (fs s) x, [])
    end.

(** [try: m  except <classes>: h]: [catches] tells which exceptions the
    clause matches. *)
Definition try_except {X A} (m : M X A) (catches : exn -> bool)
  (h : exn -> M X A) : M X A :=
  fun s =>
    match m s with
    | (Raise e, s1, t1) =>
        if catches e then
          match h e s1 with (r, s2, t2) => (r, s2, t1 ++ t2) end
        else (Raise e, s1, t1)
    | other => other
    end.

(** [try: m  finally: f]: [f] runs whatever [m] did; when [f] raises, its
    exception replaces the outcome of [m]. *)
Definition try_finally {X A} (m : M X A) (f : M X unit) : M X A :=
  fun s =>
    match m s with
    | (OutOfFuel, s1, t1) => (OutOfFuel, s1, t1)
    | (r, s1, t1) =>
        match f s1 with
        | (Return _, s2, t2) => (r, s2, t1 ++ t2)
        | (Raise e, s2, t2) => (Raise e, s2, t1 ++ t2)
        | (OutOfFuel, s2, t2) => (OutOfFuel, s2, t1 ++ t2)
        end
    end.

(** [except Exception] *)
Definition any_exception (_ : exn) : bool := true.

(** [for x in l: f(x)] *)
Fixpoint for_each {X A} (l : list A) (f : A -> M X unit) : M X unit :=
  match l with
  | [] => ret tt
  | x :: l' => f x ;; for_each l' f
  end.

(** A loop that carries a value from one round to the next. *)
Fixpoint fold_m {X A B} (f : B -> A -> M X B) (l : list A) (b : B) : M X B :=
  match l with
  | [] => ret b
  | x :: l' => b' <- f b x ;; fold_m f l' b'
  end.

Definition logging_info {X} (msg : string) : M X unit :=
  tell (EvLog "INFO" msg).
Definition logging_warning {X} (msg : string) : M X unit :=
  tell (EvLog "WARNING" msg).
Definition logging_error {X} (msg : string) : M X unit :=
  tell (EvLog "ERROR" msg).

(** [response.raise_for_status()]: a status from 400 to 499 is a client
    error, one from 500 to 599 a server error; both raise [HTTPError]
    with the message [requests] builds from the status line and the
    address. *)
Definition http_error_msg (r : Response) : string :=
  if ((400 <=? status_code r) && (status_code r <? 500))%Z then
    (str_Z (status_code r) ++ " Client Error: " ++ reason r
     ++ " for url: " ++ url r)%string
  else if ((500 <=? status_code r) && (status_code r <? 600))%Z then
    (str_Z (status_code r) ++ " Server Error: " ++ reason r
     ++ " for url: " ++ url r)%string
  else "".

Definition raise_for_status {X} (r : Response) : M X unit :=
  if negb (String.eqb (http_error_msg r) "")
  then raise (HTTPError (http_error_msg r))
  else ret tt.

(** *** Local variables

    A local variable that a function binds on some paths only, and reads
    after an exception may have cut the binding short, is kept in the
    state while the function runs: [None] until the first assignment.
    Reading it while it is unbound raises [UnboundLocalError]. *)
Definition with_local {X L A} (m : M (X * option L) A) : M X A :=
  fun s =>
    match m (mkState (fs s) (ext s, None)) with
    | (r, s1, t) => (r, mkState (fs s1) (fst (ext s1)), t)
    end.

Definition assign {X L} (v : L) : M (X * option L) unit :=
  fun s => (Return tt, mkState (fs s) (fst (ext s), Some v), []).

Definition local {X L} (name : string) : M (X * option L) L :=
  fun s =>
    match snd (ext s) with
    | Some v => (Return v, s, [])
    | None => (Raise (UnboundLocalError name), s, [])
    end.

(** A computation of the enclosing code, run where a local variable is
    in scope. *)
Definition outer {X L A} (m : M X A) : M (X * option L) A :=
  fun s =>
    match m (mkState (fs s) (fst (ext s))) with
    | (r, s1, t) => (r, mkState (fs s1) (ext s1, snd (ext s)), t)
    end.

(** ** worker.py *)

Section Worker.

Context {X : Type}.
Variable env : Env X.

(** [self.update_state(state=..., meta={"current": n})]: a call on the
    task object, which stores the progress in the backend of the task
    queue and may raise when that fails. *)
Definition update_state (state : string) (current : Z) : M X unit :=
  tell (EvUpdateState state current) ;;
  ext_op (task_update_state env state current).

(** Constants *)
Definition MIN_TOKENS : Z := 150.
Definition MAX_TOKENS : Z := 1250.
Definition RECURSION_DEPTH : Z := 2.

(** [metadata_from_filename(title)] *)
Definition metadata_from_filename (title : string) : dict :=
  [("title", VStr title)].

(** [generate_random_string(length)] *)
Definition generate_random_string (length : nat) : string :=
  String.concat ""
    (map (fun i => match String.get (i mod 52) ascii_letters with
                   | Some c => String c ""
                   | None => ""
                   end)
         (seq 0 length)).

(** *** Archive extraction *)

(** [zipfile.ZipFile(zip_path, "r")]: the member list of a valid archive. *)
Definition zipfile_open (root : node) (zip_path : string)
  : call (list (string * data)) :=
  match read_file root zip_path with
  | Ok (Zip members) => Ok members
  | Ok (Plain _) => Err (BadZipFile "File is not a zip file")
  | Err e => Err e
  end.

(** The [with] block of [extract_zip_recursive]. *)
Definition zip_extractall (zip_path extract_to : string) : M X unit :=
  fun s =>
    match zipfile_open (fs s) zip_path with
    | Ok members =>
        match extractall (fs s) extract_to members with
        | (Ok _, root) => (Return tt, mkState root (ext s), [])
        | (Err e, root) => (Raise e, mkState root (ext s), [])
        end
    | Err e => (Raise e, s, [])
    end.

(** One directory listing of [os.walk]: the names in the order the
    operating system returns them, split into directories and files. *)
Definition walk_listing (root : node) (top : string)
  : option (list string * list string) :=
  if String.eqb top "" then None
  else match lookup root (split_path top) with
       | Some (Dir es) =>
           let names := scandir_order env (map fst es) in
           Some (filter (fun n => match assoc n es with
                                  | Some (Dir _) => true
                                  | _ => false
                                  end) names,
                 filter (fun n => match assoc n es with
                                  | Some (File _) => true
                                  | _ => false
                                  end) names)
       | _ => None
       end.

(** [for root, dirs, files in os.walk(top): body(root, dirs, files)],
    top-down: a directory is listed when the walk reaches it, the body
    runs on that listing, then the listed sub-directories are walked.  A
    directory that cannot be listed is skipped.  [fuel] bounds the depth
    of the descent. *)
Fixpoint os_walk (fuel : nat) (top : string)
  (body : string -> list string -> list string -> M X unit) : M X unit :=
  match fuel with
  | O => out_of_fuel
  | S fuel' =>
      listing <- gets (fun s => walk_listing (fs s) top) ;;
      match listing with
      | None => ret tt
      | Some (dirs, files) =>
          body top dirs files ;;
          for_each dirs
            (fun d => os_walk fuel' (os_path_join top [d]) body)
      end
  end.

(** [extract_zip_recursive(zip_path, extract_to, current_depth, max_depth)].
    The depth guard comes first, as in the source; [fuel] bounds the
    nesting of calls and walks that follow. *)
Fixpoint extract_zip_recursive (fuel : nat) (zip_path extract_to : string)
  (current_depth max_depth : Z) : M X unit :=
  if (current_depth >? max_depth)%Z then
    logging_warning
      ("Reached maximum recursion depth of " ++ str_Z max_depth)
  else
    match fuel with
    | O => out_of_fuel
    | S fuel' =>
        extracted <-
          try_except
            (tell (EvExtract zip_path extract_to current_depth) ;;
             zip_extractall zip_path extract_to ;;
             fs_op (fun root => os_remove root zip_path) ;;
             ret true)
            any_exception
            (fun e =>
               logging_error
                 ("Error extracting zip file " ++ zip_path ++ ": "
                  ++ str_exn e) ;;
               ret false) ;;
        if extracted then
          os_walk fuel' extract_to
            (fun root dirs files =>
               for_each files
                 (fun file =>
                    if endswith file ".zip" then
                      let file_path := os_path_join root [file] in
                      extract_zip_recursive fuel' file_path root
                        (current_depth + 1)%Z max_depth
                    else ret tt))
        else ret tt
    end.

(** The default of the [max_depth] parameter. *)
Definition default_max_depth : Z := 5.

(** The call with [current_depth] and [max_depth] left to their
    defaults. *)
Definition extract_zip_recursive_default (fuel : nat)
  (zip_path extract_to : string) : M X unit :=
  extract_zip_recursive fuel zip_path extract_to 0%Z default_max_depth.

(** *** Transfers *)

(** [download_file(url, params, dest_path)] *)
Definition download_file (url : string) (params : dict) (dest_path : string)
  : M X unit :=
  try_except
    (tell (EvGet url params) ;;
     response <- ext_op (requests_get env url params) ;;
     raise_for_status response ;;
     fs_op (fun root => write_file root dest_path (content response)))
    is_request_exception
    (fun e =>
       logging_error ("Error downloading file: " ++ str_exn e) ;;
       raise e).

(** [open(p, "rb")]: the file object is given by what the file holds. *)
Definition open_rb (p : string) : M X data :=
  opened <- gets (fun s => read_file (fs s) p) ;;
  lift_call opened.

(** [requests.post(url, files=files, data=file_data)] *)
Definition post (url : string) (files : list (string * data))
  (file_data : dict) : M X Response :=
  tell (EvPost url files file_data) ;;
  ext_op (requests_post env url files file_data).

(** [upload_index(full_path, file_data)].  The local [files] is bound by
    the dictionary display of the file-backed branch, once both index
    files are open; the [finally] block reads it with that store
    whatever happened in the [try] block. *)
Definition upload_index (full_path : string) (file_data : dict) : M X unit :=
  let faiss := String.eqb (VECTOR_STORE env) "faiss" in
  let url := urljoin env (API_URL env) "/api/upload_index" in
  with_local
    (try_finally
       (try_except
          (response <-
             (if faiss then
                file_faiss <- outer (open_rb (full_path ++ "/index.faiss")) ;;
                file_pkl <- outer (open_rb (full_path ++ "/index.pkl")) ;;
                assign [("file_faiss", file_faiss); ("file_pkl", file_pkl)] ;;
                files <- local "files" ;;
                outer (post url files file_data)
              else outer (post url [] file_data)) ;;
           outer (raise_for_status response))
          is_request_exception
          (fun e =>
             outer (logging_error ("Error uploading index: " ++ str_exn e)) ;;
             raise e))
       (if faiss then
          files <- local "files" ;;
          for_each files (fun file => ret tt)
        else ret tt)).

(** *** The chunk policy of both flows *)

Definition chunk_policy : ChunkPolicy :=
  {| chunking_strategy := "classic_chunk";
     max_tokens := MAX_TOKENS;
     min_tokens := MIN_TOKENS;
     duplicate_headers := false |}.

(** [Chunker(...).chunk(documents=docs)] with the keyword arguments of
    [policy] *)
Definition chunk (policy : ChunkPolicy) (docs : list Document)
  : M X (list Document) :=
  tell (EvChunk policy docs) ;;
  ext_op (chunker_chunk env policy docs).

(** [SimpleDirectoryReader(...).load_data()] with the keyword arguments
    [args] *)
Definition load_data (args : ReaderArgs) : M X (list Document) :=
  tell (EvLoadData args) ;;
  root <- gets (fun s => fs s) ;;
  ext_op (reader_load_data env args root).

(** [embed_and_store_documents(docs, full_path, id, self)] *)
Definition embed (docs : list LCDocument) (full_path : string) (id : ObjectId)
  : M X unit :=
  tell (EvEmbed docs full_path id) ;;
  fun s =>
    match embed_and_store_documents env docs full_path id (fs s) (ext s) with
    | (Ok _, root, x) => (Return tt, mkState root x, [])
    | (Err e, root, x) => (Raise e, mkState root x, [])
    end.

(** [ObjectId()] *)
Definition fresh_ObjectId : M X ObjectId :=
  fun s =>
    match new_ObjectId env (ext s) with
    | (i, x) => (Return i, mkState (fs s) x, [])
    end.

(** [if not os.path.exists(full_path): os.makedirs(full_path)] *)
Definition ensure_dir (full_path : string) : M X unit :=
  there <- gets (fun s => os_path_exists (fs s) full_path) ;;
  if negb there then fs_op (fun root => os_makedirs root full_path)
  else ret tt.

(** *** The local upload flow *)

(** The summary [ingest_worker] returns. *)
Record IngestResult : Type := {
  res_directory : string;
  res_formats : list string;
  res_name_job : string;
  res_filename : string;
  res_user : string;
  res_limited : bool
}.

(** [ingest_worker(self, directory, formats, name_job, filename, user,
    retriever)] *)
Definition ingest_worker (fuel : nat) (directory : string)
  (formats : list string) (name_job filename user retriever : string)
  : M X IngestResult :=
  let input_files : option (list string) := None in
  let recursive := true in
  let limit : option Z := None in
  let exclude := true in
  let sample := false in
  let full_path := os_path_join directory [user; name_job] in
  logging_info ("Ingest file: " ++ full_path) ;;
  let file_data :=
    [("name", VStr name_job); ("file", VStr filename); ("user", VStr user)] in
  ensure_dir full_path ;;
  download_file (urljoin env (API_URL env) "/api/download") file_data
    (os_path_join full_path [filename]) ;;
  (if endswith filename ".zip" then
     extract_zip_recursive fuel (os_path_join full_path [filename]) full_path
       0%Z RECURSION_DEPTH
   else ret tt) ;;
  update_state "PROGRESS" 1 ;;
  raw_docs <- load_data
    {| input_dir := Some full_path;
       input_files := input_files;
       recursive := Some recursive;
       required_exts := Some formats;
       num_files_limit := limit;
       exclude_hidden := Some exclude;
       file_metadata := Some metadata_from_filename |} ;;
  raw_docs <- chunk chunk_policy raw_docs ;;
  let docs := map (to_langchain_format env) raw_docs in
  id <- fresh_ObjectId ;;
  embed docs full_path id ;;
  tokens <- lift_call (count_tokens_docs env docs) ;;
  update_state "PROGRESS" 100 ;;
  (if sample then
     for_each (combine (seq 0 (Nat.min 5 (List.length raw_docs))) raw_docs)
       (fun p => logging_info
                   ("Sample document " ++ str_Z (Z.of_nat (fst p)) ++ ": "
                    ++ text (snd p)))
   else ret tt) ;;
  let file_data :=
    dict_update file_data
      [("tokens", VInt tokens); ("retriever", VStr retriever);
       ("id", VStr (str_oid id)); ("type", VStr "local")] in
  upload_index full_path file_data ;;
  fs_op (fun root => shutil_rmtree root full_path) ;;
  ret {| res_directory := directory;
         res_formats := formats;
         res_name_job := name_job;
         res_filename := filename;
         res_user := user;
         res_limited := false |}.

(** *** The remote flow *)

(** The summary [remote_worker] returns. *)
Record RemoteResult : Type := {
  rr_urls : string;
  rr_name_job : string;
  rr_user : string;
  rr_limited : bool
}.

(** The working directory of a remote job. *)
Definition job_path (j : RemoteJob) : string :=
  os_path_join (directory j) [user j; name_job j].

(** [not doc_id or not ObjectId.is_valid(doc_id)]: [doc_id] is [None]
    or a string, and the empty string is false. *)
Definition invalid_doc_id (d : option string) : bool :=
  match d with
  | None => true
  | Some s => String.eqb s "" || negb (ObjectId_is_valid env s)
  end.

(** The body of the [try] block of [remote_worker].  The local [id] is
    bound by the upload and the sync branch only; it is [None] while
    unbound. *)
Definition remote_body (j : RemoteJob) (full_path : string) : M X unit :=
  logging_info ("Initializing remote loader with type: " ++ loader j) ;;
  tell (EvCreateLoader (loader j)) ;;
  ext_op (create_loader env (loader j)) ;;
  tell (EvRemoteLoad (loader j) (source_data j)) ;;
  raw_docs <- ext_op (loader_load_data env (loader j) (source_data j)) ;;
  docs <- chunk chunk_policy raw_docs ;;
  let docs := map (to_langchain_format env) raw_docs in
  tokens <- lift_call (count_tokens_docs env docs) ;;
  logging_info ("Total tokens calculated: " ++ str_Z tokens) ;;
  id <-
    (if String.eqb (operation_mode j) "upload" then
       id <- fresh_ObjectId ;;
       embed docs full_path id ;;
       ret (Some id)
     else if String.eqb (operation_mode j) "sync" then
       if invalid_doc_id (doc_id j) then
         logging_error
           ("Invalid doc_id provided for sync operation: "
            ++ match doc_id j with Some d => d | None => "None" end) ;;
         raise (ValueError "doc_id must be provided for sync operation.")
       else
         id <- lift_call
                 (ObjectId_from env
                    (match doc_id j with Some d => d | None => "" end)) ;;
         embed docs full_path id ;;
         ret (Some id)
     else ret None) ;;
  update_state "PROGRESS" 100 ;;
  id_str <- match id with
            | Some i => ret (str_oid i)
            | None => raise (UnboundLocalError "id")
            end ;;
  let file_data :=
    [("name", VStr (name_job j)); ("user", VStr (user j));
     ("tokens", VInt tokens); ("retriever", VStr (retriever j));
     ("id", VStr id_str); ("type", VStr (loader j));
     ("remote_data", VStr (source_data j));
     ("sync_frequency", VStr (sync_frequency j))] in
  upload_index full_path file_data.

(** The [try] block with its [except] clause: the error is logged and
    raised again. *)
Definition remote_guarded (j : RemoteJob) (full_path : string) : M X unit :=
  try_except (remote_body j full_path) any_exception
    (fun e =>
       logging_error ("Error in remote_worker task: " ++ str_exn e) ;;
       raise e).

(** The [finally] block of [remote_worker]. *)
Definition remote_cleanup (full_path : string) : M X unit :=
  there <- gets (fun s => os_path_exists (fs s) full_path) ;;
  if there then fs_op (fun root => shutil_rmtree root full_path)
  else ret tt.

(** [remote_worker(self, source_data, name_job, user, loader, directory,
    retriever, sync_frequency, operation_mode, doc_id)] *)
Definition remote_worker (j : RemoteJob) : M X RemoteResult :=
  tell (EvRemoteWorker j) ;;
  let full_path := job_path j in
  ensure_dir full_path ;;
  update_state "PROGRESS" 1 ;;
  try_finally (remote_guarded j full_path) (remote_cleanup full_path) ;;
  logging_info "remote_worker task completed successfully" ;;
  ret {| rr_urls := source_data j;
         rr_name_job := name_job j;
         rr_user := user j;
         rr_limited := false |}.

(** The call with the keyword defaults of the signature. *)
Definition remote_job_defaults (source_data name_job user loader : string)
  : RemoteJob :=
  {| source_data := source_data; name_job := name_job; user := user;
     loader := loader; directory := "temp"; retriever := "classic";
     sync_frequency := "never"; operation_mode := "upload";
     doc_id := None |}.

(** *** The scheduler *)

(** The dictionary [sync] returns. *)
Record SyncResp : Type := {
  status : string;
  error : option string
}.

(** The job [sync] hands to [remote_worker]. *)
Definition sync_job (source_data name_job user loader sync_frequency
  retriever : string) (doc_id : option string) (directory : string)
  : RemoteJob :=
  {| source_data := source_data; name_job := name_job; user := user;
     loader := loader; directory := directory; retriever := retriever;
     sync_frequency := sync_frequency; operation_mode := "sync";
     doc_id := doc_id |}.

(** [sync(self, source_data, name_job, user, loader, sync_frequency,
    retriever, doc_id, directory)] *)
Definition sync (source_data name_job user loader sync_frequency
  retriever : string) (doc_id : option string) (directory : string)
  : M X SyncResp :=
  try_except
    (remote_worker
       (sync_job source_data name_job user loader sync_frequency retriever
          doc_id directory) ;;
     ret {| status := "success"; error := None |})
    any_exception
    (fun e =>
       logging_error ("Error during sync: " ++ str_exn e) ;;
       ret {| status := "error"; error := Some (str_exn e) |}).

(** [collections.Counter] with string keys. *)
Definition Counter := list (string * Z).

Definition counter_get (key : string) (c : Counter) : Z :=
  match assoc key c with Some n => n | None => 0%Z end.

(** [c[key] += 1] *)
Definition counter_incr (key : string) (c : Counter) : Counter :=
  set_entry key (counter_get key c + 1)%Z c.

(** [doc.get("sync_frequency") == frequency] *)
Definition due (frequency : string) (doc : SourceDoc) : bool :=
  match src_sync_frequency doc with
  | Some f => String.eqb f frequency
  | None => false
  end.

(** One round of the loop of [sync_worker]. *)
Definition sync_round (frequency : string) (sync_counts : Counter)
  (doc : SourceDoc) : M X Counter :=
  if due frequency doc then
    let name := src_name doc in
    let user := src_user doc in
    let source_type := src_type doc in
    let source_data := src_remote_data doc in
    let retriever := src_retriever doc in
    let doc_id := src_id doc in
    resp <- sync source_data name user source_type frequency retriever
              (Some doc_id) "temp" ;;
    let sync_counts := counter_incr "total_sync_count" sync_counts in
    ret (counter_incr
           (if String.eqb (status resp) "success" then "sync_success"
            else "sync_failure")
           sync_counts)
  else ret sync_counts.

(** [sync_worker(self, frequency)] *)
Definition sync_worker (frequency : string) : M X (list (string * Z)) :=
  sources <- gets (fun s => sources_find env (ext s)) ;;
  sync_counts <- fold_m (sync_round frequency) sources [] ;;
  ret (map (fun key => (key, counter_get key sync_counts))
         ["total_sync_count"; "sync_success"; "sync_failure"]).

(** *** Attachments *)

(** [file_info]: a dictionary of strings, read by subscript. *)
Definition FileInfo := list (string * string).

(** [d[key]] *)
Definition getitem (d : FileInfo) (key : string) : M X string :=
  match assoc key d with
  | Some v => ret v
  | None => raise (KeyError key)
  end.

(** What [attachment_worker] returns: the error dictionary or the
    description of the stored attachment. *)
Inductive AttachmentResult : Type :=
| AttError (message : string)
| AttStored (attachment_id filename folder path : string) (token_count : Z).

(** [attachment_worker(self, directory, file_info, user)] *)
Definition attachment_worker (directory : string) (file_info : FileInfo)
  (user : string) : M X AttachmentResult :=
  job_name <- getitem file_info "folder" ;;
  logging_info ("Processing attachment: " ++ job_name) ;;
  update_state "PROGRESS" 10 ;;
  folder_name <- getitem file_info "folder" ;;
  filename <- getitem file_info "filename" ;;
  let file_path := os_path_join directory [filename] in
  logging_info ("Processing file: " ++ file_path) ;;
  there <- gets (fun s => os_path_exists (fs s) file_path) ;;
  if negb there then
    logging_warning ("File not found: " ++ file_path) ;;
    ret (AttError "File not found")
  else
    try_except
      (documents <- load_data
         {| input_dir := None;
            input_files := Some [file_path];
            recursive := None;
            required_exts := None;
            num_files_limit := None;
            exclude_hidden := None;
            file_metadata := None |} ;;
       update_state "PROGRESS" 50 ;;
       match documents with
       | first :: _ =>
           let content := text first in
           token_count <- lift_call (num_tokens_from_string env content) ;;
           let file_path_relative :=
             (user ++ "/attachments/" ++ folder_name ++ "/" ++ filename)%string in
           now <- ext_op (fun x => match datetime_now env x with
                                   | (t, x') => (Ok t, x')
                                   end) ;;
           let record :=
             {| att_user := user;
                att_path := file_path_relative;
                att_content := content;
                att_token_count := token_count;
                att_date := now |} in
           tell (EvInsertOne record) ;;
           attachment_id <- ext_op (insert_one env record) ;;
           logging_info
             ("Stored attachment with ID: " ++ str_oid attachment_id) ;;
           update_state "PROGRESS" 100 ;;
           ret (AttStored (str_oid attachment_id) filename folder_name
                  file_path_relative token_count)
       | [] =>
           logging_warning "No content was extracted from the file" ;;
           ret (AttError "No content was extracted from the file")
       end)
      any_exception
      (fun e =>
         logging_error
           ("Error processing file " ++ filename ++ ": " ++ str_exn e) ;;
         ret (AttError ("Error processing file: " ++ str_exn e))).

End Worker.

(** ** Sample collaborators and inputs

    A small world to run the workers in: the state of the outside is a
    counter from which identifiers and time stamps are drawn. *)

Module Demo.

Definition hex24 (n : nat) : string :=
  ("650000000000000000000" ++ (if Nat.ltb n 10 then "00" else "0")
   ++ str_Z (Z.of_nat n))%string.

(** The identifiers of [bson]: [ObjectId(s)] accepts a string of 24
    characters that [bytes.fromhex] can read, that is pairs of
    hexadecimal digits with ASCII white space allowed between the pairs,
    and [str] shows the bytes in lower case. *)
Definition is_hex_digit (c : ascii) : bool :=
  let n := nat_of_ascii c in
  ((48 <=? n) && (n <=? 57) || (97 <=? n) && (n <=? 102)
   || (65 <=? n) && (n <=? 70))%nat.

Definition lower_hex (c : ascii) : ascii :=
  let n := nat_of_ascii c in
  if ((65 <=? n) && (n <=? 70))%nat then ascii_of_nat (n + 32) else c.

Definition is_ascii_space (c : ascii) : bool :=
  let n := nat_of_ascii c in
  (Nat.eqb n 32 || (9 <=? n) && (n <=? 13))%nat.

Fixpoint fromhex (s : string) : option string :=
  match s with
  | EmptyString => Some EmptyString
  | String c s' =>
      if is_ascii_space c then fromhex s'
      else
        match s' with
        | EmptyString => None
        | String d s'' =>
            if is_hex_digit c && is_hex_digit d then
              match fromhex s'' with
              | Some rest =>
                  Some (String (lower_hex c) (String (lower_hex d) rest))
              | None => None
              end
            else None
        end
  end.

Definition bson_ObjectId (s : string) : call ObjectId :=
  if Nat.eqb (String.length s) 24 then
    match fromhex s with
    | Some hex => Ok {| oid_hex := hex |}
    | None =>
        Err (OtherException "InvalidId"
               ("'" ++ s ++ "' is not a valid ObjectId, it must be a 12-byte input or a 24-character hex string"))
    end
  else
    Err (OtherException "InvalidId"
           ("'" ++ s ++ "' is not a valid ObjectId, it must be a 12-byte input or a 24-character hex string")).

(** A loader that knows the tags [url] and [crawler] and cannot reach
    the source [unreachable]. *)
Definition demo_create_loader (tag : string) (x : nat) : call unit * nat :=
  if String.eqb tag "url" || String.eqb tag "crawler" then (Ok tt, x)
  else (Err (ValueError ("No loader class found for type " ++ tag)), x).

Definition demo_remote_docs (remote_data : string) : list Document :=
  [ {| text := "first page of " ++ remote_data; extra_info := [] |};
    {| text := "second page of " ++ remote_data; extra_info := [] |} ].

Definition demo_loader_load_data (tag remote_data : string) (x : nat)
  : call (list Document) * nat :=
  if String.eqb remote_data "unreachable"
  then (Err (OtherException "ConnectionError" "source unreachable"), x)
  else (Ok (demo_remote_docs remote_data), x).

(** A chunker that merges all documents into one chunk. *)
Definition demo_chunk (_ : ChunkPolicy) (docs : list Document) (x : nat)
  : call (list Document) * nat :=
  (Ok [ {| text := String.concat " " (map text docs);
               extra_info := [] |} ], x).

(** A reader that returns one document per regular entry of the input
    directory, or the listed input files. *)
Definition demo_reader (args : ReaderArgs) (root : node) (x : nat)
  : call (list Document) * nat :=
  match input_files args, input_dir args with
  | Some files, _ =>
      (Ok (flat_map (fun f => match read_file root f with
                                  | Ok (Plain b) =>
                                      [ {| text := b; extra_info := [] |} ]
                                  | _ => []
                                  end) files), x)
  | None, Some d =>
      match lookup root (split_path d) with
      | Some (Dir es) =>
          (Ok (flat_map (fun e => match snd e with
                                      | File (Plain b) =>
                                          [ {| text := b;
                                               extra_info :=
                                                 [("title", VStr (fst e))] |} ]
                                      | _ => []
                                      end) es), x)
      | _ => (Err (ValueError ("Directory " ++ d ++ " does not exist.")), x)
      end
  | None, None =>
      (Err (ValueError "Must provide either input_dir or input_files."), x)
  end.

(** An embedding sink that saves the two index files in the folder. *)
Definition demo_embed (docs : list LCDocument) (folder : string)
  (id : ObjectId) (root : node) (x : nat) : call unit * node * nat :=
  match write_file root (folder ++ "/index.faiss") (Plain "faiss") with
  | Ok root1 =>
      match write_file root1 (folder ++ "/index.pkl") (Plain "pkl") with
      | Ok root2 => (Ok tt, root2, x)
      | Err e => (Err e, root1, x)
      end
  | Err e => (Err e, root, x)
  end.

Definition demo_env (download : call Response)
  (order : list string -> list string) (sources : list SourceDoc)
  : Env nat :=
  {| API_URL := "http://localhost:7091";
     VECTOR_STORE := "faiss";
     urljoin := fun base path => String.append base path;
     requests_get := fun _ _ x => (download, x);
     requests_post := fun u _ _ x =>
       (Ok {| status_code := 200; reason := "OK"; url := u;
              content := Plain "ok" |}, x);
     scandir_order := order;
     reader_load_data := demo_reader;
     chunker_chunk := demo_chunk;
     to_langchain_format := fun d =>
       {| page_content := text d; metadata := extra_info d |};
     count_tokens_docs := fun docs => Ok (Z.of_nat (List.length docs));
     num_tokens_from_string := fun s => Ok (Z.of_nat (String.length s));
     embed_and_store_documents := demo_embed;
     new_ObjectId := fun x => ({| oid_hex := hex24 x |}, S x);
     ObjectId_from := bson_ObjectId;
     task_update_state := fun _ _ x => (Ok tt, x);
     create_loader := demo_create_loader;
     loader_load_data := demo_loader_load_data;
     sources_find := fun _ => sources;
     insert_one := fun _ x => (Ok {| oid_hex := hex24 x |}, S x);
     datetime_now := fun x => (Z.of_nat x, S x) |}.

(** The archive of the example: [notes.zip] holds [a.md] and [b.zip],
    which holds [c.md]. *)
Definition notes_zip : data :=
  Zip [("a.md", Plain "alpha");
       ("b.zip", Zip [("c.md", Plain "gamma")])].

(** Two sibling archives, each holding one more archive: nesting depth
    two. *)
Definition siblings_zip : data :=
  Zip [("a.zip", Zip [("a2.zip", Zip [("a.md", Plain "alpha")])]);
       ("b.zip", Zip [("b2.zip", Zip [("b.md", Plain "beta")])])].

(** A chain of [n] archives around one file [deep.md]; the archive that
    has [k] archives inside it is stored as [level<k>.zip]. *)
Fixpoint nested_zip (n : nat) : data :=
  match n with
  | O => Plain "deep"
  | S n' => Zip [(match n' with
                  | O => "deep.md"
                  | S k => ("level" ++ str_Z (Z.of_nat k) ++ ".zip")%string
                  end,
                  nested_zip n')]
  end.

(** A file system with one working directory [temp/u1/job1] holding the
    given upload. *)
Definition with_upload (name : string) (d : data) : node :=
  Dir [("temp", Dir [("u1", Dir [("job1", Dir [(name, File d)])])])].

Definition empty_fs : node := Dir [].

Definition ok_download (d : data) : call Response :=
  Ok {| status_code := 200; reason := "OK";
        url := "http://localhost:7091/api/download?name=job1&file=notes.zip&user=u1";
        content := d |}.

(** The answer for a file the server does not have. *)
Definition not_found : call Response :=
  Ok {| status_code := 404; reason := "NOT FOUND";
        url := "http://localhost:7091/api/download?name=job1&file=notes.zip&user=u1";
        content := Plain "missing" |}.

Definition failed_download : call Response :=
  Err (RequestException "Connection refused").

(** The world used in the examples: downloads of [d] succeed, listings
    come in creation order, no source is registered. *)
Definition world (d : data) : Env nat :=
  demo_env (ok_download d) (fun names => names) [].

Definition offline : Env nat :=
  demo_env failed_download (fun names => names) [].

(** A world in which the backend of the task queue cannot be reached:
    every progress report raises. *)
Definition unreported (env : Env nat) : Env nat :=
  {| API_URL := API_URL env;
     VECTOR_STORE := VECTOR_STORE env;
     urljoin := urljoin env;
     requests_get := requests_get env;
     requests_post := requests_post env;
     scandir_order := scandir_order env;
     reader_load_data := reader_load_data env;
     chunker_chunk := chunker_chunk env;
     to_langchain_format := to_langchain_format env;
     count_tokens_docs := count_tokens_docs env;
     num_tokens_from_string := num_tokens_from_string env;
     embed_and_store_documents := embed_and_store_documents env;
     new_ObjectId := new_ObjectId env;
     ObjectId_from := ObjectId_from env;
     task_update_state := fun _ _ x =>
       (Err (OtherException "OperationalError"
               "Error 111 connecting to redis:6379. Connection refused."), x);
     create_loader := create_loader env;
     loader_load_data := loader_load_data env;
     sources_find := sources_find env;
     insert_one := insert_one env;
     datetime_now := datetime_now env |}.

Definition start : State nat := mkState empty_fs 0.

(** A sync job whose identifier is not a valid one. *)
Definition bad_sync_job : RemoteJob :=
  {| source_data := "https://docs.example.org"; name_job := "job1";
     user := "u1"; loader := "url"; directory := "temp";
     retriever := "classic"; sync_frequency := "daily";
     operation_mode := "sync"; doc_id := Some "not-an-id" |}.

(** A job with a mode the flow does not know. *)
Definition odd_mode_job : RemoteJob :=
  {| source_data := "https://docs.example.org"; name_job := "job1";
     user := "u1"; loader := "url"; directory := "temp";
     retriever := "classic"; sync_frequency := "never";
     operation_mode := "refresh"; doc_id := None |}.

(** An upload job. *)
Definition upload_job : RemoteJob :=
  remote_job_defaults "https://docs.example.org" "job1" "u1" "url".

(** An upload job whose source cannot be reached. *)
Definition unreachable_job : RemoteJob :=
  remote_job_defaults "unreachable" "job1" "u1" "url".

(** The store of the scheduler example: two daily sources, the second of
    which cannot be reached, and one that is never synced. *)
Definition three_sources : list SourceDoc :=
  [ {| src_id := "65a1b2c3d4e5f60718293a01"; src_name := "handbook";
       src_user := "u1"; src_type := "url";
       src_remote_data := "https://docs.example.org";
       src_retriever := "classic"; src_sync_frequency := Some "daily" |};
    {| src_id := "65a1b2c3d4e5f60718293a02"; src_name := "wiki";
       src_user := "u1"; src_type := "crawler";
       src_remote_data := "https://wiki.example.org";
       src_retriever := "classic"; src_sync_frequency := Some "never" |};
    {| src_id := "65a1b2c3d4e5f60718293a03"; src_name := "intranet";
       src_user := "u2"; src_type := "url";
       src_remote_data := "unreachable";
       src_retriever := "classic"; src_sync_frequency := Some "daily" |} ].

Definition scheduled : Env nat :=
  demo_env failed_download (fun names => names) three_sources.

(** An attachment [report.txt] stored under [uploads]. *)
Definition with_attachment : State nat :=
  mkState (Dir [("uploads", Dir [("report.txt", File (Plain "quarterly"))])]) 0.

Definition report : FileInfo :=
  [("folder", "f42"); ("filename", "report.txt")].

(** A [file_info] without the folder. *)
Definition no_folder : FileInfo := [("filename", "report.txt")].

End Demo.


(** ** Reading a run *)

(** The three parts of a run. *)
Definition res {X A} (run : result A * State X * list event) : result A :=
  fst (fst run).
Definition final {X A} (run : result A * State X * list event) : State X :=
  snd (fst run).
Definition events {X A} (run : result A * State X * list event)
  : list event := snd run.

Definition is_embed (ev : event) : bool :=
  match ev with EvEmbed _ _ _ => true | _ => false end.

Definition is_post (ev : event) : bool :=
  match ev with EvPost _ _ _ => true | _ => false end.

(** A working path the model covers: at least one component, and none of
    them the current or the parent directory. *)
Definition scratch_path_ok (p : string) : bool :=
  negb (existsb (fun c => String.eqb c "." || String.eqb c "..")
          (split_on "/"%char p ""))
  && match split_path p with [] => false | _ :: _ => true end.

(** The documents handed to the embedding sink, call by call. *)
Fixpoint embed_calls (tr : list event) : list (list LCDocument) :=
  match tr with
  | [] => []
  | EvEmbed docs _ _ :: tr' => docs :: embed_calls tr'
  | _ :: tr' => embed_calls tr'
  end.

(** The policies the chunker was built with, call by call. *)
Fixpoint chunk_calls (tr : list event) : list ChunkPolicy :=
  match tr with
  | [] => []
  | EvChunk policy _ :: tr' => policy :: chunk_calls tr'
  | _ :: tr' => chunk_calls tr'
  end.

(** The index uploads of a run. *)
Fixpoint post_calls (tr : list event) : list string :=
  match tr with
  | [] => []
  | EvPost url _ _ :: tr' => url :: post_calls tr'
  | _ :: tr' => post_calls tr'
  end.

(** The remote jobs started during a run, in order. *)
Fixpoint remote_jobs (tr : list event) : list RemoteJob :=
  match tr with
  | [] => []
  | EvRemoteWorker j :: tr' => j :: remote_jobs tr'
  | _ :: tr' => remote_jobs tr'
  end.

(** The attachment records written during a run. *)
Fixpoint inserted (tr : list event) : list AttachmentRecord :=
  match tr with
  | [] => []
  | EvInsertOne record :: tr' => record :: inserted tr'
  | _ :: tr' => inserted tr'
  end.

(** The depths at which archives were opened during a run. *)
Fixpoint extract_depths (tr : list event) : list Z :=
  match tr with
  | [] => []
  | EvExtract _ _ d :: tr' => d :: extract_depths tr'
  | _ :: tr' => extract_depths tr'
  end.

(** The chunk policy, written out. *)
Definition fixed_policy : ChunkPolicy :=
  {| chunking_strategy := "classic_chunk";
     max_tokens := 1250;
     min_tokens := 150;
     duplicate_headers := false |}.

(** The events a run of the local upload flow may produce. *)
Definition ingest_event (ev : event) : Prop :=
  match ev with
  | EvLog _ _ | EvUpdateState _ _ | EvGet _ _ | EvPost _ _ _
  | EvLoadData _ | EvEmbed _ _ _ => True
  | EvChunk policy _ => policy = fixed_policy
  | EvExtract _ _ d => (0 <= d <= 2)%Z
  | _ => False
  end.

(** The events a run of the remote flow may produce. *)
Definition remote_event (ev : event) : Prop :=
  match ev with
  | EvLog _ _ | EvUpdateState _ _ | EvPost _ _ _ | EvCreateLoader _
  | EvRemoteLoad _ _ | EvEmbed _ _ _ | EvRemoteWorker _ => True
  | EvChunk policy _ => policy = fixed_policy
  | _ => False
  end.

(** How deep archives nest inside an archive: none inside it is depth 0. *)
Fixpoint nesting_depth (d : data) : nat :=
  match d with
  | Plain _ => O
  | Zip members =>
      (fix deepest (ms : list (string * data)) : nat :=
         match ms with
         | [] => O
         | (_, Plain _) :: ms' => deepest ms'
         | (_, (Zip _) as inner) :: ms' =>
             Nat.max (S (nesting_depth inner)) (deepest ms')
         end) members
  end.

(** The archives still packed below a node, by name. *)
Fixpoint archives_left (n : node) : list string :=
  match n with
  | File _ => []
  | Dir es =>
      (fix scan (es : list (string * node)) : list string :=
         match es with
         | [] => []
         | (name, File (Zip _)) :: es' => name :: scan es'
         | (_, File (Plain _)) :: es' => scan es'
         | (_, (Dir _) as sub) :: es' => archives_left sub ++ scan es'
         end) es
  end.

(** The scheduler as the specification words it: the jobs of the sources
    that are due, run one after the other, each outcome kept. *)
Definition job_of_source (frequency : string) (doc : SourceDoc) : RemoteJob :=
  {| source_data := src_remote_data doc; name_job := src_name doc;
     user := src_user doc; loader := src_type doc; directory := "temp";
     retriever := src_retriever doc; sync_frequency := frequency;
     operation_mode := "sync"; doc_id := Some (src_id doc) |}.

Fixpoint run_jobs {X} (env : Env X) (jobs : list RemoteJob) (s : State X)
  : list bool * State X :=
  match jobs with
  | [] => ([], s)
  | j :: jobs' =>
      match remote_worker env j s with
      | (r, s1, _) =>
          match run_jobs env jobs' s1 with
          | (outcomes, s2) => (is_return r :: outcomes, s2)
          end
      end
  end.

Definition count_true (l : list bool) : Z :=
  Z.of_nat (List.length (filter (fun b => b) l)).

Definition count_false (l : list bool) : Z :=
  Z.of_nat (List.length (filter negb l)).

(** *** Further readings of a run *)

(** What each index upload carried: the files and the payload. *)
Fixpoint post_payloads (tr : list event)
  : list (list (string * data) * dict) :=
  match tr with
  | [] => []
  | EvPost _ files payload :: tr' => (files, payload) :: post_payloads tr'
  | _ :: tr' => post_payloads tr'
  end.

(** The identifiers and folders given to the embedding sink. *)
Fixpoint embed_targets (tr : list event) : list (string * ObjectId) :=
  match tr with
  | [] => []
  | EvEmbed _ folder id :: tr' => (folder, id) :: embed_targets tr'
  | _ :: tr' => embed_targets tr'
  end.

(** An event that is neither a call to the embedding sink nor an index
    upload. *)
Definition silent (ev : event) : Prop :=
  is_embed ev = false /\ is_post ev = false.

(** The status codes [raise_for_status] rejects. *)
Definition is_error_status (r : Response) : bool :=
  ((400 <=? status_code r) && (status_code r <? 600))%Z.

(** The request of [upload_index] with its status check and the [except]
    clause around them, for given files: what is left of [upload_index]
    once the files to send are known. *)
Definition post_index {X} (env : Env X) (files : list (string * data))
  (file_data : dict) : M X unit :=
  try_except
    (response <-
       post env (urljoin env (API_URL env) "/api/upload_index") files
         file_data ;;
     raise_for_status response)
    is_request_exception
    (fun e =>
       logging_error ("Error uploading index: " ++ str_exn e) ;;
       raise e).

(** An archive opened where it lies: its path is a name ending in [.zip]
    joined to the directory it is extracted into. *)
Definition opened_in_place (zip_path extract_to : string) : Prop :=
  exists file,
    zip_path = os_path_join extract_to [file]
    /\ endswith file ".zip" = true.

(** The payload the local upload flow submits. *)
Definition local_payload (name_job filename user retriever : string)
  (tokens : Z) (id : ObjectId) : dict :=
  [("name", VStr name_job); ("file", VStr filename); ("user", VStr user);
   ("tokens", VInt tokens); ("retriever", VStr retriever);
   ("id", VStr (str_oid id)); ("type", VStr "local")].

(** The payload the remote flow submits. *)
Definition remote_payload (j : RemoteJob) (tokens : Z) (id : ObjectId)
  : dict :=
  [("name", VStr (name_job j)); ("user", VStr (user j));
   ("tokens", VInt tokens); ("retriever", VStr (retriever j));
   ("id", VStr (str_oid id)); ("type", VStr (loader j));
   ("remote_data", VStr (source_data j));
   ("sync_frequency", VStr (sync_frequency j))].

(** ** Properties of computations *)

(** Every event of every run satisfies [P]. *)
Definition emits {X A} (P : event -> Prop) (m : M X A) : Prop :=
  forall s, Forall P (snd (m s)).

(** No run needs fuel. *)
Definition total {X A} (m : M X A) : Prop :=
  forall s, fst (fst (m s)) <> OutOfFuel.

(** No run raises. *)
Definition quiet {X A} (m : M X A) : Prop :=
  forall s e, fst (fst (m s)) <> Raise e.

(** No run returns. *)
Definition fails {X A} (m : M X A) : Prop :=
  forall s, is_return (res (m s)) = false.

(** ** Facts about the file system *)

Lemma assoc_set_entry {A} (k : string) (v : A) (l : list (string * A)) :
  assoc k (set_entry k v l) = Some v.
Proof.
  induction l as [|[k' v'] l IH]; simpl.
  - now rewrite String.eqb_refl.
  - destruct (String.eqb k k') eqn:E; simpl.
    + now rewrite String.eqb_refl.
    + now rewrite E.
Qed.

Lemma assoc_del_entry {A} (k : string) (l : list (string * A)) :
  assoc k (del_entry k l) = None.
Proof.
  induction l as [|[k' v'] l IH]; simpl; auto.
  destruct (String.eqb k k') eqn:E; simpl; auto.
  now rewrite E.
Qed.

Lemma alter_rmtree_dir (name : string) (p : list string) :
  p <> [] ->
  forall n es,
    lookup n p = Some (Dir es) ->
    exists n', alter name (rmtree_at name) n p = Ok n' /\ lookup n' p = None.
Proof.
  induction p as [|c p IH]; intros Hp n es Hl; [congruence|].
  destruct n as [d|es0]; simpl in Hl; [discriminate|].
  destruct (assoc c es0) as [m|] eqn:Ea; [|discriminate].
  destruct p as [|c' p'].
  - simpl in Hl. injection Hl as ->.
    simpl. rewrite Ea. simpl. eexists; split; [reflexivity|].
    simpl. now rewrite assoc_del_entry.
  - destruct (IH ltac:(discriminate) m es Hl) as (m' & Ha & Hn).
    exists (Dir (set_entry c m' es0)). split.
    + change (alter name (rmtree_at name) (Dir es0) (c :: c' :: p'))
        with (match assoc c es0 with
              | None => Err (FileNotFoundError name)
              | Some m0 =>
                  match alter name (rmtree_at name) m0 (c' :: p') with
                  | Ok m1 => Ok (Dir (set_entry c m1 es0))
                  | Err e => Err e
                  end
              end).
      now rewrite Ea, Ha.
    + change (lookup (Dir (set_entry c m' es0)) (c :: c' :: p'))
        with (match assoc c (set_entry c m' es0) with
              | Some m0 => lookup m0 (c' :: p')
              | None => None
              end).
      now rewrite assoc_set_entry.
Qed.

Lemma alter_rmtree_file (name : string) (p : list string) :
  p <> [] ->
  forall n d,
    lookup n p = Some (File d) ->
    alter name (rmtree_at name) n p = Err (NotADirectoryError name).
Proof.
  induction p as [|c p IH]; intros Hp n d Hl; [congruence|].
  destruct n as [d0|es0]; simpl in Hl; [discriminate|].
  destruct (assoc c es0) as [m|] eqn:Ea; [|discriminate].
  destruct p as [|c' p'].
  - simpl in Hl. injection Hl as ->. simpl. now rewrite Ea.
  - change (alter name (rmtree_at name) (Dir es0) (c :: c' :: p'))
      with (match assoc c es0 with
            | None => Err (FileNotFoundError name)
            | Some m0 =>
                match alter name (rmtree_at name) m0 (c' :: p') with
                | Ok m1 => Ok (Dir (set_entry c m1 es0))
                | Err e => Err e
                end
            end).
    rewrite Ea, (IH ltac:(discriminate) m d Hl). reflexivity.
Qed.

Lemma scratch_path_components (p : string) :
  scratch_path_ok p = true -> split_path p <> [] /\ p <> "".
Proof.
  unfold scratch_path_ok. intros H.
  apply andb_true_iff in H as [_ H].
  split.
  - destruct (split_path p); [discriminate|discriminate].
  - intros ->. discriminate.
Qed.

(** What [shutil.rmtree] does to a path that exists. *)
Lemma shutil_rmtree_spec (root : node) (p : string) :
  scratch_path_ok p = true ->
  os_path_exists root p = true ->
  (exists root', shutil_rmtree root p = Ok root'
                 /\ os_path_exists root' p = false)
  \/ (shutil_rmtree root p = Err (NotADirectoryError p)
      /\ os_path_isdir root p = false).
Proof.
  intros Hok Hex.
  destruct (scratch_path_components p Hok) as [Hne Hp].
  unfold os_path_exists, os_path_isdir, shutil_rmtree in *.
  apply String.eqb_neq in Hp. rewrite Hp in *. cbn [negb andb] in *.
  destruct (lookup root (split_path p)) as [[d|es]|] eqn:El; [| |discriminate].
  - right. split; [|reflexivity].
    apply (alter_rmtree_file p _ Hne _ _ El).
  - left. destruct (alter_rmtree_dir p _ Hne _ _ El) as (n' & Ha & Hn).
    exists n'. split; [exact Ha|]. now rewrite Hn.
Qed.

Lemma isdir_exists (root : node) (p : string) :
  os_path_isdir root p = true -> os_path_exists root p = true.
Proof.
  unfold os_path_isdir, os_path_exists.
  destruct (negb (String.eqb p "")); cbn [andb]; [|discriminate].
  destruct (lookup root (split_path p)) as [[|]|]; auto; discriminate.
Qed.

(** *** Making directories *)

Lemma prefixes_components (pieces : list string) :
  forall before, map fst (prefixes before pieces) = pieces.
Proof.
  induction pieces as [|c pieces IH]; intros before; simpl; auto.
  now rewrite IH.
Qed.

Lemma name_last_components (p : string) (l : list (string * string)) :
  map fst (name_last p l) = map fst l.
Proof.
  induction l as [|[c here] l IH]; auto.
  destruct l as [|x l]; [reflexivity|].
  change (name_last p ((c, here) :: x :: l))
    with ((c, here) :: name_last p (x :: l)).
  cbn [map fst]. now rewrite IH.
Qed.

Lemma filter_components (f : string -> bool) (l : list (string * string)) :
  map fst (filter (fun cp => f (fst cp)) l) = filter f (map fst l).
Proof.
  induction l as [|[c here] l IH]; auto.
  cbn [filter map fst]. destruct (f c); cbn [map fst]; now rewrite IH.
Qed.

(** The levels of a path are its components. *)
Lemma mkdir_levels_components (p : string) :
  map fst (mkdir_levels p) = split_path p.
Proof.
  unfold mkdir_levels, split_path.
  now rewrite name_last_components, filter_components, prefixes_components.
Qed.

Lemma lookup_chain (q : list string) : lookup (chain q) q = Some (Dir []).
Proof.
  induction q as [|c q IH]; simpl; auto. now rewrite String.eqb_refl.
Qed.

Lemma assoc_app_new {A} (c : string) (v : A) (l : list (string * A)) :
  assoc c l = None -> assoc c (l ++ [(c, v)]) = Some v.
Proof.
  induction l as [|[k w] l IH]; simpl.
  - now rewrite String.eqb_refl.
  - destruct (String.eqb c k); [discriminate|auto].
Qed.

(** The directories [os.makedirs] creates: the leaf is there afterwards,
    and empty. *)
Lemma makedirs_at_lookup (name : string) (p : list (string * string)) :
  forall n n',
    makedirs_at name n p = Ok n' -> lookup n' (map fst p) = Some (Dir []).
Proof.
  induction p as [|[c here] p IH]; intros n n' H; [discriminate|].
  destruct n as [d|es]; [discriminate|]. simpl in H.
  destruct (assoc c es) as [m|] eqn:Ea.
  - destruct (makedirs_at name m p) as [m'|e] eqn:Em; [|discriminate].
    injection H as <-. simpl. rewrite assoc_set_entry. eapply IH, Em.
  - injection H as <-. simpl.
    rewrite (assoc_app_new c _ es Ea). apply lookup_chain.
Qed.


Lemma os_makedirs_isdir (root root' : node) (p : string) :
  os_makedirs root p = Ok root' -> os_path_isdir root' p = true.
Proof.
  unfold os_makedirs, os_path_isdir.
  destruct (String.eqb p ""); [discriminate|]. intros H.
  apply makedirs_at_lookup in H. rewrite mkdir_levels_components in H.
  now rewrite H.
Qed.

(** ** Reasoning about computations *)

Section Rules.

Context {X : Type}.

Lemma bind_inv {A B} (m : M X A) (k : A -> M X B) s r s' tr :
  bind m k s = (r, s', tr) ->
  (exists a s1 t1 t2,
      m s = (Return a, s1, t1) /\ k a s1 = (r, s', t2) /\ tr = t1 ++ t2)
  \/ (exists e, m s = (Raise e, s', tr) /\ r = Raise e)
  \/ (m s = (OutOfFuel, s', tr) /\ r = OutOfFuel).
Proof.
  unfold bind. destruct (m s) as [[[a|e|] s1] t1].
  - destruct (k a s1) as [[r2 s2] t2] eqn:Ek. intros [= <- <- <-].
    left. now exists a, s1, t1, t2.
  - intros [= <- <- <-]. right; left. now exists e.
  - intros [= <- <- <-]. right; right. now split.
Qed.

Lemma try_finally_inv {A} (m : M X A) (f : M X unit) s r s' tr :
  try_finally m f s = (r, s', tr) ->
  (m s = (OutOfFuel, s', tr) /\ r = OutOfFuel)
  \/ exists r1 s1 t1 r2 t2,
       m s = (r1, s1, t1) /\ r1 <> OutOfFuel /\ f s1 = (r2, s', t2)
       /\ tr = t1 ++ t2
       /\ match r2 with
          | Return _ => r = r1
          | Raise e => r = Raise e
          | OutOfFuel => r = OutOfFuel
          end.
Proof.
  unfold try_finally. destruct (m s) as [[[a|e|] s1] t1].
  - destruct (f s1) as [[[u|e2|] s2] t2] eqn:Ef; intros [= <- <- <-]; right;
      eexists _, s1, t1, _, t2; rewrite Ef;
      (split; [reflexivity|split; [discriminate|auto]]).
  - destruct (f s1) as [[[u|e2|] s2] t2] eqn:Ef; intros [= <- <- <-]; right;
      eexists _, s1, t1, _, t2; rewrite Ef;
      (split; [reflexivity|split; [discriminate|auto]]).
  - intros [= <- <- <-]. now left.
Qed.

(** *** Events *)

Lemma emits_ret {A} P (a : A) : emits (X:=X) P (ret a).
Proof. intros s. constructor. Qed.

Lemma emits_raise {A} P e : emits (X:=X) (A:=A) P (raise e).
Proof. intros s. constructor. Qed.

Lemma emits_out_of_fuel {A} P : emits (X:=X) (A:=A) P out_of_fuel.
Proof. intros s. constructor. Qed.

Lemma emits_tell (P : event -> Prop) ev : P ev -> emits (X:=X) P (tell ev).
Proof. intros H s. simpl. auto. Qed.

Lemma emits_gets {A} P (f : State X -> A) : emits P (gets f).
Proof. intros s. constructor. Qed.

Lemma emits_lift_call {A} P (c : call A) : emits (X:=X) P (lift_call c).
Proof. intros s. unfold lift_call. destruct c; constructor. Qed.

Lemma emits_fs_op P f : emits (X:=X) P (fs_op f).
Proof. intros s. unfold fs_op. destruct (f (fs s)); constructor. Qed.

Lemma emits_ext_op {A} P (f : X -> call A * X) : emits P (ext_op f).
Proof.
  intros s. unfold ext_op. destruct (f (ext s)) as [[|] ?]; constructor.
Qed.

Lemma emits_bind {A B} P (m : M X A) (k : A -> M X B) :
  emits P m -> (forall a, emits P (k a)) -> emits P (bind m k).
Proof.
  intros Hm Hk s. unfold bind. specialize (Hm s).
  destruct (m s) as [[[a|e|] s1] t1]; simpl in *; auto.
  specialize (Hk a s1). destruct (k a s1) as [[r2 s2] t2]. simpl in *.
  apply Forall_app. auto.
Qed.

Lemma emits_try_except {A} P (m : M X A) catches h :
  emits P m -> (forall e, emits P (h e)) -> emits P (try_except m catches h).
Proof.
  intros Hm Hh s. unfold try_except. specialize (Hm s).
  destruct (m s) as [[[a|e|] s1] t1]; simpl in *; auto.
  destruct (catches e); simpl; auto.
  specialize (Hh e s1). destruct (h e s1) as [[r2 s2] t2]. simpl in *.
  apply Forall_app. auto.
Qed.

Lemma emits_try_finally {A} P (m : M X A) f :
  emits P m -> emits P f -> emits P (try_finally m f).
Proof.
  intros Hm Hf s. unfold try_finally. specialize (Hm s).
  destruct (m s) as [[[a|e|] s1] t1]; simpl in *; auto;
    specialize (Hf s1); destruct (f s1) as [[[u|e2|] s2] t2]; simpl in *;
    apply Forall_app; auto.
Qed.

Lemma emits_for_each {A} P (l : list A) (f : A -> M X unit) :
  (forall a, emits P (f a)) -> emits P (for_each l f).
Proof.
  intros Hf. induction l as [|a l IH]; simpl.
  - apply emits_ret.
  - apply emits_bind; auto.
Qed.

Lemma emits_fold_m {A B} P (f : B -> A -> M X B) (l : list A) :
  (forall b a, emits P (f b a)) -> forall b, emits P (fold_m f l b).
Proof.
  intros Hf. induction l as [|a l IH]; intros b; simpl.
  - apply emits_ret.
  - apply emits_bind; auto.
Qed.

Lemma emits_if {A} P (b : bool) (m1 m2 : M X A) :
  emits P m1 -> emits P m2 -> emits P (if b then m1 else m2).
Proof. destruct b; auto. Qed.

Lemma emits_bind_ret {A B} P (a : A) (k : A -> M X B) :
  emits P (k a) -> emits P (bind (ret a) k).
Proof.
  intros Hk s. unfold bind, ret. specialize (Hk s).
  destruct (k a s) as [[r2 s2] t2]. exact Hk.
Qed.

Lemma emits_bind_raise {A B} P e (k : A -> M X B) :
  emits P (bind (raise e) k).
Proof. intros s. constructor. Qed.

(** *** Runs that cannot return *)

Lemma fails_raise {A} e : fails (X:=X) (A:=A) (raise e).
Proof. intros s. reflexivity. Qed.

Lemma fails_bind_l {A B} (m : M X A) (k : A -> M X B) :
  fails m -> fails (bind m k).
Proof.
  intros Hm s. specialize (Hm s). unfold bind, res in *.
  destruct (m s) as [[[a|e|] s1] t1]; simpl in *; auto; discriminate.
Qed.

Lemma fails_bind_r {A B} (m : M X A) (k : A -> M X B) :
  (forall a, fails (k a)) -> fails (bind m k).
Proof.
  intros Hk s. unfold bind, res in *.
  destruct (m s) as [[[a|e|] s1] t1]; simpl in *; auto.
  specialize (Hk a s1). unfold res in Hk.
  destruct (k a s1) as [[r2 s2] t2]. exact Hk.
Qed.

Lemma fails_bind_ret {A B} (a : A) (k : A -> M X B) :
  fails (k a) -> fails (bind (ret a) k).
Proof.
  intros Hk s. specialize (Hk s). unfold bind, ret, res in *.
  destruct (k a s) as [[r2 s2] t2]. exact Hk.
Qed.

Lemma fails_try_except {A} (m : M X A) catches h :
  fails m -> (forall e, fails (h e)) -> fails (try_except m catches h).
Proof.
  intros Hm Hh s. specialize (Hm s). unfold try_except, res in *.
  destruct (m s) as [[[a|e|] s1] t1]; simpl in *; auto.
  destruct (catches e); simpl; auto.
  specialize (Hh e s1). unfold res in Hh.
  destruct (h e s1) as [[r2 s2] t2]. exact Hh.
Qed.

Lemma fails_try_finally {A} (m : M X A) f :
  fails m -> fails (try_finally m f).
Proof.
  intros Hm s. specialize (Hm s). unfold try_finally, res in *.
  destruct (m s) as [[[a|e|] s1] t1]; simpl in *; auto; try discriminate;
    destruct (f s1) as [[[u|e2|] s2] t2]; reflexivity.
Qed.

(** A run that neither returns nor runs out of fuel raises. *)
Lemma fails_total_raises {A} (m : M X A) s :
  fails m -> total m -> exists e, res (m s) = Raise e.
Proof.
  intros Hf Ht. specialize (Hf s). specialize (Ht s). unfold res in *.
  destruct (fst (fst (m s))) as [a|e|]; [discriminate|now exists e|congruence].
Qed.

(** *** Fuel *)

Lemma total_ret {A} (a : A) : total (X:=X) (ret a).
Proof. intros s. discriminate. Qed.

Lemma total_raise {A} e : total (X:=X) (A:=A) (raise e).
Proof. intros s. discriminate. Qed.

Lemma total_tell ev : total (X:=X) (tell ev).
Proof. intros s. discriminate. Qed.

Lemma total_gets {A} (f : State X -> A) : total (gets f).
Proof. intros s. discriminate. Qed.

Lemma total_lift_call {A} (c : call A) : total (X:=X) (lift_call c).
Proof. intros s. unfold lift_call. destruct c; discriminate. Qed.

Lemma total_fs_op f : total (X:=X) (fs_op f).
Proof. intros s. unfold fs_op. destruct (f (fs s)); discriminate. Qed.

Lemma total_ext_op {A} (f : X -> call A * X) : total (ext_op f).
Proof.
  intros s. unfold ext_op. destruct (f (ext s)) as [[|] ?]; discriminate.
Qed.

Lemma total_bind {A B} (m : M X A) (k : A -> M X B) :
  total m -> (forall a, total (k a)) -> total (bind m k).
Proof.
  intros Hm Hk s. unfold bind. specialize (Hm s).
  destruct (m s) as [[[a|e|] s1] t1]; simpl in *; try discriminate; auto.
  specialize (Hk a s1). destruct (k a s1) as [[r2 s2] t2]. auto.
Qed.

Lemma total_try_except {A} (m : M X A) catches h :
  total m -> (forall e, total (h e)) -> total (try_except m catches h).
Proof.
  intros Hm Hh s. unfold try_except. specialize (Hm s).
  destruct (m s) as [[[a|e|] s1] t1]; simpl in *; try discriminate; auto.
  destruct (catches e); simpl; try discriminate.
  specialize (Hh e s1). destruct (h e s1) as [[r2 s2] t2]. auto.
Qed.

Lemma total_try_finally {A} (m : M X A) f :
  total m -> total f -> total (try_finally m f).
Proof.
  intros Hm Hf s. unfold try_finally. specialize (Hm s).
  destruct (m s) as [[[a|e|] s1] t1]; simpl in *; auto;
    specialize (Hf s1); destruct (f s1) as [[[u|e2|] s2] t2]; simpl in *;
    try discriminate; auto.
Qed.

Lemma total_if {A} (b : bool) (m1 m2 : M X A) :
  total m1 -> total m2 -> total (if b then m1 else m2).
Proof. destruct b; auto. Qed.

Lemma total_fold_m {A B} (f : B -> A -> M X B) (l : list A) :
  (forall b a, total (f b a)) -> forall b, total (fold_m f l b).
Proof.
  intros Hf. induction l as [|a l IH]; intros b; simpl.
  - apply total_ret.
  - apply total_bind; auto.
Qed.

End Rules.

(** The calls to the collaborators. *)
Section Calls.

Context {X : Type}.
Variable env : Env X.

Lemma emits_fresh_ObjectId P : emits P (fresh_ObjectId env).
Proof.
  intros s. unfold fresh_ObjectId. destruct (new_ObjectId env (ext s)).
  constructor.
Qed.

Lemma emits_embed (P : event -> Prop) docs p i :
  P (EvEmbed docs p i) -> emits P (embed env docs p i).
Proof.
  intros H. unfold embed. apply emits_bind; [now apply emits_tell|intros _].
  intros s. destruct (embed_and_store_documents env docs p i (fs s) (ext s))
    as [[[|] ?] ?]; constructor.
Qed.

Lemma emits_chunk (P : event -> Prop) policy docs :
  P (EvChunk policy docs) -> emits P (chunk env policy docs).
Proof.
  intros H. unfold chunk. apply emits_bind; [now apply emits_tell|intros _].
  apply emits_ext_op.
Qed.

Lemma emits_load_data (P : event -> Prop) args :
  P (EvLoadData args) -> emits P (load_data env args).
Proof.
  intros H. unfold load_data.
  apply emits_bind; [now apply emits_tell|intros _].
  apply emits_bind; [apply emits_gets|intros root]. apply emits_ext_op.
Qed.

Lemma total_embed docs p i : total (embed env docs p i).
Proof.
  unfold embed. apply total_bind; [apply total_tell|intros _].
  intros s. destruct (embed_and_store_documents env docs p i (fs s) (ext s))
    as [[[|] ?] ?]; discriminate.
Qed.

Lemma total_fresh_ObjectId : total (fresh_ObjectId env).
Proof.
  intros s. unfold fresh_ObjectId. destruct (new_ObjectId env (ext s)).
  discriminate.
Qed.

Lemma total_chunk policy docs : total (chunk env policy docs).
Proof.
  unfold chunk. apply total_bind; [apply total_tell|intros _].
  apply total_ext_op.
Qed.

Lemma total_load_data args : total (load_data env args).
Proof.
  unfold load_data. apply total_bind; [apply total_tell|intros _].
  apply total_bind; [apply total_gets|intros root]. apply total_ext_op.
Qed.

Lemma emits_update_state (P : event -> Prop) st n :
  P (EvUpdateState st n) -> emits P (update_state env st n).
Proof.
  intros H. unfold update_state.
  apply emits_bind; [now apply emits_tell|intros _]. apply emits_ext_op.
Qed.

Lemma total_update_state st n : total (update_state env st n).
Proof.
  unfold update_state. apply total_bind; [apply total_tell|intros _].
  apply total_ext_op.
Qed.

(** A progress report whose call returns. *)
Lemma update_state_run st n (s : State X) c x :
  task_update_state env st n (ext s) = (c, x) ->
  update_state env st n s
  = (match c with Ok u => Return u | Err e => Raise e end,
     mkState (fs s) x, [EvUpdateState st n]).
Proof.
  intros H. unfold update_state, bind, tell, ext_op. rewrite H.
  now destruct c.
Qed.

Lemma update_state_inv st n (s : State X) r s' t :
  update_state env st n s = (r, s', t) ->
  t = [EvUpdateState st n] /\ fs s' = fs s
  /\ exists c,
       task_update_state env st n (ext s) = (c, ext s')
       /\ r = match c with Ok u => Return u | Err e => Raise e end.
Proof.
  destruct (task_update_state env st n (ext s)) as [c x] eqn:E.
  rewrite (update_state_run _ _ _ _ _ E). intros [= <- <- <-].
  repeat split. now exists c.
Qed.

(** Reading a file does not fail with a transport error. *)
Lemma read_file_error_kind (root : node) (p : string) e :
  read_file root p = Err e -> is_request_exception e = false.
Proof.
  unfold read_file. destruct (String.eqb p ""); [now intros [= <-]|].
  destruct (lookup root (split_path p)) as [[d|es]|];
    [destruct (names_directory p)| |]; intros [= <-]; reflexivity.
Qed.

Lemma append_not_empty (a b : string) (c : ascii) :
  String.eqb (a ++ String c b)%string "" = false.
Proof. destruct a; reflexivity. Qed.

Lemma raise_for_status_run (r : Response) (s : State X) :
  raise_for_status r s
  = if is_error_status r
    then (Raise (HTTPError (http_error_msg r)), s, [])
    else (Return tt, s, []).
Proof.
  unfold raise_for_status, is_error_status, http_error_msg.
  destruct (400 <=? status_code r)%Z eqn:E4;
    destruct (status_code r <? 500)%Z eqn:E5;
    destruct (500 <=? status_code r)%Z eqn:E6;
    destruct (status_code r <? 600)%Z eqn:E7;
    cbn [andb negb String.append]; rewrite ?append_not_empty;
    try reflexivity;
    rewrite ?Z.leb_le, ?Z.leb_gt, ?Z.ltb_lt, ?Z.ltb_ge in *; lia.
Qed.

Lemma for_each_skip {A} (l : list A) (s : State X) :
  for_each l (fun _ s0 => (Return tt, s0, [])) s = (Return tt, s, []).
Proof.
  induction l as [|a l IH]; [reflexivity|].
  cbn [for_each]. unfold bind. now rewrite IH.
Qed.

(** [upload_index] once the opens are decided: with the file-backed
    store and an index file that cannot be opened, the error of [open]
    passes the [except] clause, the [finally] block reads the unbound
    [files] and its [UnboundLocalError] is what the call raises;
    otherwise the call is the request with the files that were opened
    (none with another store). *)
Lemma upload_index_run p d (s : State X) :
  upload_index env p d s
  = if String.eqb (VECTOR_STORE env) "faiss" then
      match read_file (fs s) (p ++ "/index.faiss") with
      | Ok f1 =>
          match read_file (fs s) (p ++ "/index.pkl") with
          | Ok f2 =>
              post_index env [("file_faiss", f1); ("file_pkl", f2)] d s
          | Err _ => (Raise (UnboundLocalError "files"), s, [])
          end
      | Err _ => (Raise (UnboundLocalError "files"), s, [])
      end
    else post_index env [] d s.
Proof.
  destruct s as [root x].
  unfold upload_index, post_index, with_local, try_finally, try_except,
    outer, open_rb, post, assign, local, logging_error, bind, gets,
    lift_call, ext_op, tell, raise, ret.
  cbv beta iota zeta; cbn [fs ext fst snd].
  destruct (String.eqb (VECTOR_STORE env) "faiss");
    cbv beta iota zeta; cbn [fs ext fst snd].
  - destruct (read_file root (p ++ "/index.faiss")) as [f1|e1] eqn:E1;
      cbv beta iota zeta; cbn [fs ext fst snd].
    + destruct (read_file root (p ++ "/index.pkl")) as [f2|e2] eqn:E2;
        cbv beta iota zeta; cbn [fs ext fst snd].
      * destruct (requests_post env _ _ d x) as [[resp|e] x1];
          cbv beta iota zeta; cbn [fs ext fst snd].
        -- rewrite !raise_for_status_run.
           destruct (is_error_status resp);
             cbv beta iota zeta;
             cbn [fs ext fst snd is_request_exception app];
             rewrite ?for_each_skip; reflexivity.
        -- destruct (is_request_exception e);
             cbv beta iota zeta; cbn [fs ext fst snd app];
             rewrite ?for_each_skip; reflexivity.
      * now rewrite (read_file_error_kind _ _ _ E2).
    + now rewrite (read_file_error_kind _ _ _ E1).
  - destruct (requests_post env _ _ d x) as [[resp|e] x1];
      cbv beta iota zeta; cbn [fs ext fst snd].
    + rewrite !raise_for_status_run.
      destruct (is_error_status resp); reflexivity.
    + destruct (is_request_exception e); reflexivity.
Qed.

End Calls.

Create HintDb emits.
Create HintDb total.

(** Split a computation along its structure, leaving the events to
    check; the lemmas already proved about the parts are tried first. *)
Ltac emits_steps :=
  repeat first
    [ solve [auto 2 with emits nocore]
    | apply emits_ret | apply emits_raise | apply emits_out_of_fuel
    | apply emits_gets | apply emits_lift_call | apply emits_fs_op
    | apply emits_ext_op
    | apply emits_fresh_ObjectId
    | apply emits_embed
    | apply emits_chunk
    | apply emits_load_data
    | apply emits_update_state
    | apply emits_bind_raise
    | apply emits_bind_ret; cbv iota
    | apply emits_bind; [|intro]
    | apply emits_try_except; [|intro]
    | apply emits_try_finally
    | apply emits_for_each; intro
    | apply emits_tell
    | match goal with
      | |- emits _ (match ?x with _ => _ end) => destruct x
      end ].

Ltac total_steps :=
  repeat first
    [ solve [auto 2 with total nocore]
    | apply total_ret | apply total_raise | apply total_tell
    | apply total_gets | apply total_lift_call | apply total_fs_op
    | apply total_ext_op
    | apply total_embed
    | apply total_fresh_ObjectId
    | apply total_chunk
    | apply total_load_data
    | apply total_update_state
    | apply total_bind; [|intro]
    | apply total_try_except; [|intro]
    | apply total_try_finally
    | match goal with
      | |- total (match ?x with _ => _ end) => destruct x
      end ].

(** ** The remote flow *)

Section RemoteFacts.

Context {X : Type}.
Variable env : Env X.

Lemma total_post_index files d : total (post_index env files d).
Proof.
  unfold post_index, post, raise_for_status, logging_error.
  total_steps.
Qed.

Lemma total_upload_index p d : total (upload_index env p d).
Proof.
  intros s. rewrite upload_index_run.
  destruct (String.eqb (VECTOR_STORE env) "faiss");
    [|apply total_post_index].
  destruct (read_file (fs s) (p ++ "/index.faiss")); [|discriminate].
  destruct (read_file (fs s) (p ++ "/index.pkl")); [|discriminate].
  apply total_post_index.
Qed.

#[local] Hint Resolve total_upload_index : total.

Lemma total_remote_body j p : total (remote_body env j p).
Proof.
  unfold remote_body, logging_info, logging_error.
  total_steps.
Qed.

Lemma total_remote_cleanup p : total (remote_cleanup (X:=X) p).
Proof. unfold remote_cleanup. total_steps. Qed.

Lemma total_ensure_dir p : total (ensure_dir (X:=X) p).
Proof. unfold ensure_dir. total_steps. Qed.

Lemma total_remote_guarded j p : total (remote_guarded env j p).
Proof.
  unfold remote_guarded, logging_error.
  apply total_try_except; [apply total_remote_body|intro; total_steps].
Qed.

#[local] Hint Resolve total_remote_guarded total_remote_cleanup
  total_ensure_dir : total.

Lemma total_remote_worker j : total (remote_worker env j).
Proof.
  unfold remote_worker, logging_info, logging_error.
  total_steps.
Qed.

(** The set-up step leaves the tree alone when it fails, and never
    removes anything. *)
Lemma ensure_dir_inv p (s : State X) r s' tr :
  ensure_dir p s = (r, s', tr) ->
  tr = [] /\ ext s' = ext s
  /\ match r with
     | Return _ => os_path_exists (fs s') p = true
     | Raise _ => s' = s /\ os_path_exists (fs s) p = false
     | OutOfFuel => False
     end.
Proof.
  unfold ensure_dir, bind, gets, fs_op, ret.
  destruct (os_path_exists (fs s) p) eqn:Ex; simpl.
  - intros [= <- <- <-]. auto.
  - destruct (os_makedirs (fs s) p) eqn:Em; intros [= <- <- <-]; auto.
    repeat split. cbn [fs]. apply isdir_exists. eapply os_makedirs_isdir, Em.
Qed.

(** The clean-up step. *)
Lemma remote_cleanup_inv p (s : State X) r s' tr :
  scratch_path_ok p = true ->
  remote_cleanup p s = (r, s', tr) ->
  tr = [] /\ ext s' = ext s
  /\ os_path_isdir (fs s') p = false
  /\ ((r = Return tt /\ os_path_exists (fs s') p = false)
      \/ (r = Raise (NotADirectoryError p) /\ s' = s)).
Proof.
  intros Hok. unfold remote_cleanup, bind, gets, fs_op, ret.
  destruct (os_path_exists (fs s) p) eqn:Ex; simpl.
  - destruct (shutil_rmtree_spec (fs s) p Hok Ex)
      as [(root' & -> & Hgone)|[-> Hfile]]; intros [= <- <- <-]; simpl.
    + repeat split; auto.
      destruct (os_path_isdir root' p) eqn:Ed; auto.
      apply isdir_exists in Ed. congruence.
    + repeat split; auto.
  - intros [= <- <- <-]. repeat split; auto.
    destruct (os_path_isdir (fs s) p) eqn:Ed; auto.
    apply isdir_exists in Ed. congruence.
Qed.

End RemoteFacts.

(** Take a run of [bind] apart. *)
Ltac inv_bind H :=
  let a := fresh "a" in
  let s1 := fresh "s" in
  let t1 := fresh "t" in
  let t2 := fresh "t" in
  let e := fresh "e" in
  let H1 := fresh "Hm" in
  let H2 := fresh "Hk" in
  apply bind_inv in H as
    [(a & s1 & t1 & t2 & H1 & H2 & ->)|[(e & H1 & ->)|[H1 ->]]].

(** Unfold the body of the remote flow down to the calls to the
    collaborators. *)
Ltac open_body :=
  unfold remote_body, chunk, logging_info, logging_error, update_state,
    bind, ext_op, lift_call, tell, raise, ret.

(** Run the computation in the goal up to the next call, whose outcome
    [H] gives. *)
Ltac forward H :=
  cbv beta iota zeta; cbn [fs ext]; rewrite H.

Section RemoteCleanup.

Context {X : Type}.
Variable env : Env X.

(** A job whose first progress report returned has entered the [try]
    block, and the [finally] block has run. *)
Lemma remote_worker_cleanup_facts (j : RemoteJob) (s : State X) r s' tr :
  scratch_path_ok (job_path j) = true ->
  remote_worker env j s = (r, s', tr) ->
  r <> OutOfFuel
  /\ (fst (task_update_state env "PROGRESS" 1 (ext s)) = Ok tt ->
      os_path_isdir (fs s') (job_path j) = false
      /\ (os_path_exists (fs s') (job_path j) = false
          \/ r = Raise (NotADirectoryError (job_path j)))).
Proof.
  intros Hok Hrun.
  split.
  { pose proof (total_remote_worker env j s) as Ht. now rewrite Hrun in Ht. }
  intros Hreport.
  unfold remote_worker in Hrun.
  inv_bind Hrun; try discriminate.
  injection Hm as <- <- <-.
  inv_bind Hk.
  - (* set-up done *)
    apply ensure_dir_inv in Hm as (-> & Hx & _).
    rewrite <- Hx in Hreport.
    inv_bind Hk0;
      apply update_state_inv in Hm as (-> & _ & c & Hc & Hr);
      rewrite Hc in Hreport; cbn [fst] in Hreport; subst c; try discriminate.
    clear Hr.
    inv_bind Hk.
    + (* the protected block returned *)
      apply try_finally_inv in Hm
        as [[_ ?]|(r1 & s3 & t3 & r2 & t4 & Hb & _ & Hcl & -> & Hr)];
        [discriminate|].
      apply (remote_cleanup_inv _ _ _ _ _ Hok) in Hcl as (-> & _ & Hd & Hcl).
      inv_bind Hk0; try discriminate.
      injection Hm as <- <- <-. injection Hk as <- <- <-.
      destruct Hcl as [[-> He]|[-> ->]]; [auto|discriminate].
    + apply try_finally_inv in Hm
        as [[_ ?]|(r1 & s3 & t3 & r2 & t4 & Hb & _ & Hcl & -> & Hr)];
        [discriminate|].
      apply (remote_cleanup_inv _ _ _ _ _ Hok) in Hcl as (-> & _ & Hd & Hcl).
      split; [exact Hd|].
      destruct Hcl as [[-> He]|[-> ->]]; [auto|right; congruence].
    + apply try_finally_inv in Hm
        as [[Hb _]|(r1 & s3 & t3 & r2 & t4 & Hb & _ & Hcl & -> & Hr)].
      * pose proof (total_remote_guarded env j (job_path j) s1) as Ht.
        now rewrite Hb in Ht.
      * apply (remote_cleanup_inv _ _ _ _ _ Hok) in Hcl as (-> & _ & Hd & Hcl).
        split; [exact Hd|].
        destruct Hcl as [[-> He]|[-> ->]]; [auto|discriminate].
  - (* the set-up raised *)
    apply ensure_dir_inv in Hm as (_ & _ & -> & Hne).
    split; [|auto].
    destruct (os_path_isdir (fs s) (job_path j)) eqn:Ed; auto.
    apply isdir_exists in Ed. congruence.
  - apply ensure_dir_inv in Hm as (_ & _ & []).
Qed.

(** A job whose first progress report raises stops there: the exception
    of the report is raised, the [try] block is not entered, and the tree
    stays as the set-up step left it, with the working path in place. *)
Lemma remote_worker_report_failure (j : RemoteJob) (s s1 : State X) e x :
  ensure_dir (job_path j) s = (Return tt, s1, []) ->
  task_update_state env "PROGRESS" 1 (ext s1) = (Err e, x) ->
  remote_worker env j s
  = (Raise e, mkState (fs s1) x,
     [EvRemoteWorker j; EvUpdateState "PROGRESS" 1])
  /\ os_path_exists (fs s1) (job_path j) = true.
Proof.
  intros Hens Hrep. split.
  - unfold remote_worker, update_state, bind, ext_op, tell.
    forward Hens. forward Hrep. reflexivity.
  - now apply ensure_dir_inv in Hens as (_ & _ & Hex).
Qed.

End RemoteCleanup.

Lemma embed_calls_app (t1 t2 : list event) :
  embed_calls (t1 ++ t2) = embed_calls t1 ++ embed_calls t2.
Proof.
  induction t1 as [|ev t1 IH]; simpl; auto.
  destruct ev; simpl; auto. now rewrite IH.
Qed.

Lemma no_embed_calls (tr : list event) :
  Forall (fun ev => is_embed ev = false) tr -> embed_calls tr = [].
Proof.
  induction 1 as [|ev tr Hev _ IH]; simpl; auto.
  destruct ev; auto. discriminate.
Qed.

Lemma no_post_calls (tr : list event) :
  Forall (fun ev => is_post ev = false) tr -> post_calls tr = [].
Proof.
  induction 1 as [|ev tr Hev _ IH]; simpl; auto.
  destruct ev; auto. discriminate.
Qed.

Section RemoteRuns.

Context {X : Type}.
Variable env : Env X.

(** *** Sync mode with an identifier that is missing or malformed *)

Lemma remote_body_invalid_sync j p (s1 : State X) x1 raw x2 chunks x3 n :
  operation_mode j = "sync" ->
  invalid_doc_id env (doc_id j) = true ->
  create_loader env (loader j) (ext s1) = (Ok tt, x1) ->
  loader_load_data env (loader j) (source_data j) x1 = (Ok raw, x2) ->
  chunker_chunk env chunk_policy raw x2 = (Ok chunks, x3) ->
  count_tokens_docs env (map (to_langchain_format env) raw) = Ok n ->
  remote_body env j p s1
  = (Raise (ValueError "doc_id must be provided for sync operation."),
     mkState (fs s1) x3,
     [EvLog "INFO" ("Initializing remote loader with type: " ++ loader j);
      EvCreateLoader (loader j);
      EvRemoteLoad (loader j) (source_data j);
      EvChunk chunk_policy raw;
      EvLog "INFO" ("Total tokens calculated: " ++ str_Z n);
      EvLog "ERROR"
        ("Invalid doc_id provided for sync operation: "
         ++ match doc_id j with Some d => d | None => "None" end)]).
Proof.
  intros Hmode Hbad H1 H2 H3 H4.
  open_body. rewrite Hmode, Hbad.
  change (String.eqb "sync" "upload") with false.
  change (String.eqb "sync" "sync") with true.
  forward H1. forward H2. forward H3. forward H4.
  reflexivity.
Qed.

Lemma fails_remote_body_invalid_sync j p :
  operation_mode j = "sync" ->
  invalid_doc_id env (doc_id j) = true ->
  fails (remote_body env j p).
Proof.
  intros Hmode Hbad. unfold remote_body. rewrite Hmode, Hbad.
  change (String.eqb "sync" "upload") with false.
  change (String.eqb "sync" "sync") with true. cbv iota.
  do 8 (apply fails_bind_r; intro).
  apply fails_bind_l, fails_bind_r. intro. apply fails_raise.
Qed.

Lemma emits_post_index P files d :
  (forall l m, P (EvLog l m)) -> (forall u f pl, P (EvPost u f pl)) ->
  emits P (post_index env files d).
Proof.
  intros Hlog Hpost.
  unfold post_index, post, raise_for_status, logging_error.
  emits_steps; auto.
Qed.

Lemma emits_upload_index P p d :
  (forall l m, P (EvLog l m)) -> (forall u f pl, P (EvPost u f pl)) ->
  emits P (upload_index env p d).
Proof.
  intros Hlog Hpost s. rewrite upload_index_run.
  destruct (String.eqb (VECTOR_STORE env) "faiss");
    [|now apply emits_post_index].
  destruct (read_file (fs s) (p ++ "/index.faiss")); [|constructor].
  destruct (read_file (fs s) (p ++ "/index.pkl")); [|constructor].
  now apply emits_post_index.
Qed.

Lemma quiet_embed_remote_body_invalid_sync j p :
  operation_mode j = "sync" ->
  invalid_doc_id env (doc_id j) = true ->
  emits (fun ev => is_embed ev = false) (remote_body env j p).
Proof.
  intros Hmode Hbad. unfold remote_body. rewrite Hmode, Hbad.
  change (String.eqb "sync" "upload") with false.
  change (String.eqb "sync" "sync") with true. cbv iota.
  unfold logging_info, logging_error.
  pose proof (fun d => emits_upload_index (fun ev => is_embed ev = false) p d
                         (fun _ _ => eq_refl) (fun _ _ _ => eq_refl)) as Hup.
  emits_steps; auto.
Qed.

(** *** A mode that is neither upload nor sync *)

Lemma remote_body_unbound_id j p (s1 : State X) x1 raw x2 chunks x3 n x4 :
  operation_mode j <> "upload" ->
  operation_mode j <> "sync" ->
  create_loader env (loader j) (ext s1) = (Ok tt, x1) ->
  loader_load_data env (loader j) (source_data j) x1 = (Ok raw, x2) ->
  chunker_chunk env chunk_policy raw x2 = (Ok chunks, x3) ->
  count_tokens_docs env (map (to_langchain_format env) raw) = Ok n ->
  task_update_state env "PROGRESS" 100 x3 = (Ok tt, x4) ->
  remote_body env j p s1
  = (Raise (UnboundLocalError "id"),
     mkState (fs s1) x4,
     [EvLog "INFO" ("Initializing remote loader with type: " ++ loader j);
      EvCreateLoader (loader j);
      EvRemoteLoad (loader j) (source_data j);
      EvChunk chunk_policy raw;
      EvLog "INFO" ("Total tokens calculated: " ++ str_Z n);
      EvUpdateState "PROGRESS" 100]).
Proof.
  intros Hup Hsync H1 H2 H3 H4 H5.
  apply String.eqb_neq in Hup, Hsync.
  open_body. rewrite Hup, Hsync.
  forward H1. forward H2. forward H3. forward H4. forward H5.
  reflexivity.
Qed.

Lemma fails_remote_body_unbound_id j p :
  operation_mode j <> "upload" ->
  operation_mode j <> "sync" ->
  fails (remote_body env j p).
Proof.
  intros Hup Hsync. apply String.eqb_neq in Hup, Hsync.
  unfold remote_body. rewrite Hup, Hsync.
  do 8 (apply fails_bind_r; intro).
  apply fails_bind_ret, fails_bind_r. intro.
  apply fails_bind_l. intros s. reflexivity.
Qed.

Lemma silent_remote_body_unbound_id j p :
  operation_mode j <> "upload" ->
  operation_mode j <> "sync" ->
  emits (fun ev => is_embed ev = false /\ is_post ev = false)
    (remote_body env j p).
Proof.
  intros Hup Hsync. apply String.eqb_neq in Hup, Hsync.
  unfold remote_body. rewrite Hup, Hsync.
  unfold logging_info, logging_error.
  emits_steps; auto.
Qed.

(** *** From the body to the whole job *)

Lemma emits_remote_worker P j :
  (forall l m, P (EvLog l m)) -> (forall st n, P (EvUpdateState st n)) ->
  P (EvRemoteWorker j) ->
  emits P (remote_body env j (job_path j)) ->
  emits P (remote_worker env j).
Proof.
  intros Hlog Hst Hjob Hbody.
  unfold remote_worker, remote_guarded, remote_cleanup, ensure_dir,
    logging_info, logging_error.
  emits_steps; auto.
Qed.

Lemma fails_remote_worker j :
  fails (remote_body env j (job_path j)) -> fails (remote_worker env j).
Proof.
  intros Hbody. unfold remote_worker, remote_guarded.
  do 3 (apply fails_bind_r; intro).
  apply fails_bind_l, fails_try_finally, fails_try_except; auto.
  intro e. apply fails_bind_r. intro. apply fails_raise.
Qed.

(** A job whose body raises [e] over a working directory that is in
    place: the error is logged, the directory removed and [e] raised
    again. *)
Lemma remote_worker_raising_body j (s s1 s2 : State X) x0 body_events e :
  scratch_path_ok (job_path j) = true ->
  ensure_dir (job_path j) s = (Return tt, s1, []) ->
  task_update_state env "PROGRESS" 1 (ext s1) = (Ok tt, x0) ->
  remote_body env j (job_path j) (mkState (fs s1) x0)
  = (Raise e, s2, body_events) ->
  os_path_isdir (fs s2) (job_path j) = true ->
  res (remote_worker env j s) = Raise e
  /\ events (remote_worker env j s)
     = [EvRemoteWorker j; EvUpdateState "PROGRESS" 1] ++ body_events
       ++ [EvLog "ERROR" ("Error in remote_worker task: " ++ str_exn e)]
  /\ os_path_exists (fs (final (remote_worker env j s))) (job_path j) = false
  /\ ext (final (remote_worker env j s)) = ext s2.
Proof.
  intros Hok Hens Hrep Hbody Hdir.
  destruct (shutil_rmtree_spec (fs s2) (job_path j) Hok (isdir_exists _ _ Hdir))
    as [(root' & Hrm & Hgone)|[_ Hno]]; [|congruence].
  unfold remote_worker, remote_guarded, remote_cleanup, try_finally,
    try_except, any_exception, logging_info, logging_error, update_state,
    bind, gets, ext_op, fs_op, tell, raise, ret.
  forward Hens. forward Hrep. forward Hbody.
  cbv beta iota zeta; cbn [fs ext].
  rewrite (isdir_exists _ _ Hdir). forward Hrm.
  unfold res, final, events. cbn [fst snd fs ext].
  repeat split; auto.
  cbn [app]. rewrite <- app_assoc. cbn [app]. rewrite ?app_nil_r. reflexivity.
Qed.

End RemoteRuns.

(** ** The claims about the remote flow *)

(** Once the first progress report has returned, no directory is left at
    the working path, whatever the body does. *)
Lemma remote_worker_no_directory_left {X} (env : Env X) (j : RemoteJob)
  (s : State X) :
  scratch_path_ok (job_path j) = true ->
  fst (task_update_state env "PROGRESS" 1 (ext s)) = Ok tt ->
  res (remote_worker env j s) <> OutOfFuel
  /\ os_path_isdir (fs (final (remote_worker env j s))) (job_path j) = false
  /\ (os_path_exists (fs (final (remote_worker env j s))) (job_path j) = false
      \/ res (remote_worker env j s)
         = Raise (NotADirectoryError (job_path j))).
Proof.
  intros Hok Hrep.
  destruct (remote_worker env j s) as [[r s'] tr] eqn:Hrun.
  destruct (remote_worker_cleanup_facts env j s r s' tr Hok Hrun) as [Hf Hc].
  split; [exact Hf|]. now apply Hc.
Qed.

(** C6, at the failing input.  The first progress report of
    [remote_worker] comes after the working directory is made and before
    the [try] block.  In a world where the backend of the task queue
    cannot be reached that report raises: the exception propagates, the
    [finally] block never runs, and the working directory [temp/u1/job1]
    is still there afterwards, whether it existed before the run or was
    made by the job.  When the report returns the directory is removed
    (lemma [remote_worker_no_directory_left]), as in the completed run at
    the end. *)
Theorem remote_worker_report_failure_leaves_directory :
  let unreachable_backend := Demo.unreported (Demo.world (Plain "")) in
  let before := mkState (Demo.with_upload "left.txt" (Plain "earlier")) 0 in
  let failed := remote_worker unreachable_backend Demo.upload_job before in
  let fresh := remote_worker unreachable_backend Demo.upload_job Demo.start in
  let completed :=
    remote_worker (Demo.world (Plain "")) Demo.upload_job before in
  job_path Demo.upload_job = "temp/u1/job1"
  /\ scratch_path_ok "temp/u1/job1" = true
  /\ os_path_isdir (fs before) "temp/u1/job1" = true
  /\ res failed
     = Raise (OtherException "OperationalError"
                "Error 111 connecting to redis:6379. Connection refused.")
  /\ events failed
     = [EvRemoteWorker Demo.upload_job; EvUpdateState "PROGRESS" 1]
  /\ os_path_isdir (fs (final failed)) "temp/u1/job1" = true
  /\ os_path_isdir (fs Demo.start) "temp/u1/job1" = false
  /\ res fresh
     = Raise (OtherException "OperationalError"
                "Error 111 connecting to redis:6379. Connection refused.")
  /\ os_path_isdir (fs (final fresh)) "temp/u1/job1" = true
  /\ is_return (res completed) = true
  /\ os_path_exists (fs (final completed)) "temp/u1/job1" = false.
Proof. cbv zeta. repeat split; vm_compute; reflexivity. Qed.

(** C4.  A [remote_worker] call in sync mode whose document-set
    identifier is missing, empty or refused by [ObjectId.is_valid]
    raises and makes no call to the embedding sink; once the first
    progress report has returned (so that the [try] block is entered) it
    leaves no working directory behind; and when the steps before the
    check succeed (set-up, first report, loader, chunker, token count),
    the exception raised is the validation error
    [ValueError("doc_id must be provided for sync operation.")], the
    events of the run are exactly those listed, and the working path is
    gone. *)
Theorem remote_worker_invalid_sync_target {X} (env : Env X) (j : RemoteJob)
  (s : State X) :
  operation_mode j = "sync" ->
  invalid_doc_id env (doc_id j) = true ->
  scratch_path_ok (job_path j) = true ->
  let run := remote_worker env j s in
  (exists e, res run = Raise e)
  /\ embed_calls (events run) = []
  /\ (fst (task_update_state env "PROGRESS" 1 (ext s)) = Ok tt ->
      os_path_isdir (fs (final run)) (job_path j) = false)
  /\ (forall s1 x0 x1 raw x2 chunks x3 n,
         ensure_dir (job_path j) s = (Return tt, s1, []) ->
         os_path_isdir (fs s1) (job_path j) = true ->
         task_update_state env "PROGRESS" 1 (ext s) = (Ok tt, x0) ->
         create_loader env (loader j) x0 = (Ok tt, x1) ->
         loader_load_data env (loader j) (source_data j) x1 = (Ok raw, x2) ->
         chunker_chunk env chunk_policy raw x2 = (Ok chunks, x3) ->
         count_tokens_docs env (map (to_langchain_format env) raw) = Ok n ->
         res run
         = Raise (ValueError "doc_id must be provided for sync operation.")
         /\ events run
            = [EvRemoteWorker j; EvUpdateState "PROGRESS" 1;
               EvLog "INFO"
                 ("Initializing remote loader with type: " ++ loader j);
               EvCreateLoader (loader j);
               EvRemoteLoad (loader j) (source_data j);
               EvChunk chunk_policy raw;
               EvLog "INFO" ("Total tokens calculated: " ++ str_Z n);
               EvLog "ERROR"
                 ("Invalid doc_id provided for sync operation: "
                  ++ match doc_id j with Some d => d | None => "None" end);
               EvLog "ERROR"
                 "Error in remote_worker task: doc_id must be provided for sync operation."]
         /\ os_path_exists (fs (final run)) (job_path j) = false).
Proof.
  intros Hmode Hbad Hok run. subst run.
  split; [|split; [|split]].
  - apply fails_total_raises.
    + apply fails_remote_worker.
      now apply fails_remote_body_invalid_sync.
    + apply total_remote_worker.
  - apply no_embed_calls.
    apply (emits_remote_worker env (fun ev => is_embed ev = false)); auto.
    now apply quiet_embed_remote_body_invalid_sync.
  - intros Hrep. now apply remote_worker_no_directory_left.
  - intros s1 x0 x1 raw x2 chunks x3 n Hens Hdir Hrep H1 H2 H3 H4.
    assert (Hx : ext s1 = ext s)
      by (now apply ensure_dir_inv in Hens as (_ & Hx & _)).
    rewrite <- Hx in Hrep.
    pose proof (remote_body_invalid_sync env j (job_path j)
                  (mkState (fs s1) x0) x1 raw x2 chunks x3 n Hmode Hbad H1 H2
                  H3 H4) as Hbody.
    destruct (remote_worker_raising_body env j s s1 _ x0 _ _ Hok Hens Hrep
                Hbody Hdir) as (Hr & Hev & Hgone & _).
    repeat split; auto.
Qed.

Lemma remote_worker_invalid_sync_target_witness :
  res (remote_worker Demo.offline Demo.bad_sync_job Demo.start)
  = Raise (ValueError "doc_id must be provided for sync operation.")
  /\ embed_calls
       (events (remote_worker Demo.offline Demo.bad_sync_job Demo.start)) = []
  /\ os_path_exists
       (fs (final (remote_worker Demo.offline Demo.bad_sync_job Demo.start)))
       "temp/u1/job1" = false.
Proof.
  destruct (remote_worker_invalid_sync_target Demo.offline Demo.bad_sync_job
              Demo.start eq_refl eq_refl eq_refl)
    as (_ & Hemb & _ & Hval).
  destruct (Hval
              (mkState
                 (Dir [("temp", Dir [("u1", Dir [("job1", Dir [])])])]) 0)
              0 0 (Demo.demo_remote_docs "https://docs.example.org") 0
              _ 0 2%Z eq_refl eq_refl eq_refl eq_refl eq_refl eq_refl eq_refl)
    as (Hr & _ & Hgone).
  repeat split; assumption.
Defined.

(** C10.  A [remote_worker] call whose operation mode is neither
    [upload] nor [sync] raises and calls neither the embedding sink nor
    the index upload; once the first progress report has returned it
    leaves no working directory behind; and when set-up, loading,
    chunking, token counting and the two progress reports succeed, the
    exception is the [UnboundLocalError] for [id], raised while the
    completion payload is assembled, after the events of loading,
    chunking, token counting and the final progress report, and the
    working path is gone. *)
Theorem remote_worker_unknown_mode {X} (env : Env X) (j : RemoteJob)
  (s : State X) :
  operation_mode j <> "upload" ->
  operation_mode j <> "sync" ->
  scratch_path_ok (job_path j) = true ->
  let run := remote_worker env j s in
  (exists e, res run = Raise e)
  /\ embed_calls (events run) = []
  /\ post_calls (events run) = []
  /\ (fst (task_update_state env "PROGRESS" 1 (ext s)) = Ok tt ->
      os_path_isdir (fs (final run)) (job_path j) = false)
  /\ (forall s1 x0 x1 raw x2 chunks x3 n x4,
         ensure_dir (job_path j) s = (Return tt, s1, []) ->
         os_path_isdir (fs s1) (job_path j) = true ->
         task_update_state env "PROGRESS" 1 (ext s) = (Ok tt, x0) ->
         create_loader env (loader j) x0 = (Ok tt, x1) ->
         loader_load_data env (loader j) (source_data j) x1 = (Ok raw, x2) ->
         chunker_chunk env chunk_policy raw x2 = (Ok chunks, x3) ->
         count_tokens_docs env (map (to_langchain_format env) raw) = Ok n ->
         task_update_state env "PROGRESS" 100 x3 = (Ok tt, x4) ->
         res run = Raise (UnboundLocalError "id")
         /\ events run
            = [EvRemoteWorker j; EvUpdateState "PROGRESS" 1;
               EvLog "INFO"
                 ("Initializing remote loader with type: " ++ loader j);
               EvCreateLoader (loader j);
               EvRemoteLoad (loader j) (source_data j);
               EvChunk chunk_policy raw;
               EvLog "INFO" ("Total tokens calculated: " ++ str_Z n);
               EvUpdateState "PROGRESS" 100;
               EvLog "ERROR"
                 ("Error in remote_worker task: "
                  ++ str_exn (UnboundLocalError "id"))]
         /\ os_path_exists (fs (final run)) (job_path j) = false).
Proof.
  intros Hup Hsync Hok run. subst run.
  assert (Hsilent :
            Forall (fun ev => is_embed ev = false /\ is_post ev = false)
              (events (remote_worker env j s))).
  { apply (emits_remote_worker env
             (fun ev => is_embed ev = false /\ is_post ev = false)); auto.
    now apply silent_remote_body_unbound_id. }
  split; [|split; [|split; [|split]]].
  - apply fails_total_raises.
    + apply fails_remote_worker.
      now apply fails_remote_body_unbound_id.
    + apply total_remote_worker.
  - apply no_embed_calls. eapply Forall_impl; [|exact Hsilent].
    now intros ev [].
  - apply no_post_calls. eapply Forall_impl; [|exact Hsilent].
    now intros ev [].
  - intros Hrep. now apply remote_worker_no_directory_left.
  - intros s1 x0 x1 raw x2 chunks x3 n x4 Hens Hdir Hrep H1 H2 H3 H4 H5.
    assert (Hx : ext s1 = ext s)
      by (now apply ensure_dir_inv in Hens as (_ & Hx & _)).
    rewrite <- Hx in Hrep.
    pose proof (remote_body_unbound_id env j (job_path j)
                  (mkState (fs s1) x0) x1 raw x2 chunks x3 n x4 Hup Hsync H1
                  H2 H3 H4 H5) as Hbody.
    destruct (remote_worker_raising_body env j s s1 _ x0 _ _ Hok Hens Hrep
                Hbody Hdir) as (Hr & Hev & Hgone & _).
    repeat split; auto.
Qed.

Lemma remote_worker_unknown_mode_witness :
  res (remote_worker Demo.offline Demo.odd_mode_job Demo.start)
  = Raise (UnboundLocalError "id")
  /\ embed_calls
       (events (remote_worker Demo.offline Demo.odd_mode_job Demo.start)) = []
  /\ post_calls
       (events (remote_worker Demo.offline Demo.odd_mode_job Demo.start)) = []
  /\ os_path_exists
       (fs (final (remote_worker Demo.offline Demo.odd_mode_job Demo.start)))
       "temp/u1/job1" = false.
Proof.
  destruct (remote_worker_unknown_mode Demo.offline Demo.odd_mode_job
              Demo.start ltac:(discriminate) ltac:(discriminate) eq_refl)
    as (_ & Hemb & Hpost & _ & Hval).
  destruct (Hval
              (mkState
                 (Dir [("temp", Dir [("u1", Dir [("job1", Dir [])])])]) 0)
              0 0 (Demo.demo_remote_docs "https://docs.example.org") 0
              _ 0 2%Z 0 eq_refl eq_refl eq_refl eq_refl eq_refl eq_refl
              eq_refl eq_refl)
    as (Hr & _ & Hgone).
  repeat split; assumption.
Defined.

(** ** What the remote flow embeds *)

Section RemoteEmbeds.

Context {X : Type}.
Variable env : Env X.

Lemma ext_op_inv {A} (f : X -> call A * X) (s : State X) r s' t :
  ext_op f s = (r, s', t) ->
  exists c x, f (ext s) = (c, x) /\ s' = mkState (fs s) x /\ t = []
              /\ r = match c with Ok a => Return a | Err e => Raise e end.
Proof.
  unfold ext_op. destruct (f (ext s)) as [[a|e] x]; intros [= <- <- <-];
    eexists _, _; repeat split.
Qed.

Lemma tell_inv ev (s : State X) r s' t :
  tell ev s = (r, s', t) -> r = Return tt /\ s' = s /\ t = [ev].
Proof. unfold tell. intros [= <- <- <-]. auto. Qed.

(** Every call to the embedding sink made by a run of the body whose
    loader returned [raw] carries the converted [raw]. *)
Lemma remote_body_embeds_raw j p (s1 : State X) x1 raw x2 :
  create_loader env (loader j) (ext s1) = (Ok tt, x1) ->
  loader_load_data env (loader j) (source_data j) x1 = (Ok raw, x2) ->
  Forall (fun docs => docs = map (to_langchain_format env) raw)
    (embed_calls (events (remote_body env j p s1))).
Proof.
  intros H1 H2.
  destruct (remote_body env j p s1) as [[r s2] tr] eqn:Hrun.
  unfold events; cbn [snd].
  unfold remote_body in Hrun.
  inv_bind Hrun; try discriminate.
  apply tell_inv in Hm as (_ & -> & ->).
  inv_bind Hk; try discriminate.
  apply tell_inv in Hm as (_ & -> & ->).
  inv_bind Hk0;
    apply ext_op_inv in Hm as (c & x & Hc & -> & -> & Hr1);
    rewrite H1 in Hc; injection Hc as <- <-; try discriminate.
  clear Hr1.
  inv_bind Hk; try discriminate.
  apply tell_inv in Hm as (_ & -> & ->).
  inv_bind Hk0;
    apply ext_op_inv in Hm as (c & x & Hc & -> & -> & Hr2);
    cbn [ext] in Hc; rewrite H2 in Hc; injection Hc as <- <-;
    try discriminate.
  injection Hr2 as ->.
  simpl.
  match type of Hk with
  | ?m ?s = _ =>
      assert (Hrest : emits (fun ev => forall docs f i,
                                 ev = EvEmbed docs f i ->
                                 docs = map (to_langchain_format env) raw) m)
  end.
  { unfold logging_info, logging_error, update_state.
    emits_steps; try (intros; discriminate).
    - intros docs f i [= <- _ _]. reflexivity.
    - intros docs f i [= <- _ _]. reflexivity.
    - apply emits_upload_index; intros; discriminate. }
  match type of Hk with
  | ?m ?s = _ => specialize (Hrest s); rewrite Hk in Hrest; cbn [snd] in Hrest
  end.
  clear Hk. induction Hrest as [|ev t Hev _ IH]; simpl; auto.
  destruct ev; auto. constructor; auto. eapply Hev. reflexivity.
Qed.

End RemoteEmbeds.

Section RemoteEmbedsJob.

Context {X : Type}.
Variable env : Env X.

Lemma remote_cleanup_events p (s : State X) :
  events (remote_cleanup p s) = [].
Proof.
  unfold remote_cleanup, bind, gets, fs_op, ret, events.
  destruct (os_path_exists (fs s) p); simpl; auto.
  destruct (shutil_rmtree (fs s) p); reflexivity.
Qed.

Lemma upload_index_embeds_nothing p d (s : State X) :
  embed_calls (events (upload_index env p d s)) = [].
Proof.
  apply no_embed_calls.
  apply (emits_upload_index env (fun ev => is_embed ev = false)); auto.
Qed.

(** The calls to the embedding sink of a job are those of its body. *)
Lemma remote_worker_embed_calls j (s : State X) :
  embed_calls (events (remote_worker env j s))
  = match ensure_dir (job_path j) s with
    | (Return _, s1, _) =>
        match task_update_state env "PROGRESS" 1 (ext s1) with
        | (Ok _, x0) =>
            embed_calls
              (events (remote_body env j (job_path j) (mkState (fs s1) x0)))
        | (Err _, _) => []
        end
    | _ => []
    end.
Proof.
  unfold remote_worker, remote_guarded, try_finally, try_except,
    any_exception, logging_info, logging_error, update_state, bind, ext_op,
    tell, raise, ret, events.
  destruct (ensure_dir (job_path j) s) as [[[u|e|] s1] t0] eqn:He;
    apply ensure_dir_inv in He as (-> & _ & He); try reflexivity.
  cbv beta iota zeta.
  destruct (task_update_state env "PROGRESS" 1 (ext s1)) as [[[]|e0] x0];
    cbv beta iota zeta; cbn [fst snd]; [|reflexivity].
  destruct (remote_body env j (job_path j) (mkState (fs s1) x0))
    as [[[u1|e1|] s2] tb];
    cbv beta iota zeta; cbn [fst snd].
  - pose proof (remote_cleanup_events (job_path j) s2) as Hc.
    unfold events in Hc.
    destruct (remote_cleanup (job_path j) s2) as [[[u2|e2|] s3] tc];
      cbn [snd] in Hc; subst tc; cbn [snd];
      repeat (rewrite ?embed_calls_app, ?app_nil_r; cbn [embed_calls app]);
      reflexivity.
  - pose proof (remote_cleanup_events (job_path j) s2) as Hc.
    unfold events in Hc.
    destruct (remote_cleanup (job_path j) s2) as [[[u2|e2|] s3] tc];
      cbn [snd] in Hc; subst tc; cbn [snd];
      repeat (rewrite ?embed_calls_app, ?app_nil_r; cbn [embed_calls app]);
      reflexivity.
  - repeat (rewrite ?embed_calls_app, ?app_nil_r; cbn [embed_calls app]).
    reflexivity.
Qed.

(** An identifier that passes the check of the sync branch is one that
    [ObjectId] accepts. *)
Lemma valid_doc_id (o : option string) :
  invalid_doc_id env o = false ->
  exists d id, o = Some d /\ d <> "" /\ ObjectId_from env d = Ok id.
Proof.
  destruct o as [d|]; [|discriminate]. unfold invalid_doc_id, ObjectId_is_valid.
  destruct (String.eqb d "") eqn:Ed; [discriminate|]. cbn [negb andb orb].
  destruct (ObjectId_from env d) as [id|e] eqn:Eid; [|discriminate].
  intros _. exists d, id.
  split; [reflexivity|split; [now apply String.eqb_neq|exact Eid]].
Qed.

(** In upload mode, and in sync mode with a valid identifier, a body
    whose loader, chunker and token count succeed calls the embedding
    sink exactly once, with the converted raw documents. *)
Lemma remote_body_embeds_once j p (s1 : State X) x1 raw x2 chunks x3 n :
  operation_mode j = "upload"
  \/ (operation_mode j = "sync" /\ invalid_doc_id env (doc_id j) = false) ->
  create_loader env (loader j) (ext s1) = (Ok tt, x1) ->
  loader_load_data env (loader j) (source_data j) x1 = (Ok raw, x2) ->
  chunker_chunk env chunk_policy raw x2 = (Ok chunks, x3) ->
  count_tokens_docs env (map (to_langchain_format env) raw) = Ok n ->
  embed_calls (events (remote_body env j p s1))
  = [map (to_langchain_format env) raw].
Proof.
  intros Hmode H1 H2 H3 H4.
  assert (Hrest : forall (k : M X unit) (s : State X),
             emits (fun ev => is_embed ev = false) k ->
             embed_calls (snd (k s)) = []).
  { intros k s Hk. apply no_embed_calls, Hk. }
  unfold remote_body, chunk, embed, fresh_ObjectId, logging_info,
    logging_error, bind, ext_op, lift_call, tell, raise, ret, events.
  destruct Hmode as [Hmode|[Hmode Hvalid]]; rewrite Hmode.
  - change (String.eqb "upload" "upload") with true.
    forward H1. forward H2. forward H3. forward H4.
    cbv beta iota zeta; cbn [fs ext].
    destruct (new_ObjectId env x3) as [i x4].
    cbv beta iota zeta; cbn [fs ext].
    destruct (embed_and_store_documents env _ p i (fs s1) x4)
      as [[[u|e] root] x5]; cbv beta iota zeta; cbn [fs ext snd];
      [|reflexivity].
    match goal with
    | |- context [update_state env ?st ?c ?s] =>
        pose proof (Hrest (update_state env st c) s
                      (emits_update_state env _ st c eq_refl)) as Hus;
        destruct (update_state env st c s) as [[[[]|e|] s5] t5]
    end; cbn [snd] in *; cbv beta iota zeta;
      repeat (rewrite ?embed_calls_app, ?app_nil_r; cbn [embed_calls app]);
      rewrite ?Hus; try reflexivity.
    match goal with
    | |- context [upload_index env p ?d ?s] =>
        pose proof (upload_index_embeds_nothing p d s) as Hup;
        unfold events in Hup;
        destruct (upload_index env p d s) as [[r s6] t6]
    end.
    cbn [snd] in *.
    repeat (rewrite ?embed_calls_app, ?app_nil_r; cbn [embed_calls app]).
    now rewrite ?Hus, Hup.
  - change (String.eqb "sync" "upload") with false.
    change (String.eqb "sync" "sync") with true. rewrite Hvalid.
    destruct (valid_doc_id _ Hvalid) as (d & id & Hd & _ & Hid).
    rewrite Hd.
    forward H1. forward H2. forward H3. forward H4. forward Hid.
    cbv beta iota zeta; cbn [fs ext].
    destruct (embed_and_store_documents env _ p _ (fs s1) x3)
      as [[[u|e] root] x5]; cbv beta iota zeta; cbn [fs ext snd];
      [|reflexivity].
    match goal with
    | |- context [update_state env ?st ?c ?s] =>
        pose proof (Hrest (update_state env st c) s
                      (emits_update_state env _ st c eq_refl)) as Hus;
        destruct (update_state env st c s) as [[[[]|e|] s5] t5]
    end; cbn [snd] in *; cbv beta iota zeta;
      repeat (rewrite ?embed_calls_app, ?app_nil_r; cbn [embed_calls app]);
      rewrite ?Hus; try reflexivity.
    match goal with
    | |- context [upload_index env p ?d ?s] =>
        pose proof (upload_index_embeds_nothing p d s) as Hup;
        unfold events in Hup;
        destruct (upload_index env p d s) as [[r s6] t6]
    end.
    cbn [snd] in *.
    repeat (rewrite ?embed_calls_app, ?app_nil_r; cbn [embed_calls app]).
    now rewrite ?Hus, Hup.
Qed.

End RemoteEmbedsJob.

(** C2.  In the remote flow the documents handed to the embedding sink
    are the loader's raw documents converted to the final format; the
    list the chunker returns is not used.  Whatever the chunker returns,
    every call to the sink carries [map to_langchain_format raw], and in
    upload mode (and in sync mode with a valid identifier) a run whose
    set-up, first progress report, loader, chunker and token count
    succeed makes exactly one such call. *)
Theorem remote_worker_embeds_unchunked {X} (env : Env X) (j : RemoteJob)
  (s : State X) report x0 x1 raw x2 :
  task_update_state env "PROGRESS" 1 (ext s) = (report, x0) ->
  create_loader env (loader j) x0 = (Ok tt, x1) ->
  loader_load_data env (loader j) (source_data j) x1 = (Ok raw, x2) ->
  let run := remote_worker env j s in
  Forall (fun docs => docs = map (to_langchain_format env) raw)
    (embed_calls (events run))
  /\ (forall chunks x3 n,
         res (ensure_dir (X:=X) (job_path j) s) = Return tt ->
         report = Ok tt ->
         operation_mode j = "upload"
         \/ (operation_mode j = "sync"
             /\ invalid_doc_id env (doc_id j) = false) ->
         chunker_chunk env chunk_policy raw x2 = (Ok chunks, x3) ->
         count_tokens_docs env (map (to_langchain_format env) raw) = Ok n ->
         embed_calls (events run) = [map (to_langchain_format env) raw]).
Proof.
  intros H0 H1 H2 run. subst run.
  rewrite remote_worker_embed_calls.
  destruct (ensure_dir (job_path j) s) as [[[u|e|] s1] t0] eqn:He;
    apply ensure_dir_inv in He as (-> & Hx & He).
  - rewrite Hx, H0. destruct report as [[]|e0].
    + split.
      * now apply (remote_body_embeds_raw env j (job_path j)
                     (mkState (fs s1) x0) x1 raw x2).
      * intros chunks x3 n _ _ Hmode H3 H4.
        now apply (remote_body_embeds_once env j (job_path j)
                     (mkState (fs s1) x0) x1 raw x2 chunks x3 n).
    + split; [constructor|]. intros chunks x3 n _ Hrep. discriminate.
  - split; [constructor|]. intros chunks x3 n Hens. discriminate.
  - destruct He.
Qed.

Lemma remote_worker_embeds_unchunked_witness :
  embed_calls (events (remote_worker Demo.offline Demo.upload_job Demo.start))
  = [[ {| page_content := "first page of https://docs.example.org";
          metadata := [] |};
       {| page_content := "second page of https://docs.example.org";
          metadata := [] |} ]]
  /\ chunker_chunk Demo.offline chunk_policy
       (Demo.demo_remote_docs "https://docs.example.org") 0
     = (Ok [ {| text := "first page of https://docs.example.org second page of https://docs.example.org";
                extra_info := [] |} ], 0).
Proof.
  split; [|reflexivity].
  destruct (remote_worker_embeds_unchunked Demo.offline Demo.upload_job
              Demo.start (Ok tt) 0 0
              (Demo.demo_remote_docs "https://docs.example.org")
              0 eq_refl eq_refl eq_refl) as [_ Honce].
  exact (Honce _ 0 2%Z eq_refl eq_refl (or_introl eq_refl) eq_refl eq_refl).
Defined.

(** ** Archive extraction *)

Section Quiet.

Context {X : Type}.

Lemma quiet_ret {A} (a : A) : quiet (X:=X) (ret a).
Proof. intros s e. discriminate. Qed.

Lemma quiet_out_of_fuel {A} : quiet (X:=X) (A:=A) out_of_fuel.
Proof. intros s e. discriminate. Qed.

Lemma quiet_tell ev : quiet (X:=X) (tell ev).
Proof. intros s e. discriminate. Qed.

Lemma quiet_gets {A} (f : State X -> A) : quiet (gets f).
Proof. intros s e. discriminate. Qed.

Lemma quiet_bind {A B} (m : M X A) (k : A -> M X B) :
  quiet m -> (forall a, quiet (k a)) -> quiet (bind m k).
Proof.
  intros Hm Hk s e. unfold bind. specialize (Hm s).
  destruct (m s) as [[[a|e1|] s1] t1]; simpl in *; try discriminate.
  - specialize (Hk a s1 e). destruct (k a s1) as [[r2 s2] t2]. exact Hk.
  - exfalso. now apply (Hm e1).
Qed.

(** An [except Exception] clause whose handler does not raise lets
    nothing through. *)
Lemma quiet_try_except_any {A} (m : M X A) h :
  (forall e, quiet (h e)) -> quiet (try_except m any_exception h).
Proof.
  intros Hh s e. unfold try_except, any_exception.
  destruct (m s) as [[[a|e1|] s1] t1]; simpl; try discriminate.
  specialize (Hh e1 s1 e). destruct (h e1 s1) as [[r2 s2] t2]. exact Hh.
Qed.

Lemma quiet_for_each {A} (l : list A) (f : A -> M X unit) :
  (forall a, quiet (f a)) -> quiet (for_each l f).
Proof.
  intros Hf. induction l as [|a l IH]; simpl.
  - apply quiet_ret.
  - apply quiet_bind; auto.
Qed.

End Quiet.

Section Extractor.

Context {X : Type}.
Variable env : Env X.

Lemma emits_zip_extractall P zp to : emits (X:=X) P (zip_extractall zp to).
Proof.
  intros s. unfold zip_extractall.
  destruct (zipfile_open (fs s) zp); [|constructor].
  destruct (extractall (fs s) to a) as [[|] ?]; constructor.
Qed.

Lemma emits_os_walk P fuel :
  forall top body,
    (forall root dirs files, emits P (body root dirs files)) ->
    emits P (os_walk env fuel top body).
Proof.
  induction fuel as [|fuel IH]; intros top body Hbody; simpl.
  - apply emits_out_of_fuel.
  - apply emits_bind; [apply emits_gets|intros [[dirs files]|]].
    + apply emits_bind; [apply Hbody|intros _].
      apply emits_for_each. intros d. now apply IH.
    + apply emits_ret.
Qed.

Lemma quiet_os_walk fuel :
  forall top body,
    (forall root dirs files, quiet (body root dirs files)) ->
    quiet (os_walk env fuel top body).
Proof.
  induction fuel as [|fuel IH]; intros top body Hbody; simpl.
  - apply quiet_out_of_fuel.
  - apply quiet_bind; [apply quiet_gets|intros [[dirs files]|]].
    + apply quiet_bind; [apply Hbody|intros _].
      apply quiet_for_each. intros d. now apply IH.
    + apply quiet_ret.
Qed.

(** The events of an extraction: log records, and archives opened at
    depths between the depth of the call and the limit it was given. *)
Lemma emits_extract_zip_recursive (P : event -> Prop) max_depth fuel :
  (forall l m, P (EvLog l m)) ->
  forall zip_path extract_to current_depth,
    (forall z t d,
        (current_depth <= d <= max_depth)%Z -> P (EvExtract z t d)) ->
    emits P (extract_zip_recursive env fuel zip_path extract_to
               current_depth max_depth).
Proof.
  intros Hlog.
  induction fuel as [|fuel IH]; intros zp to cd Hdepth; simpl;
    destruct (cd >? max_depth)%Z eqn:Hgt;
    try (apply emits_tell, Hlog); try apply emits_out_of_fuel.
  rewrite Z.gtb_ltb, Z.ltb_ge in Hgt.
  apply emits_bind.
  - apply emits_try_except.
    + apply emits_bind; [apply emits_tell, Hdepth; lia|intros _].
      apply emits_bind; [apply emits_zip_extractall|intros _].
      apply emits_bind; [apply emits_fs_op|intros _]. apply emits_ret.
    + intros e. apply emits_bind; [apply emits_tell, Hlog|intros _].
      apply emits_ret.
  - intros [|]; [|apply emits_ret].
    apply emits_os_walk. intros root dirs files.
    apply emits_for_each. intros file.
    destruct (endswith file ".zip"); [|apply emits_ret].
    apply IH. intros z t d Hd. apply Hdepth. lia.
Qed.

(** An extraction never raises. *)
Lemma quiet_extract_zip_recursive max_depth fuel :
  forall zip_path extract_to current_depth,
    quiet (extract_zip_recursive env fuel zip_path extract_to
             current_depth max_depth).
Proof.
  induction fuel as [|fuel IH]; intros zp to cd; simpl;
    destruct (cd >? max_depth)%Z;
    try apply quiet_tell; try apply quiet_out_of_fuel.
  apply quiet_bind.
  - apply quiet_try_except_any. intros e.
    apply quiet_bind; [apply quiet_tell|intros _]. apply quiet_ret.
  - intros [|]; [|apply quiet_ret].
    apply quiet_os_walk. intros root dirs files.
    apply quiet_for_each. intros file.
    destruct (endswith file ".zip"); [apply IH|apply quiet_ret].
Qed.

Lemma extract_depths_bounds lo hi (tr : list event) :
  Forall (fun ev => match ev with
                    | EvExtract _ _ d => (lo <= d <= hi)%Z
                    | _ => True
                    end) tr ->
  Forall (fun d => (lo <= d <= hi)%Z) (extract_depths tr).
Proof.
  induction 1 as [|ev tr Hev _ IH]; simpl; auto.
  destruct ev; auto.
Qed.

(** A call beyond the limit it was given does nothing but warn. *)
Lemma extract_zip_recursive_beyond fuel zip_path extract_to current_depth
  max_depth (s : State X) :
  (current_depth > max_depth)%Z ->
  extract_zip_recursive env fuel zip_path extract_to current_depth max_depth s
  = (Return tt, s,
     [EvLog "WARNING"
        ("Reached maximum recursion depth of " ++ str_Z max_depth)]).
Proof.
  intros Hgt.
  assert (Hb : (current_depth >? max_depth)%Z = true)
    by (rewrite Z.gtb_ltb; apply Z.ltb_lt; lia).
  destruct fuel; simpl; rewrite Hb; reflexivity.
Qed.

End Extractor.

(** C3 (as amended).  The value 5 is only the default of the [max_depth]
    parameter of [extract_zip_recursive]; the stop is at the limit the
    caller supplies.  A call whose current depth exceeds the supplied
    limit extracts nothing, logs a warning and returns; in every run all
    archives are opened at depths between the depth of the call and the
    supplied limit; no run raises; and a call that leaves the limit out
    runs with limit 5, while the local upload flow supplies 2. *)
Theorem extract_zip_recursive_stops_at_supplied_limit {X} (env : Env X)
  (fuel : nat) (zip_path extract_to : string) (current_depth max_depth : Z)
  (s : State X) :
  let run := extract_zip_recursive env fuel zip_path extract_to
               current_depth max_depth s in
  ((current_depth > max_depth)%Z ->
   run = (Return tt, s,
          [EvLog "WARNING"
             ("Reached maximum recursion depth of " ++ str_Z max_depth)]))
  /\ Forall (fun d => (current_depth <= d <= max_depth)%Z)
       (extract_depths (events run))
  /\ (forall e, res run <> Raise e)
  /\ extract_zip_recursive_default env fuel zip_path extract_to s
     = extract_zip_recursive env fuel zip_path extract_to 0 5 s
  /\ RECURSION_DEPTH = 2%Z.
Proof.
  intros run. subst run. repeat split.
  - apply extract_zip_recursive_beyond.
  - apply extract_depths_bounds.
    apply (emits_extract_zip_recursive env
             (fun ev => match ev with
                        | EvExtract _ _ d =>
                            (current_depth <= d <= max_depth)%Z
                        | _ => True
                        end)); auto.
  - intros e. apply quiet_extract_zip_recursive.
Qed.

Lemma extract_zip_recursive_stops_at_supplied_limit_witness :
  extract_zip_recursive (Demo.world (Plain "")) 0 "temp/u1/job1/deep.zip"
    "temp/u1/job1" 3 2
    (mkState (Demo.with_upload "deep.zip" (Demo.nested_zip 2)) 0)
  = (Return tt,
     mkState (Demo.with_upload "deep.zip" (Demo.nested_zip 2)) 0,
     [EvLog "WARNING" "Reached maximum recursion depth of 2"]).
Proof.
  apply (extract_zip_recursive_stops_at_supplied_limit (Demo.world (Plain ""))
           0 "temp/u1/job1/deep.zip" "temp/u1/job1" 3 2).
  reflexivity.
Defined.

(** Counterexample to C3 as stated: with a caller-supplied limit of 10, a
    chain of eight nested archives is opened at depths 0 to 7, past depth
    5, and the innermost file is unpacked. *)
Lemma extract_zip_recursive_passes_depth_5 :
  let run :=
    extract_zip_recursive (Demo.world (Plain "")) 20 "temp/u1/job1/top.zip"
      "temp/u1/job1" 0 10
      (mkState (Demo.with_upload "top.zip" (Demo.nested_zip 8)) 0) in
  res run = Return tt
  /\ extract_depths (events run) = [0; 1; 2; 3; 4; 5; 6; 7]%Z
  /\ ~ Forall (fun d => (d <= 5)%Z) (extract_depths (events run))
  /\ read_file (fs (final run)) "temp/u1/job1/deep.md" = Ok (Plain "deep")
  /\ archives_left (fs (final run)) = [].
Proof.
  assert (Hrun :
    extract_depths
      (events
         (extract_zip_recursive (Demo.world (Plain "")) 20
            "temp/u1/job1/top.zip" "temp/u1/job1" 0 10
            (mkState (Demo.with_upload "top.zip" (Demo.nested_zip 8)) 0)))
    = [0; 1; 2; 3; 4; 5; 6; 7]%Z) by (vm_compute; reflexivity).
  cbv zeta. rewrite Hrun.
  split; [vm_compute; reflexivity|].
  split; [reflexivity|].
  split.
  - intros H. do 6 (apply Forall_inv_tail in H).
    apply Forall_inv in H. lia.
  - split; vm_compute; reflexivity.
Qed.

(** C7, at the failing input.  An archive of nesting depth 2, within the
    limit 2 of the local upload flow, holding two sibling archives that
    each hold one more archive: the run returns without raising, but one
    inner archive is left packed and its file is never unpacked, for
    either listing order of the siblings.  The nested call for the first
    sibling walks the shared destination and meets the second sibling one
    level deeper than it is. *)
Theorem extract_zip_recursive_siblings_left_packed :
  let input := mkState (Demo.with_upload "top.zip" Demo.siblings_zip) 0 in
  let run1 :=
    extract_zip_recursive (Demo.demo_env Demo.failed_download (fun l => l) [])
      10 "temp/u1/job1/top.zip" "temp/u1/job1" 0 RECURSION_DEPTH input in
  let run2 :=
    extract_zip_recursive (Demo.demo_env Demo.failed_download (@rev string) [])
      10 "temp/u1/job1/top.zip" "temp/u1/job1" 0 RECURSION_DEPTH input in
  (Z.of_nat (nesting_depth Demo.siblings_zip) <= RECURSION_DEPTH)%Z
  /\ res run1 = Return tt
  /\ archives_left (fs (final run1)) = ["b2.zip"]
  /\ os_path_exists (fs (final run1)) "temp/u1/job1/b.md" = false
  /\ res run2 = Return tt
  /\ archives_left (fs (final run2)) = ["a2.zip"]
  /\ os_path_exists (fs (final run2)) "temp/u1/job1/a.md" = false.
Proof.
  cbv zeta. repeat split; try (vm_compute; reflexivity).
  vm_compute. discriminate.
Qed.

(** ** The events of the two flows *)

Lemma chunk_calls_app (t1 t2 : list event) :
  chunk_calls (t1 ++ t2) = chunk_calls t1 ++ chunk_calls t2.
Proof.
  induction t1 as [|ev t1 IH]; simpl; auto.
  destruct ev; simpl; auto. now rewrite IH.
Qed.

Lemma chunk_calls_fixed (event_ok : event -> Prop) (tr : list event) :
  (forall policy docs,
      event_ok (EvChunk policy docs) -> policy = fixed_policy) ->
  Forall event_ok tr ->
  Forall (fun policy => policy = fixed_policy) (chunk_calls tr).
Proof.
  intros Hok. induction 1 as [|ev tr Hev _ IH]; simpl; auto.
  destruct ev; auto. constructor; auto. eapply Hok, Hev.
Qed.

Section FlowEvents.

Context {X : Type}.
Variable env : Env X.

Lemma emits_download_file P url params dest :
  (forall l m, P (EvLog l m)) -> P (EvGet url params) ->
  emits P (download_file env url params dest).
Proof.
  intros Hlog Hget. unfold download_file, raise_for_status, logging_error.
  emits_steps; auto.
Qed.

Lemma emits_ingest_worker fuel directory formats name_job filename user
  retriever :
  emits ingest_event
    (ingest_worker env fuel directory formats name_job filename user
       retriever).
Proof.
  unfold ingest_worker, ensure_dir, logging_info.
  apply emits_bind; [now apply emits_tell|intros _].
  apply emits_bind; [emits_steps|intros _].
  apply emits_bind; [now apply emits_download_file|intros _].
  apply emits_bind.
  { destruct (endswith filename ".zip"); [|apply emits_ret].
    apply emits_extract_zip_recursive; [now intros|].
    intros z t d Hd. exact Hd. }
  intros _.
  apply emits_bind; [now apply emits_update_state|intros _].
  apply emits_bind; [now apply emits_load_data|intros raw_docs].
  apply emits_bind; [now apply emits_chunk|intros chunks].
  apply emits_bind; [apply emits_fresh_ObjectId|intros id].
  apply emits_bind; [now apply emits_embed|intros _].
  apply emits_bind; [apply emits_lift_call|intros tokens].
  apply emits_bind; [now apply emits_update_state|intros _].
  apply emits_bind; [apply emits_ret|intros _].
  apply emits_bind; [now apply emits_upload_index|intros _].
  apply emits_bind; [apply emits_fs_op|intros _].
  apply emits_ret.
Qed.

Lemma emits_remote_body_any j p : emits remote_event (remote_body env j p).
Proof.
  unfold remote_body, logging_info, logging_error, update_state.
  emits_steps; try exact I; try reflexivity.
  all: now apply emits_upload_index.
Qed.

Lemma emits_remote_worker_any j : emits remote_event (remote_worker env j).
Proof.
  apply emits_remote_worker; try now intros.
  apply emits_remote_body_any.
Qed.

End FlowEvents.

(** ** Runs that complete *)

Section Completed.

Context {X : Type}.
Variable env : Env X.

Lemma bind_return_inv {A B} (m : M X A) (k : A -> M X B) s b s' tr :
  bind m k s = (Return b, s', tr) ->
  exists a s1 t1 t2,
    m s = (Return a, s1, t1) /\ k a s1 = (Return b, s', t2) /\ tr = t1 ++ t2.
Proof.
  intros H. apply bind_inv in H
    as [(a & s1 & t1 & t2 & Hm & Hk & ->)|[(e & _ & He)|[_ He]]];
    try discriminate.
  now exists a, s1, t1, t2.
Qed.

Lemma try_finally_return_inv {A} (m : M X A) f s a s' tr :
  try_finally m f s = (Return a, s', tr) ->
  exists s1 t1 t2,
    m s = (Return a, s1, t1) /\ f s1 = (Return tt, s', t2) /\ tr = t1 ++ t2.
Proof.
  intros H. apply try_finally_inv in H
    as [[_ He]|(r1 & s1 & t1 & r2 & t2 & Hm & _ & Hf & -> & Hr)];
    [discriminate|].
  destruct r2 as [[]|e|]; try discriminate.
  subst r1. now exists s1, t1, t2.
Qed.

Lemma try_except_reraise_return_inv {A} (m : M X A) catches
  (h : exn -> M X A) s a s' tr :
  (forall e, fails (h e)) ->
  try_except m catches h s = (Return a, s', tr) ->
  m s = (Return a, s', tr).
Proof.
  intros Hh. unfold try_except.
  destruct (m s) as [[[a1|e|] s1] t1]; try discriminate; auto.
  destruct (catches e); try discriminate.
  specialize (Hh e s1). unfold res in Hh.
  destruct (h e s1) as [[[|e2|] s2] t2]; simpl in Hh; discriminate.
Qed.

Lemma chunk_calls_app_r (t1 t2 : list event) :
  chunk_calls t2 <> [] -> chunk_calls (t1 ++ t2) <> [].
Proof.
  intros H E. rewrite chunk_calls_app in E.
  apply app_eq_nil in E as [_ E]. now apply H.
Qed.

Lemma chunk_run policy docs (s : State X) r s' t :
  chunk env policy docs s = (r, s', t) ->
  exists t', t = EvChunk policy docs :: t'.
Proof.
  unfold chunk, bind, tell, ext_op.
  destruct (chunker_chunk env policy docs (ext s)) as [[|] ?];
    intros [= <- <- <-]; eexists; reflexivity.
Qed.

(** Pass the first step of a completed run when looking for the call to
    the chunker. *)
Ltac past_step H :=
  let H' := fresh "Hstep" in
  apply bind_return_inv in H as (? & ? & ? & ? & H' & H & ->);
  clear H'; apply chunk_calls_app_r.

Ltac at_chunk H :=
  let Hc := fresh "Hchunk" in
  let t' := fresh "t" in
  apply bind_return_inv in H as (? & ? & ? & ? & Hc & _ & ->);
  apply chunk_run in Hc as (t' & ->); simpl; discriminate.

Lemma ingest_worker_completed_chunks fuel directory formats name_job
  filename user retriever (s : State X) :
  is_return (res (ingest_worker env fuel directory formats name_job filename
                    user retriever s)) = true ->
  chunk_calls (events (ingest_worker env fuel directory formats name_job
                         filename user retriever s)) <> [].
Proof.
  destruct (ingest_worker env fuel directory formats name_job filename user
              retriever s) as [[[v|e|] s'] tr] eqn:Hrun;
    try discriminate.
  intros _. unfold events; cbn [snd].
  unfold ingest_worker in Hrun.
  do 6 past_step Hrun. at_chunk Hrun.
Qed.

Lemma remote_worker_completed_chunks j (s : State X) :
  is_return (res (remote_worker env j s)) = true ->
  chunk_calls (events (remote_worker env j s)) <> [].
Proof.
  destruct (remote_worker env j s) as [[[v|e|] s'] tr] eqn:Hrun;
    try discriminate.
  intros _. unfold events; cbn [snd].
  unfold remote_worker in Hrun.
  do 3 past_step Hrun.
  apply bind_return_inv in Hrun as (? & ? & ? & ? & Hrun & _ & ->).
  rewrite chunk_calls_app. intros E. apply app_eq_nil in E as [E _].
  revert E.
  apply try_finally_return_inv in Hrun as (? & ? & ? & Hrun & _ & ->).
  rewrite chunk_calls_app. intros E. apply app_eq_nil in E as [E _].
  revert E.
  unfold remote_guarded in Hrun.
  apply try_except_reraise_return_inv in Hrun.
  2: { intros e. apply fails_bind_r. intro. apply fails_raise. }
  unfold remote_body in Hrun.
  do 5 past_step Hrun. at_chunk Hrun.
Qed.

End Completed.

(** C9.  Both ingestion flows build the chunker with the same fixed
    policy: minimum 150 tokens, maximum 1250 tokens, the classic strategy
    ([classic_chunk]) and header de-duplication off.  In every run of
    either flow every call to the chunker carries this policy, and every
    run that completes has called the chunker. *)
Theorem both_flows_use_fixed_chunk_policy {X} (env : Env X) (fuel : nat)
  (directory : string) (formats : list string)
  (name_job filename user retriever : string) (j : RemoteJob) (s : State X) :
  let fixed :=
    {| chunking_strategy := "classic_chunk"; max_tokens := 1250;
       min_tokens := 150; duplicate_headers := false |} in
  let local := ingest_worker env fuel directory formats name_job filename
                 user retriever s in
  let remote := remote_worker env j s in
  Forall (fun policy => policy = fixed) (chunk_calls (events local))
  /\ Forall (fun policy => policy = fixed) (chunk_calls (events remote))
  /\ (is_return (res local) = true -> chunk_calls (events local) <> [])
  /\ (is_return (res remote) = true -> chunk_calls (events remote) <> [])
  /\ chunk_policy = fixed.
Proof.
  cbv zeta. repeat split.
  - apply (chunk_calls_fixed ingest_event); [now intros|].
    apply (emits_ingest_worker env).
  - apply (chunk_calls_fixed remote_event); [now intros|].
    apply (emits_remote_worker_any env).
  - apply ingest_worker_completed_chunks.
  - apply remote_worker_completed_chunks.
Qed.

Lemma both_flows_use_fixed_chunk_policy_witness :
  chunk_calls
    (events (ingest_worker (Demo.world Demo.notes_zip) 10 "temp" [".md"]
               "job1" "notes.zip" "u1" "classic" Demo.start)) <> []
  /\ chunk_calls
       (events (remote_worker (Demo.world Demo.notes_zip) Demo.upload_job
                  Demo.start)) <> [].
Proof.
  destruct (both_flows_use_fixed_chunk_policy (Demo.world Demo.notes_zip) 10
              "temp" [".md"] "job1" "notes.zip" "u1" "classic"
              Demo.upload_job Demo.start)
    as (_ & _ & Hlocal & Hremote & _).
  split; [apply Hlocal|apply Hremote]; reflexivity.
Defined.

(** ** The working directory of the local upload flow *)

Lemma alter_rmtree_ok_gone (name : string) (p : list string) :
  forall n n', alter name (rmtree_at name) n p = Ok n' -> lookup n' p = None.
Proof.
  induction p as [|c p IH]; intros n n' H.
  - simpl in H. destruct n; discriminate.
  - destruct n as [d|es]; [discriminate|].
    destruct p as [|c' p'].
    + simpl in H. destruct (assoc c es) as [[d|es']|]; try discriminate.
      injection H as <-. simpl. now rewrite assoc_del_entry.
    + change (alter name (rmtree_at name) (Dir es) (c :: c' :: p'))
        with (match assoc c es with
              | None => Err (FileNotFoundError name)
              | Some m0 =>
                  match alter name (rmtree_at name) m0 (c' :: p') with
                  | Ok m1 => Ok (Dir (set_entry c m1 es))
                  | Err e => Err e
                  end
              end) in H.
      destruct (assoc c es) as [m|]; [|discriminate].
      destruct (alter name (rmtree_at name) m (c' :: p')) as [m'|e] eqn:Ea;
        [|discriminate].
      injection H as <-.
      change (lookup (Dir (set_entry c m' es)) (c :: c' :: p'))
        with (match assoc c (set_entry c m' es) with
              | Some m0 => lookup m0 (c' :: p')
              | None => None
              end).
      rewrite assoc_set_entry. eapply IH, Ea.
Qed.

Lemma shutil_rmtree_ok_gone (root root' : node) (p : string) :
  shutil_rmtree root p = Ok root' -> os_path_exists root' p = false.
Proof.
  unfold shutil_rmtree, os_path_exists.
  destruct (String.eqb p ""); [discriminate|]. intros H.
  now rewrite (alter_rmtree_ok_gone _ _ _ _ H).
Qed.

Section LocalDirectory.

Context {X : Type}.
Variable env : Env X.

(** The success path: a run that completes has removed its working
    directory. *)
Lemma ingest_worker_completed_removes fuel directory formats name_job
  filename user retriever (s : State X) :
  is_return (res (ingest_worker env fuel directory formats name_job filename
                    user retriever s)) = true ->
  os_path_exists
    (fs (final (ingest_worker env fuel directory formats name_job filename
                  user retriever s)))
    (os_path_join directory [user; name_job]) = false.
Proof.
  destruct (ingest_worker env fuel directory formats name_job filename user
              retriever s) as [[[v|e|] s'] tr] eqn:Hrun;
    try discriminate.
  intros _. unfold final; cbn [fst snd].
  unfold ingest_worker in Hrun.
  do 13 (apply bind_return_inv in Hrun as (? & ? & ? & ? & _ & Hrun & ->)).
  apply bind_return_inv in Hrun as (? & ? & ? & ? & Hrm & Hret & ->).
  injection Hret as _ <- _.
  unfold fs_op in Hrm.
  match type of Hrm with
  | context [shutil_rmtree ?r ?p] =>
      destruct (shutil_rmtree r p) as [root'|e] eqn:E; [|discriminate]
  end.
  injection Hrm as _ <- _. cbn [fs].
  eapply shutil_rmtree_ok_gone, E.
Qed.

(** The download-failure path: when the request raises, the exception
    propagates at once and the tree stays as the set-up step left it. *)
Lemma ingest_worker_download_raises fuel directory formats name_job filename
  user retriever (s s1 : State X) e x :
  let full_path := os_path_join directory [user; name_job] in
  ensure_dir full_path s = (Return tt, s1, []) ->
  requests_get env (urljoin env (API_URL env) "/api/download")
    [("name", VStr name_job); ("file", VStr filename); ("user", VStr user)]
    (ext s1) = (Err e, x) ->
  res (ingest_worker env fuel directory formats name_job filename user
         retriever s) = Raise e
  /\ fs (final (ingest_worker env fuel directory formats name_job filename
                  user retriever s)) = fs s1.
Proof.
  intros full_path Hens Hget. subst full_path.
  unfold ingest_worker, download_file, try_except, logging_info,
    logging_error, bind, ext_op, tell, raise, ret, res, final.
  forward Hens. forward Hget.
  destruct (is_request_exception e); cbv beta iota zeta; cbn [fst snd fs];
    auto.
Qed.

End LocalDirectory.

(** C1, at the failing input.  The working directory [temp/u1/job1]
    exists before the run; the download of the named file raises a
    transport error; the error propagates and the directory is still
    there afterwards.  The same happens when the job created the
    directory itself.  On the success path the directory is removed. *)
Theorem ingest_worker_download_failure_leaves_directory :
  let before := mkState (Demo.with_upload "left.txt" (Plain "earlier")) 0 in
  let failed :=
    ingest_worker Demo.offline 10 "temp" [".md"] "job1" "notes.zip" "u1"
      "classic" before in
  let fresh :=
    ingest_worker Demo.offline 10 "temp" [".md"] "job1" "notes.zip" "u1"
      "classic" Demo.start in
  let completed :=
    ingest_worker (Demo.world Demo.notes_zip) 10 "temp" [".md"] "job1"
      "notes.zip" "u1" "classic" before in
  os_path_isdir (fs before) "temp/u1/job1" = true
  /\ res failed = Raise (RequestException "Connection refused")
  /\ os_path_isdir (fs (final failed)) "temp/u1/job1" = true
  /\ os_path_isdir (fs Demo.start) "temp/u1/job1" = false
  /\ res fresh = Raise (RequestException "Connection refused")
  /\ os_path_isdir (fs (final fresh)) "temp/u1/job1" = true
  /\ is_return (res completed) = true
  /\ os_path_exists (fs (final completed)) "temp/u1/job1" = false.
Proof. cbv zeta. repeat split; vm_compute; reflexivity. Qed.

(** ** The scheduler *)

Lemma assoc_set_entry_other {A} (k k' : string) (v : A)
  (l : list (string * A)) :
  String.eqb k k' = false -> assoc k (set_entry k' v l) = assoc k l.
Proof.
  intros Hk. induction l as [|[k0 v0] l IH]; simpl.
  - now rewrite Hk.
  - destruct (String.eqb k' k0) eqn:E; simpl.
    + apply String.eqb_eq in E. subst k0. now rewrite Hk.
    + destruct (String.eqb k k0); auto.
Qed.

Lemma counter_get_incr (key : string) (c : Counter) :
  counter_get key (counter_incr key c) = (counter_get key c + 1)%Z.
Proof. unfold counter_incr, counter_get at 1. now rewrite assoc_set_entry. Qed.

Lemma counter_get_incr_other (key key' : string) (c : Counter) :
  String.eqb key key' = false ->
  counter_get key (counter_incr key' c) = counter_get key c.
Proof.
  intros H. unfold counter_incr, counter_get at 1.
  now rewrite assoc_set_entry_other.
Qed.

Lemma remote_jobs_app (t1 t2 : list event) :
  remote_jobs (t1 ++ t2) = remote_jobs t1 ++ remote_jobs t2.
Proof.
  induction t1 as [|ev t1 IH]; simpl; auto.
  destruct ev; simpl; auto. now rewrite IH.
Qed.

Lemma no_remote_jobs (tr : list event) :
  Forall (fun ev => match ev with EvRemoteWorker _ => False | _ => True end)
    tr ->
  remote_jobs tr = [].
Proof.
  induction 1 as [|ev tr Hev _ IH]; simpl; auto.
  destruct ev; auto. destruct Hev.
Qed.

Lemma count_true_false (l : list bool) :
  (count_true l + count_false l)%Z = Z.of_nat (List.length l).
Proof.
  unfold count_true, count_false.
  induction l as [|[|] l IH]; simpl List.length; simpl filter;
    simpl List.length; lia.
Qed.

Section Scheduler.

Context {X : Type}.
Variable env : Env X.

(** A job is announced once, at its start. *)
Lemma remote_worker_jobs j (s : State X) :
  remote_jobs (events (remote_worker env j s)) = [j].
Proof.
  unfold remote_worker, events.
  unfold bind at 1, tell at 1. cbv beta iota.
  match goal with
  | |- context [let (_, _) := ?m s in _] =>
      assert (Hrest :
                emits (fun ev => match ev with
                                 | EvRemoteWorker _ => False
                                 | _ => True
                                 end) m)
  end.
  { unfold remote_guarded, remote_cleanup, ensure_dir, logging_info,
      logging_error, update_state.
    emits_steps; try exact I.
    unfold remote_body, logging_info, logging_error, update_state.
    emits_steps; try exact I.
    all: now apply emits_upload_index. }
  match goal with
  | |- context [let (_, _) := ?m s in _] =>
      specialize (Hrest s); destruct (m s) as [[r s1] t]
  end.
  cbn [snd app remote_jobs] in *. f_equal. now apply no_remote_jobs.
Qed.

(** One call of [sync]: the job runs, a failure is logged and turned
    into the status. *)
Lemma sync_run sd name usr ld freq retr did dir (s : State X) :
  let rw := remote_worker env (sync_job sd name usr ld freq retr did dir) s in
  exists resp extra,
    sync env sd name usr ld freq retr did dir s
    = (Return resp, final rw, events rw ++ extra)
    /\ remote_jobs extra = []
    /\ String.eqb (status resp) "success" = is_return (res rw).
Proof.
  intros rw. subst rw.
  pose proof (total_remote_worker env
                (sync_job sd name usr ld freq retr did dir) s) as Htot.
  unfold sync, try_except, any_exception, logging_error, bind, tell, ret,
    res, final, events in *.
  destruct (remote_worker env (sync_job sd name usr ld freq retr did dir) s)
    as [[[v|e|] s1] t]; cbn [fst snd] in *.
  - eexists _, []. repeat split.
  - eexists _, [_]. cbv beta iota zeta. repeat split.
  - congruence.
Qed.

(** The loop of [sync_worker], from any counter and any state. *)
Lemma fold_sync_rounds frequency (sources : list SourceDoc) :
  forall (c : Counter) (s : State X),
    let jobs :=
      map (job_of_source frequency) (filter (due frequency) sources) in
    let outcomes := fst (run_jobs env jobs s) in
    exists c' t,
      fold_m (sync_round env frequency) sources c s
      = (Return c', snd (run_jobs env jobs s), t)
      /\ remote_jobs t = jobs
      /\ counter_get "total_sync_count" c'
         = (counter_get "total_sync_count" c + Z.of_nat (List.length jobs))%Z
      /\ counter_get "sync_success" c'
         = (counter_get "sync_success" c + count_true outcomes)%Z
      /\ counter_get "sync_failure" c'
         = (counter_get "sync_failure" c + count_false outcomes)%Z.
Proof.
  induction sources as [|doc sources IH]; intros c s; cbn zeta.
  - exists c, []. simpl. unfold ret, count_true, count_false. simpl.
    repeat split; lia.
  - cbn [filter fold_m]. unfold sync_round at 1.
    destruct (due frequency doc) eqn:Hdue.
    + cbn [map run_jobs].
      change (sync_job (src_remote_data doc) (src_name doc) (src_user doc)
                (src_type doc) frequency (src_retriever doc)
                (Some (src_id doc)) "temp")
        with (job_of_source frequency doc).
      destruct (sync_run (src_remote_data doc) (src_name doc) (src_user doc)
                  (src_type doc) frequency (src_retriever doc)
                  (Some (src_id doc)) "temp" s)
        as (resp & extra & Hsync & Hextra & Hstatus).
      change (sync_job (src_remote_data doc) (src_name doc) (src_user doc)
                (src_type doc) frequency (src_retriever doc)
                (Some (src_id doc)) "temp")
        with (job_of_source frequency doc) in *.
      pose proof (remote_worker_jobs (job_of_source frequency doc) s) as Hjob.
      unfold res, final, events in *.
      destruct (remote_worker env (job_of_source frequency doc) s)
        as [[r s1] t1]; cbn [fst snd] in *.
      unfold bind at 1. unfold bind at 1. rewrite Hsync. unfold ret at 1.
      cbv beta iota zeta.
      match goal with
      | |- context [fold_m _ sources ?c1 s1] =>
          destruct (IH c1 s1) as (c' & t & Hfold & Hjobs & Htot & Hok & Hko)
      end.
      rewrite Hfold. cbv beta iota zeta.
      destruct (run_jobs env
                  (map (job_of_source frequency)
                     (filter (due frequency) sources)) s1)
        as [outs s2] eqn:Hrest.
      cbn [fst snd] in *.
      eexists c', _. split; [reflexivity|].
      split.
      { rewrite !remote_jobs_app, Hjob, Hextra, Hjobs. reflexivity. }
      rewrite Htot, Hok, Hko. rewrite Hstatus.
      unfold count_true, count_false.
      destruct (is_return r); cbn [filter negb List.length];
        repeat (rewrite counter_get_incr
                || rewrite counter_get_incr_other by reflexivity);
        repeat split; lia.
    + unfold bind at 1, ret at 1. cbv beta iota zeta.
      destruct (IH c s) as (c' & t & Hfold & Hjobs & Htot & Hok & Hko).
      rewrite Hfold. cbv beta iota zeta.
      exists c', t. repeat split; auto.
Qed.

End Scheduler.

(** C5.  Over a store of sources of which those whose stored sync
    frequency equals the target are [due], [sync_worker] starts one
    sync-mode remote job per due source, in store order, built from that
    source's stored fields, and none for the others; a job that raises is
    caught and counted, and the following sources are still processed;
    the result is exactly the three counters [total_sync_count] = M
    (the number of due sources), [sync_success] = M - K and
    [sync_failure] = K, where K is the number of those jobs that
    raised. *)
Theorem sync_worker_counts {X} (env : Env X) (frequency : string)
  (s : State X) :
  let run := sync_worker env frequency s in
  let due_sources := filter (due frequency) (sources_find env (ext s)) in
  let jobs := map (job_of_source frequency) due_sources in
  let outcomes := fst (run_jobs env jobs s) in
  let M := Z.of_nat (List.length due_sources) in
  let K := count_false outcomes in
  remote_jobs (events run) = jobs
  /\ Forall (fun j => operation_mode j = "sync") (remote_jobs (events run))
  /\ List.length outcomes = List.length due_sources
  /\ res run
     = Return [("total_sync_count", M); ("sync_success", (M - K)%Z);
               ("sync_failure", K)]
  /\ final run = snd (run_jobs env jobs s).
Proof.
  cbv zeta.
  assert (Hlen : forall jobs (s0 : State X),
             List.length (fst (run_jobs env jobs s0)) = List.length jobs).
  { induction jobs as [|j jobs IH]; intros s0; simpl; auto.
    destruct (remote_worker env j s0) as [[r s1] t].
    specialize (IH s1). destruct (run_jobs env jobs s1) as [outs s2].
    simpl in *. now rewrite IH. }
  destruct (fold_sync_rounds env frequency (sources_find env (ext s)) [] s)
    as (c' & t & Hfold & Hjobs & Htot & Hok & Hko).
  unfold sync_worker, bind, gets, ret, res, final, events.
  cbv beta iota zeta. rewrite Hfold. cbv beta iota zeta. cbn [fst snd app map].
  rewrite ?app_nil_r.
  rewrite Hjobs, Htot, Hok, Hko.
  change (counter_get "total_sync_count" []) with 0%Z.
  change (counter_get "sync_success" []) with 0%Z.
  change (counter_get "sync_failure" []) with 0%Z.
  pose proof (count_true_false
                (fst (run_jobs env
                        (map (job_of_source frequency)
                           (filter (due frequency)
                              (sources_find env (ext s)))) s))) as Hsum.
  rewrite Hlen, length_map in Hsum.
  repeat split.
  - apply Forall_forall. intros j Hj. apply in_map_iff in Hj as (d & <- & _).
    reflexivity.
  - now rewrite Hlen, length_map.
  - rewrite length_map, !Z.add_0_l.
    match goal with
    | |- context [count_true ?o] =>
        replace (count_true o)
          with (Z.of_nat
                  (List.length
                     (filter (due frequency) (sources_find env (ext s))))
                - count_false o)%Z by lia
    end.
    reflexivity.
Qed.

(** The scheduler example: three sources with frequencies daily, never,
    daily, the second daily one unreachable. *)
Lemma sync_worker_example :
  let run := sync_worker Demo.scheduled "daily" Demo.start in
  res run
  = Return [("total_sync_count", 2%Z); ("sync_success", 1%Z);
            ("sync_failure", 1%Z)]
  /\ map name_job (remote_jobs (events run)) = ["handbook"; "intranet"].
Proof. cbv zeta. split; vm_compute; reflexivity. Qed.

(** ** Attachments *)

(** What [attachment_worker] does before its [try] block: the two
    subscripts on [file_info] and the first progress report.  A missing
    key and a failing report raise to the caller. *)
Lemma attachment_worker_missing_key {X} (env : Env X) (directory : string)
  (file_info : FileInfo) (user : string) (s : State X) :
  (assoc "folder" file_info = None ->
   attachment_worker env directory file_info user s
   = (Raise (KeyError "folder"), s, []))
  /\ (forall folder x0,
         assoc "folder" file_info = Some folder ->
         assoc "filename" file_info = None ->
         task_update_state env "PROGRESS" 10 (ext s) = (Ok tt, x0) ->
         attachment_worker env directory file_info user s
         = (Raise (KeyError "filename"), mkState (fs s) x0,
            [EvLog "INFO" ("Processing attachment: " ++ folder);
             EvUpdateState "PROGRESS" 10]))
  /\ (forall folder e x0,
         assoc "folder" file_info = Some folder ->
         task_update_state env "PROGRESS" 10 (ext s) = (Err e, x0) ->
         attachment_worker env directory file_info user s
         = (Raise e, mkState (fs s) x0,
            [EvLog "INFO" ("Processing attachment: " ++ folder);
             EvUpdateState "PROGRESS" 10])).
Proof.
  unfold attachment_worker, getitem, update_state, logging_info, bind,
    ext_op, tell, raise, ret.
  split; [|split].
  - intros ->. reflexivity.
  - intros folder x0 -> -> Hrep. forward Hrep. reflexivity.
  - intros folder e x0 -> Hrep. forward Hrep. reflexivity.
Qed.

(** The part of C8 that holds.  [attachment_worker] reads [folder] and
    [filename] from [file_info] and makes its first progress report
    before the [try] block; a run that gets past these (both keys are
    there and the report returns) never raises and leaves the file system
    as it was.  When the file is absent the value is the error [File not
    found]; when the reader raises, or a later progress report, or the
    token count, or the insert, it is the error carrying the text of the
    exception; when the reader yields no document it is the error [No
    content was extracted from the file].  No insert is attempted in
    these cases, the failed insert apart.  Otherwise exactly one
    attachment record is handed to the store, holding the user, the
    relative path user/attachments/folder/filename, the text of the first
    document, its token count and the time stamp; the outside world is
    left as the insert and the last progress report left it, and the
    value carries the identifier the store generated, the file name, the
    folder, the path and the token count, unless the last progress report
    raises, in which case the record is stored and the value is the error
    of that report. *)
Lemma attachment_worker_returns_past_set_up {X} (env : Env X)
  (directory : string) (file_info : FileInfo) (user : string) (s : State X)
  (folder filename : string) (x0 : X) :
  assoc "folder" file_info = Some folder ->
  assoc "filename" file_info = Some filename ->
  task_update_state env "PROGRESS" 10 (ext s) = (Ok tt, x0) ->
  let run := attachment_worker env directory file_info user s in
  let file_path := os_path_join directory [filename] in
  let path :=
    (user ++ "/attachments/" ++ folder ++ "/" ++ filename)%string in
  let args :=
    {| input_dir := None; input_files := Some [file_path]; recursive := None;
       required_exts := None; num_files_limit := None;
       exclude_hidden := None; file_metadata := None |} in
  let failed e := AttError ("Error processing file: " ++ str_exn e) in
  fs (final run) = fs s
  /\ exists v,
       res run = Return v
       /\ if negb (os_path_exists (fs s) file_path) then
            v = AttError "File not found"
            /\ inserted (events run) = [] /\ ext (final run) = x0
          else
            match reader_load_data env args (fs s) x0 with
            | (Err e, x1) =>
                v = failed e
                /\ inserted (events run) = [] /\ ext (final run) = x1
            | (Ok documents, x1) =>
                match task_update_state env "PROGRESS" 50 x1 with
                | (Err e, x2) =>
                    v = failed e
                    /\ inserted (events run) = [] /\ ext (final run) = x2
                | (Ok _, x2) =>
                    match documents with
                    | [] =>
                        v = AttError "No content was extracted from the file"
                        /\ inserted (events run) = []
                        /\ ext (final run) = x2
                    | first :: _ =>
                        match num_tokens_from_string env (text first) with
                        | Err e =>
                            v = failed e
                            /\ inserted (events run) = []
                            /\ ext (final run) = x2
                        | Ok n =>
                            let record :=
                              {| att_user := user; att_path := path;
                                 att_content := text first;
                                 att_token_count := n;
                                 att_date := fst (datetime_now env x2) |} in
                            inserted (events run) = [record]
                            /\ match insert_one env record
                                       (snd (datetime_now env x2)) with
                               | (Err e, x3) =>
                                   v = failed e /\ ext (final run) = x3
                               | (Ok oid, x3) =>
                                   match task_update_state env "PROGRESS"
                                           100 x3 with
                                   | (Ok _, x4) =>
                                       v = AttStored (str_oid oid) filename
                                             folder path n
                                       /\ ext (final run) = x4
                                   | (Err e, x4) =>
                                       v = failed e /\ ext (final run) = x4
                                   end
                               end
                        end
                    end
                end
            end.
Proof.
  intros Hfolder Hfilename Hrep. cbv zeta.
  unfold attachment_worker, getitem, load_data, update_state, try_except,
    any_exception, logging_info, logging_warning, logging_error, bind, gets,
    ext_op, lift_call, tell, raise, ret, res, final, events.
  rewrite Hfolder, Hfilename.
  forward Hrep. cbv beta iota zeta; cbn [fs ext].
  destruct (os_path_exists (fs s) (os_path_join directory [filename]));
    cbv beta iota zeta; cbn [negb fst snd fs ext];
    [|split; [reflexivity|eexists; repeat split]].
  destruct (reader_load_data env _ (fs s) x0) as [[documents|e] x1];
    cbv beta iota zeta; cbn [fst snd fs ext];
    [|split; [reflexivity|eexists; repeat split]].
  destruct (task_update_state env "PROGRESS" 50 x1) as [[[]|e] x2];
    cbv beta iota zeta; cbn [fst snd fs ext];
    [|split; [reflexivity|eexists; repeat split]].
  destruct documents as [|first rest];
    cbv beta iota zeta; cbn [fst snd fs ext];
    [split; [reflexivity|eexists; repeat split]|].
  destruct (num_tokens_from_string env (text first)) as [n|e];
    cbv beta iota zeta; cbn [fst snd fs ext];
    [|split; [reflexivity|eexists; repeat split]].
  destruct (datetime_now env x2) as [now x2'];
    cbv beta iota zeta; cbn [fst snd fs ext].
  destruct (insert_one env _ x2') as [[oid|e] x3];
    cbv beta iota zeta; cbn [fst snd fs ext];
    [|split; [reflexivity|eexists; repeat split]].
  destruct (task_update_state env "PROGRESS" 100 x3) as [[[]|e] x4];
    cbv beta iota zeta; cbn [fst snd fs ext];
    (split; [reflexivity|eexists; repeat split]).
Qed.

Lemma attachment_worker_returns_past_set_up_witness :
  let run :=
    attachment_worker Demo.offline "uploads" Demo.report "u1"
      Demo.with_attachment in
  res run
  = Return (AttStored "650000000000000000000001" "report.txt" "f42"
              "u1/attachments/f42/report.txt" 9)
  /\ inserted (events run)
     = [ {| att_user := "u1"; att_path := "u1/attachments/f42/report.txt";
            att_content := "quarterly"; att_token_count := 9;
            att_date := 0 |} ]
  /\ ext (final run) = 2.
Proof.
  cbv zeta.
  destruct (attachment_worker_returns_past_set_up Demo.offline "uploads"
              Demo.report "u1" Demo.with_attachment "f42" "report.txt" 0
              eq_refl eq_refl eq_refl) as (_ & v & Hv & H).
  cbv zeta in H. vm_compute in H. destruct H as (Hins & -> & Hx).
  split; [exact Hv|split; vm_compute; reflexivity].
Defined.

(** C8, at the failing inputs.  The attachment [uploads/report.txt] is
    there and [file_info] holds the folder and the file name, but the
    backend of the task queue cannot be reached: the first progress
    report of [attachment_worker], made before the [try] block, raises,
    and the exception reaches the caller in place of a structured error
    value; nothing is stored.  In the same way a [file_info] without the
    folder, or without the file name, makes the subscripts before the
    [try] block raise [KeyError].  With the backend in reach and both
    keys there the same call returns the stored attachment. *)
Theorem attachment_worker_raises_before_try :
  let unreachable_backend := Demo.unreported Demo.offline in
  let failed :=
    attachment_worker unreachable_backend "uploads" Demo.report "u1"
      Demo.with_attachment in
  let stored :=
    attachment_worker Demo.offline "uploads" Demo.report "u1"
      Demo.with_attachment in
  os_path_exists (fs Demo.with_attachment) "uploads/report.txt" = true
  /\ Demo.report = [("folder", "f42"); ("filename", "report.txt")]
  /\ res failed
     = Raise (OtherException "OperationalError"
                "Error 111 connecting to redis:6379. Connection refused.")
  /\ events failed
     = [EvLog "INFO" "Processing attachment: f42";
        EvUpdateState "PROGRESS" 10]
  /\ inserted (events failed) = []
  /\ res (attachment_worker Demo.offline "uploads" Demo.no_folder "u1"
            Demo.with_attachment)
     = Raise (KeyError "folder")
  /\ res (attachment_worker Demo.offline "uploads" [("folder", "f42")] "u1"
            Demo.with_attachment)
     = Raise (KeyError "filename")
  /\ res stored
     = Return (AttStored "650000000000000000000001" "report.txt" "f42"
                 "u1/attachments/f42/report.txt" 9).
Proof. cbv zeta. repeat split; vm_compute; reflexivity. Qed.

(** A stored attachment and a missing one. *)
Lemma attachment_worker_example :
  res (attachment_worker Demo.offline "uploads" Demo.report "u1"
         Demo.with_attachment)
  = Return (AttStored "650000000000000000000001" "report.txt" "f42"
              "u1/attachments/f42/report.txt" 9)
  /\ inserted (events (attachment_worker Demo.offline "uploads" Demo.report
                         "u1" Demo.with_attachment))
     = [ {| att_user := "u1"; att_path := "u1/attachments/f42/report.txt";
            att_content := "quarterly"; att_token_count := 9;
            att_date := 0 |} ]
  /\ res (attachment_worker Demo.offline "uploads" Demo.report "u1"
            Demo.start)
     = Return (AttError "File not found").
Proof. repeat split; vm_compute; reflexivity. Qed.

(** ** Chains of archives

    A single chain is unpacked completely as long as its nesting depth is
    within the limit; one level more and the innermost archive stays
    packed, with a warning and without an exception. *)
Lemma extract_zip_recursive_chain_examples :
  let within :=
    extract_zip_recursive (Demo.world (Plain "")) 10 "temp/u1/job1/top.zip"
      "temp/u1/job1" 0 RECURSION_DEPTH
      (mkState (Demo.with_upload "top.zip" (Demo.nested_zip 3)) 0) in
  let beyond :=
    extract_zip_recursive (Demo.world (Plain "")) 10 "temp/u1/job1/top.zip"
      "temp/u1/job1" 0 RECURSION_DEPTH
      (mkState (Demo.with_upload "top.zip" (Demo.nested_zip 4)) 0) in
  nesting_depth (Demo.nested_zip 3) = 2
  /\ res within = Return tt
  /\ archives_left (fs (final within)) = []
  /\ read_file (fs (final within)) "temp/u1/job1/deep.md" = Ok (Plain "deep")
  /\ nesting_depth (Demo.nested_zip 4) = 3
  /\ res beyond = Return tt
  /\ archives_left (fs (final beyond)) = ["level0.zip"]
  /\ events beyond
     = [EvExtract "temp/u1/job1/top.zip" "temp/u1/job1" 0;
        EvExtract "temp/u1/job1/level2.zip" "temp/u1/job1" 1;
        EvExtract "temp/u1/job1/level1.zip" "temp/u1/job1" 2;
        EvLog "WARNING" "Reached maximum recursion depth of 2"].
Proof. cbv zeta. repeat split; vm_compute; reflexivity. Qed.

(** * Further properties of the workers *)

(** ** Reading and writing files *)

Lemma put_entry_assoc {A} (k : string) (o : option A)
  (l : list (string * A)) :
  assoc k (put_entry k o l) = o.
Proof.
  destruct o; simpl; [apply assoc_set_entry|apply assoc_del_entry].
Qed.

(** What sits at a path after a successful [alter] is what the function
    returned for what sat there before. *)
Lemma alter_lookup (name : string) f (p : list string) :
  p <> [] ->
  forall n n',
    alter name f n p = Ok n' ->
    exists o, f (lookup n p) = Ok o /\ lookup n' p = o.
Proof.
  induction p as [|c p IH]; intros Hp n n' H; [congruence|].
  destruct n as [d|es]; [discriminate|].
  destruct p as [|c' p'].
  - simpl in H. destruct (f (assoc c es)) as [o|e] eqn:Ef; [|discriminate].
    injection H as <-. exists o. simpl.
    rewrite put_entry_assoc. split; [|now destruct o].
    destruct (assoc c es); exact Ef.
  - change (alter name f (Dir es) (c :: c' :: p'))
      with (match assoc c es with
            | None => Err (FileNotFoundError name)
            | Some m0 =>
                match alter name f m0 (c' :: p') with
                | Ok m1 => Ok (Dir (set_entry c m1 es))
                | Err e => Err e
                end
            end) in H.
    destruct (assoc c es) as [m|] eqn:Ea; [|discriminate].
    destruct (alter name f m (c' :: p')) as [m'|e] eqn:Em; [|discriminate].
    injection H as <-.
    destruct (IH ltac:(discriminate) m m' Em) as (o & Hf & Hl).
    exists o. split.
    + change (lookup (Dir es) (c :: c' :: p'))
        with (match assoc c es with
              | Some m0 => lookup m0 (c' :: p')
              | None => None
              end).
      now rewrite Ea.
    + change (lookup (Dir (set_entry c m' es)) (c :: c' :: p'))
        with (match assoc c (set_entry c m' es) with
              | Some m0 => lookup m0 (c' :: p')
              | None => None
              end).
      now rewrite assoc_set_entry.
Qed.

(** A file that was written can be read back. *)
Lemma write_then_read (root root' : node) (p : string) (d : data) :
  write_file root p d = Ok root' -> read_file root' p = Ok d.
Proof.
  unfold write_file, read_file.
  destruct (String.eqb p ""); [discriminate|]. intros H.
  destruct (names_directory p);
    destruct (split_path p) as [|c q] eqn:Ep.
  - simpl in H. destruct root; discriminate.
  - apply alter_lookup in H as (o & Hf & Hl); [|discriminate].
    destruct (lookup root (c :: q)) as [[|]|]; discriminate.
  - simpl in H. destruct root; [now injection H as <-|discriminate].
  - apply alter_lookup in H as (o & Hf & Hl); [|discriminate].
    rewrite Hl.
    destruct (lookup root (c :: q)) as [[|]|]; try discriminate;
      now injection Hf as <-.
Qed.

(** The errors of [alter] are those of the function it applies and the
    path errors of the operating system, never a transport error. *)
Lemma alter_error_kind (name : string) f :
  (forall o e, f o = Err e -> is_request_exception e = false) ->
  forall p n e,
    alter name f n p = Err e -> is_request_exception e = false.
Proof.
  intros Hf. induction p as [|c p IH]; intros n e H.
  - simpl in H. destruct (f (Some n)) as [[|]|e'] eqn:Ef; try discriminate.
    + now injection H as <-.
    + injection H as <-. eapply Hf, Ef.
  - destruct n as [d|es]; [simpl in H; now injection H as <-|].
    destruct p as [|c' p'].
    + simpl in H. destruct (f (assoc c es)) as [o|e'] eqn:Ef; [discriminate|].
      injection H as <-. eapply Hf, Ef.
    + change (alter name f (Dir es) (c :: c' :: p'))
        with (match assoc c es with
              | None => Err (FileNotFoundError name)
              | Some m0 =>
                  match alter name f m0 (c' :: p') with
                  | Ok m1 => Ok (Dir (set_entry c m1 es))
                  | Err e => Err e
                  end
              end) in H.
      destruct (assoc c es) as [m|]; [|now injection H as <-].
      destruct (alter name f m (c' :: p')) as [m'|e'] eqn:Em; [discriminate|].
      injection H as <-. eapply IH, Em.
Qed.

Lemma write_file_error_kind (root : node) (p : string) (d : data) e :
  write_file root p d = Err e -> is_request_exception e = false.
Proof.
  unfold write_file. destruct (String.eqb p ""); [now intros [= <-]|].
  apply alter_error_kind.
  intros [[|]|] e'; destruct (names_directory p); try discriminate;
    now intros [= <-].
Qed.

(** ** Generated names *)

Lemma string_get_some (s : string) :
  forall k, k < String.length s -> exists c, String.get k s = Some c.
Proof.
  induction s as [|c s IH]; intros k Hk; simpl in *; [lia|].
  destruct k as [|k]; [now exists c|]. apply IH. lia.
Qed.

Lemma concat_empty_cons (x : string) (l : list string) :
  String.concat "" (x :: l) = (x ++ String.concat "" l)%string.
Proof.
  destruct l as [|y l]; simpl; auto.
  induction x as [|c x IH]; simpl; auto. now rewrite <- IH.
Qed.

(** The letter [generate_random_string] puts at position [i]. *)
Lemma letter_at (i : nat) :
  exists c,
    String.get (i mod 52) ascii_letters = Some c
    /\ match String.get (i mod 52) ascii_letters with
       | Some c => String c ""
       | None => ""
       end = String c "".
Proof.
  destruct (string_get_some ascii_letters (i mod 52)) as [c Hc].
  - change (String.length ascii_letters) with 52.
    apply Nat.mod_upper_bound. discriminate.
  - exists c. now rewrite Hc.
Qed.

Lemma letters_from (n : nat) :
  forall a,
    let s :=
      String.concat ""
        (map (fun i => match String.get (i mod 52) ascii_letters with
                       | Some c => String c ""
                       | None => ""
                       end) (seq a n)) in
    String.length s = n
    /\ forall i, i < n ->
                 String.get i s = String.get ((a + i) mod 52) ascii_letters.
Proof.
  induction n as [|n IH]; intros a; cbv zeta.
  - split; [reflexivity|]. intros i Hi. lia.
  - cbn [seq map]. rewrite concat_empty_cons.
    destruct (letter_at a) as (c & Hc & ->).
    destruct (IH (S a)) as [Hlen Hget]. cbn [String.append].
    split; [cbn [String.length]; now rewrite Hlen|].
    intros [|i] Hi; cbn [String.get].
    + now rewrite Nat.add_0_r, Hc.
    + rewrite Hget by lia. f_equal. f_equal. lia.
Qed.

(** X1.  [generate_random_string(length)] is not random: the result has
    exactly [length] characters and its character at position [i] is the
    letter at position [i mod 52] of [string.ascii_letters], so the name
    for a shorter length is the beginning of the name for a longer one. *)
Theorem generate_random_string_letters (length : nat) :
  String.length (generate_random_string length) = length
  /\ (forall i, i < length ->
                String.get i (generate_random_string length)
                = String.get (i mod 52) ascii_letters)
  /\ (forall shorter i, i < shorter -> shorter <= length ->
                        String.get i (generate_random_string shorter)
                        = String.get i (generate_random_string length)).
Proof.
  destruct (letters_from length 0) as [Hlen Hget].
  split; [exact Hlen|]. split; [exact Hget|].
  intros shorter i Hi Hle.
  destruct (letters_from shorter 0) as [_ Hget'].
  unfold generate_random_string.
  rewrite Hget' by lia. rewrite Hget by lia. reflexivity.
Qed.

Lemma generate_random_string_letters_witness :
  String.get 53 (generate_random_string 60) = Some "b"%char
  /\ String.get 3 (generate_random_string 5)
     = String.get 3 (generate_random_string 60).
Proof.
  destruct (generate_random_string_letters 60) as (_ & Hget & Hprefix).
  split.
  - rewrite (Hget 53) by lia. reflexivity.
  - apply Hprefix; lia.
Defined.

(** ** The set-up of the working directory *)




(** The set-up step over a regular file: the exception names the level
    below the file, not the whole path. *)
Lemma ensure_dir_file_in_the_way :
  mkdir_levels "temp/u1/job1"
  = [("temp", "temp"); ("u1", "temp/u1"); ("job1", "temp/u1/job1")]
  /\ res (ensure_dir "temp/u1/job1"
            (mkState (Dir [("temp", File (Plain "in the way"))]) 0))
     = Raise (NotADirectoryError "temp/u1")
  /\ res (ensure_dir "temp/u1/job1"
            (mkState (Dir [("temp", Dir [("u1", File (Plain "x"))])]) 0))
     = Raise (NotADirectoryError "temp/u1/job1")
  /\ res (ensure_dir "temp/u1/"
            (mkState (Dir [("temp", Dir [("u1", File (Plain "x"))])]) 0))
     = Raise (FileExistsError "temp/u1/")
  /\ res (ensure_dir "temp/u1/job1" (mkState (Dir []) 0)) = Return tt.
Proof. repeat split; vm_compute; reflexivity. Qed.

(** ** Transfers *)

(** X3.  A download whose request is answered with a status outside
    400..599 writes the response body to the destination: when the write
    succeeds the call returns, the only event is the GET, and the
    destination reads back as the body; when the write fails (say the
    directory is missing) the error of [open] is raised as it is, without
    the log record that the [except] clause keeps for transport errors. *)
Theorem download_file_stores_body {X} (env : Env X) (url : string)
  (params : dict) (dest_path : string) (s : State X) (resp : Response)
  (x : X) :
  requests_get env url params (ext s) = (Ok resp, x) ->
  is_error_status resp = false ->
  let run := download_file env url params dest_path s in
  events run = [EvGet url params]
  /\ ext (final run) = x
  /\ match write_file (fs s) dest_path (content resp) with
     | Ok root' =>
         res run = Return tt
         /\ fs (final run) = root'
         /\ read_file (fs (final run)) dest_path = Ok (content resp)
     | Err e => res run = Raise e /\ fs (final run) = fs s
     end.
Proof.
  intros Hget Hstatus. cbv zeta.
  unfold download_file, try_except, logging_error, bind, ext_op, fs_op,
    tell, raise, ret, res, final, events.
  forward Hget. rewrite raise_for_status_run, Hstatus.
  cbv beta iota zeta; cbn [fs ext].
  destruct (write_file (fs s) dest_path (content resp)) as [root'|e] eqn:Ew;
    cbv beta iota zeta; cbn [fst snd fs ext].
  - repeat split; auto. eapply write_then_read, Ew.
  - rewrite (write_file_error_kind _ _ _ _ Ew). cbn [fst snd fs ext].
    repeat split; auto.
Qed.

Lemma download_file_stores_body_witness :
  read_file
    (fs (final (download_file (Demo.world Demo.notes_zip)
                  "http://localhost:7091/api/download" []
                  "temp/u1/job1/notes.zip"
                  (mkState (Demo.with_upload "left.txt" (Plain "earlier")) 0))))
    "temp/u1/job1/notes.zip" = Ok Demo.notes_zip.
Proof.
  pose proof (download_file_stores_body (Demo.world Demo.notes_zip)
                "http://localhost:7091/api/download" []
                "temp/u1/job1/notes.zip"
                (mkState (Demo.with_upload "left.txt" (Plain "earlier")) 0)
                {| status_code := 200; content := Demo.notes_zip |} 0
                eq_refl eq_refl) as (_ & _ & H).
  cbv zeta in H.
  destruct (write_file
              (fs (mkState (Demo.with_upload "left.txt" (Plain "earlier")) 0))
              "temp/u1/job1/notes.zip"
              (content {| status_code := 200; content := Demo.notes_zip |}))
    as [root'|e] eqn:Ew.
  - exact (proj2 (proj2 H)).
  - vm_compute in Ew. discriminate.
Defined.

(** X4.  A download that fails in transport (the request raises a
    [RequestException]) raises that exception, logs it once as an error
    and leaves the file system as it was; any other exception of the
    request passes through without a log record.  A download that is
    answered with a status in 400..599 raises the [HTTPError] of
    [raise_for_status], a [RequestException] whose message gives the
    status, the kind of error (client below 500, server from 500 on),
    the reason and the address; it is logged once as an error, and
    nothing is written. *)
Theorem download_file_failure {X} (env : Env X) (address : string)
  (params : dict) (dest_path : string) (s : State X) :
  let run := download_file env address params dest_path s in
  match requests_get env address params (ext s) with
  | (Err e, x) =>
      res run = Raise e
      /\ fs (final run) = fs s
      /\ events run
         = EvGet address params
           :: (if is_request_exception e
               then [EvLog "ERROR" ("Error downloading file: " ++ str_exn e)]
               else [])
  | (Ok resp, x) =>
      is_error_status resp = true ->
      let msg :=
        (str_Z (status_code resp)
         ++ (if (status_code resp <? 500)%Z then " Client Error: "
             else " Server Error: ")
         ++ reason resp ++ " for url: " ++ url resp)%string in
      res run = Raise (HTTPError msg)
      /\ is_request_exception (HTTPError msg) = true
      /\ fs (final run) = fs s
      /\ events run
         = [EvGet address params;
            EvLog "ERROR" ("Error downloading file: " ++ msg)]
  end.
Proof.
  cbv zeta.
  unfold download_file, try_except, logging_error, bind, ext_op, fs_op,
    tell, raise, ret, res, final, events.
  destruct (requests_get env address params (ext s)) as [[resp|e] x];
    cbv beta iota zeta; cbn [fs ext].
  - intros Hstatus. rewrite raise_for_status_run, Hstatus.
    assert (Hmsg :
              http_error_msg resp
              = (str_Z (status_code resp)
                 ++ (if (status_code resp <? 500)%Z then " Client Error: "
                     else " Server Error: ")
                 ++ reason resp ++ " for url: " ++ url resp)%string).
    { unfold http_error_msg, is_error_status in *.
      apply andb_true_iff in Hstatus as [H4 H6]. rewrite H4, H6.
      destruct (status_code resp <? 500)%Z eqn:H5; cbn [andb]; auto.
      replace (500 <=? status_code resp)%Z with true; auto.
      symmetry. apply Z.leb_le. apply Z.ltb_ge in H5. exact H5. }
    rewrite Hmsg.
    cbv beta iota zeta; cbn [fst snd fs ext is_request_exception str_exn].
    repeat split.
  - destruct (is_request_exception e); cbv beta iota zeta;
      cbn [fst snd fs ext]; repeat split.
Qed.

Lemma download_file_failure_witness :
  res (download_file
         (Demo.demo_env Demo.not_found (fun names => names) [])
         "http://localhost:7091/api/download"
         [("name", VStr "job1"); ("file", VStr "notes.zip");
          ("user", VStr "u1")]
         "temp/u1/job1/notes.zip" Demo.start)
  = Raise (HTTPError
             "404 Client Error: NOT FOUND for url: http://localhost:7091/api/download?name=job1&file=notes.zip&user=u1").
Proof.
  pose proof (download_file_failure
                (Demo.demo_env Demo.not_found (fun names => names) [])
                "http://localhost:7091/api/download"
                [("name", VStr "job1"); ("file", VStr "notes.zip");
                 ("user", VStr "u1")]
                "temp/u1/job1/notes.zip" Demo.start) as H.
  cbv zeta in H. exact (proj1 (H eq_refl)).
Defined.

(** X5.  With the file-backed vector store ([VECTOR_STORE] is [faiss]),
    when one of the two index files cannot be opened, the error of
    [open] leaves the [try] block with [files] unbound; it is not a
    [RequestException], so the [except] clause lets it pass without a log
    record; the [finally] block then reads [files] and its
    [UnboundLocalError] is what [upload_index] raises, in place of the
    error of [open].  No request is sent and the state is as before. *)
Theorem upload_index_missing_index_files {X} (env : Env X)
  (full_path : string) (file_data : dict) (s : State X) (e : exn) :
  VECTOR_STORE env = "faiss" ->
  read_file (fs s) (full_path ++ "/index.faiss") = Err e
  \/ ((exists f1, read_file (fs s) (full_path ++ "/index.faiss") = Ok f1)
      /\ read_file (fs s) (full_path ++ "/index.pkl") = Err e) ->
  let opens :=
    (file_faiss <- open_rb (full_path ++ "/index.faiss") ;;
     file_pkl <- open_rb (full_path ++ "/index.pkl") ;;
     ret [("file_faiss", file_faiss); ("file_pkl", file_pkl)])%py in
  opens s = (Raise e, s, [])
  /\ is_request_exception e = false
  /\ upload_index env full_path file_data s
     = (Raise (UnboundLocalError "files"), s, []).
Proof.
  intros Hstore Hmissing. cbv zeta.
  split; [|split].
  - unfold open_rb, bind, gets, lift_call, ret.
    destruct Hmissing as [->|[[f1 ->] ->]]; reflexivity.
  - destruct Hmissing as [H|[_ H]]; eapply read_file_error_kind, H.
  - rewrite upload_index_run, Hstore.
    change (String.eqb "faiss" "faiss") with true. cbv iota.
    destruct Hmissing as [->|[[f1 ->] ->]]; reflexivity.
Qed.

Lemma upload_index_missing_index_files_witness :
  upload_index Demo.offline "temp/u1/job1" [] Demo.start
  = (Raise (UnboundLocalError "files"), Demo.start, []).
Proof.
  apply (upload_index_missing_index_files Demo.offline "temp/u1/job1" []
           Demo.start (FileNotFoundError "temp/u1/job1/index.faiss") eq_refl).
  left. reflexivity.
Defined.

(** X6.  Otherwise [upload_index] sends exactly one request, carrying the
    payload, and with the file-backed store the contents of the two
    index files under [file_faiss] and [file_pkl] (no files with any
    other store).  It never changes the file system, and it returns
    exactly when the request is answered with a status outside
    400..599. *)
Theorem upload_index_posts_once {X} (env : Env X) (full_path : string)
  (file_data : dict) (s : State X) (files : list (string * data)) :
  (VECTOR_STORE env <> "faiss" /\ files = [])
  \/ (VECTOR_STORE env = "faiss"
      /\ exists f1 f2,
           read_file (fs s) (full_path ++ "/index.faiss") = Ok f1
           /\ read_file (fs s) (full_path ++ "/index.pkl") = Ok f2
           /\ files = [("file_faiss", f1); ("file_pkl", f2)]) ->
  let run := upload_index env full_path file_data s in
  let url := urljoin env (API_URL env) "/api/upload_index" in
  post_payloads (events run) = [(files, file_data)]
  /\ fs (final run) = fs s
  /\ (is_return (res run) = true <->
      exists resp x,
        requests_post env url files file_data (ext s) = (Ok resp, x)
        /\ is_error_status resp = false).
Proof.
  intros Hcase. cbv zeta.
  assert (Hpost :
    let run := post_index env files file_data s in
    post_payloads (events run) = [(files, file_data)]
    /\ fs (final run) = fs s
    /\ (is_return (res run) = true <->
        exists resp x,
          requests_post env (urljoin env (API_URL env) "/api/upload_index")
            files file_data (ext s) = (Ok resp, x)
          /\ is_error_status resp = false)).
  { cbv zeta.
    unfold post_index, post, try_except, logging_error, bind, ext_op, tell,
      raise, ret, res, final, events.
    cbv beta iota zeta.
    destruct (requests_post env _ files file_data (ext s)) as [[resp|e] x];
      cbv beta iota zeta; cbn [fs ext].
    - rewrite raise_for_status_run.
      destruct (is_error_status resp) eqn:Es;
        cbv beta iota zeta; cbn [fst snd fs ext is_request_exception
                                   post_payloads app is_return].
      + repeat split; try discriminate.
        intros (resp' & x' & [= <- <-] & Hs). congruence.
      + repeat split; auto. intros _. now exists resp, x.
    - destruct (is_request_exception e); cbv beta iota zeta;
        cbn [fst snd fs ext post_payloads app is_return];
        repeat split; try discriminate;
        intros (resp' & x' & [=] & _). }
  rewrite upload_index_run.
  destruct Hcase as [[Hstore ->]|(Hstore & f1 & f2 & H1 & H2 & ->)].
  - apply String.eqb_neq in Hstore. rewrite Hstore. exact Hpost.
  - rewrite Hstore. change (String.eqb "faiss" "faiss") with true.
    cbv iota. rewrite H1, H2. exact Hpost.
Qed.

Lemma upload_index_posts_once_witness :
  post_payloads
    (events (upload_index Demo.offline "temp/u1/job1" [("name", VStr "job1")]
               (mkState
                  (Dir [("temp",
                         Dir [("u1",
                               Dir [("job1",
                                     Dir [("index.faiss", File (Plain "f"));
                                          ("index.pkl", File (Plain "p"))])])])])
                  0)))
  = [([("file_faiss", Plain "f"); ("file_pkl", Plain "p")],
      [("name", VStr "job1")])].
Proof.
  apply (upload_index_posts_once Demo.offline "temp/u1/job1"
           [("name", VStr "job1")] _
           [("file_faiss", Plain "f"); ("file_pkl", Plain "p")]).
  right. split; [reflexivity|].
  exists (Plain "f"), (Plain "p"). repeat split.
Defined.

(** ** More on archive extraction *)

(** X7.  An archive that cannot be opened (missing, a directory, or not
    a zip file) within the depth limit is logged as an error and left
    alone: the call returns, the file system is unchanged and no
    directory is walked.  When the extraction breaks off at some member,
    what was unpacked before stays, the archive is not removed, and the
    call returns in the same way. *)
Theorem extract_zip_recursive_failed_archive {X} (env : Env X) (fuel : nat)
  (zip_path extract_to : string) (current_depth max_depth : Z)
  (s : State X) :
  (current_depth <= max_depth)%Z ->
  let run := extract_zip_recursive env (S fuel) zip_path extract_to
               current_depth max_depth s in
  let logged e :=
    [EvExtract zip_path extract_to current_depth;
     EvLog "ERROR"
       ("Error extracting zip file " ++ zip_path ++ ": " ++ str_exn e)] in
  match zipfile_open (fs s) zip_path with
  | Err e => run = (Return tt, s, logged e)
  | Ok members =>
      forall e root',
        extractall (fs s) extract_to members = (Err e, root') ->
        run = (Return tt, mkState root' (ext s), logged e)
  end.
Proof.
  intros Hle. cbv zeta.
  assert (Hgt : (current_depth >? max_depth)%Z = false)
    by (rewrite Z.gtb_ltb; apply Z.ltb_ge; lia).
  cbn [extract_zip_recursive]. rewrite Hgt.
  unfold try_except, any_exception, zip_extractall, logging_error, bind,
    fs_op, tell, ret.
  destruct (zipfile_open (fs s) zip_path) as [members|e];
    cbv beta iota zeta; cbn [fs ext]; [|reflexivity].
  intros e root' Hx. rewrite Hx. reflexivity.
Qed.

Lemma extract_zip_recursive_failed_archive_witness :
  extract_zip_recursive (Demo.world (Plain "")) 1 "temp/u1/job1/notes.zip"
    "temp/u1/job1" 0 2
    (mkState (Demo.with_upload "notes.zip" (Plain "not an archive")) 0)
  = (Return tt,
     mkState (Demo.with_upload "notes.zip" (Plain "not an archive")) 0,
     [EvExtract "temp/u1/job1/notes.zip" "temp/u1/job1" 0;
      EvLog "ERROR"
        "Error extracting zip file temp/u1/job1/notes.zip: File is not a zip file"]).
Proof.
  apply (extract_zip_recursive_failed_archive (Demo.world (Plain "")) 0
           "temp/u1/job1/notes.zip" "temp/u1/job1" 0 2
           (mkState (Demo.with_upload "notes.zip" (Plain "not an archive")) 0)).
  lia.
Defined.

Section InPlace.

Context {X : Type}.
Variable env : Env X.

(** The archives a call may open: the one it was given, and below it
    archives opened where they lie. *)
Lemma emits_opened_in_place (zip0 to0 : string) (depth0 max_depth : Z)
  (fuel : nat) :
  let ok ev :=
    match ev with
    | EvExtract z t d =>
        (z = zip0 /\ t = to0 /\ d = depth0)
        \/ (opened_in_place z t /\ (depth0 < d)%Z)
    | _ => True
    end in
  forall zip_path extract_to current_depth,
    ok (EvExtract zip_path extract_to current_depth) ->
    (depth0 <= current_depth)%Z ->
    emits ok (extract_zip_recursive env fuel zip_path extract_to
                current_depth max_depth).
Proof.
  intros ok.
  induction fuel as [|fuel IH]; intros zp to cd Hok Hle; simpl;
    destruct (cd >? max_depth)%Z;
    try (now apply emits_tell); try apply emits_out_of_fuel.
  apply emits_bind.
  - apply emits_try_except.
    + apply emits_bind; [now apply emits_tell|intros _].
      apply emits_bind; [apply emits_zip_extractall|intros _].
      apply emits_bind; [apply emits_fs_op|intros _]. apply emits_ret.
    + intros e. apply emits_bind; [now apply emits_tell|intros _].
      apply emits_ret.
  - intros [|]; [|apply emits_ret].
    apply emits_os_walk. intros root dirs files.
    apply emits_for_each. intros file.
    destruct (endswith file ".zip") eqn:Hzip; [|apply emits_ret].
    apply IH; [|lia]. right. split; [|lia].
    exists file. now split.
Qed.

End InPlace.

(** X8.  Apart from the archive the caller names, [extract_zip_recursive]
    opens only files whose name ends in [.zip], each one one or more
    levels deeper than the call, and unpacks each into the directory that
    holds it. *)
Theorem extract_zip_recursive_opens_in_place {X} (env : Env X) (fuel : nat)
  (zip_path extract_to : string) (current_depth max_depth : Z)
  (s : State X) :
  Forall
    (fun ev =>
       match ev with
       | EvExtract z t d =>
           (z = zip_path /\ t = extract_to /\ d = current_depth)
           \/ (opened_in_place z t /\ (current_depth < d)%Z)
       | _ => True
       end)
    (events (extract_zip_recursive env fuel zip_path extract_to
               current_depth max_depth s)).
Proof.
  apply (emits_opened_in_place env zip_path extract_to current_depth
           max_depth fuel zip_path extract_to current_depth); [|lia].
  left. auto.
Qed.

(** ** Completed runs of the two flows *)

Lemma embed_targets_app (t1 t2 : list event) :
  embed_targets (t1 ++ t2) = embed_targets t1 ++ embed_targets t2.
Proof.
  induction t1 as [|ev t1 IH]; simpl; auto.
  destruct ev; simpl; auto. now rewrite IH.
Qed.

Lemma post_payloads_app (t1 t2 : list event) :
  post_payloads (t1 ++ t2) = post_payloads t1 ++ post_payloads t2.
Proof.
  induction t1 as [|ev t1 IH]; simpl; auto.
  destruct ev; simpl; auto. now rewrite IH.
Qed.

(** Events that are neither a call to the embedding sink nor an index
    upload contribute nothing to the readings of those calls. *)
Lemma silent_events (tr : list event) :
  Forall silent tr ->
  embed_calls tr = [] /\ embed_targets tr = [] /\ post_payloads tr = [].
Proof.
  induction 1 as [|ev tr [He Hp] _ (IH1 & IH2 & IH3)]; simpl; auto.
  destruct ev; auto; discriminate.
Qed.

Section CompletedRuns.

Context {X : Type}.
Variable env : Env X.

Lemma chunk_return_inv policy docs (s s' : State X) chunks t :
  chunk env policy docs s = (Return chunks, s', t) ->
  t = [EvChunk policy docs]
  /\ chunker_chunk env policy docs (ext s) = (Ok chunks, ext s').
Proof.
  unfold chunk, bind, tell, ext_op.
  destruct (chunker_chunk env policy docs (ext s)) as [[c|e] x];
    intros [= <- <- <-]; auto.
Qed.

Lemma embed_return_inv docs p i (s s' : State X) u t :
  embed env docs p i s = (Return u, s', t) -> t = [EvEmbed docs p i].
Proof.
  unfold embed, bind, tell.
  destruct (embed_and_store_documents env docs p i (fs s) (ext s))
    as [[[|e] root] x]; intros [= <- <- <-]; auto.
Qed.

(** A new identifier is the one the identifier source gives in the state
    of the call. *)
Lemma fresh_ObjectId_inv (s s' : State X) r t :
  fresh_ObjectId env s = (r, s', t) ->
  t = []
  /\ exists id, r = Return id /\ new_ObjectId env (ext s) = (id, ext s').
Proof.
  unfold fresh_ObjectId. destruct (new_ObjectId env (ext s)) as [id x].
  intros [= <- <- <-]. split; [reflexivity|]. now exists id.
Qed.

Lemma lift_call_return_inv {A} (c : call A) (s s' : State X) a t :
  lift_call c s = (Return a, s', t) -> c = Ok a /\ t = [] /\ s' = s.
Proof. unfold lift_call. destruct c; intros [= <- <- <-]; auto. Qed.

Lemma fs_op_inv f (s s' : State X) r t :
  fs_op f s = (r, s', t) -> t = [].
Proof. unfold fs_op. destruct (f (fs s)); now intros [= <- <- <-]. Qed.

Lemma post_index_return_inv files d (s s' : State X) u t :
  post_index env files d s = (Return u, s', t) ->
  t = [EvPost (urljoin env (API_URL env) "/api/upload_index") files d].
Proof.
  unfold post_index, post, try_except, logging_error, bind, ext_op, tell,
    raise, ret.
  destruct (requests_post env (urljoin env (API_URL env) "/api/upload_index")
              files d (ext s)) as [[resp|e] x];
    cbv beta iota zeta.
  - rewrite raise_for_status_run.
    destruct (is_error_status resp); cbv beta iota zeta;
      cbn [is_request_exception]; intros [= <- <- <-]; auto.
  - destruct (is_request_exception e); cbv beta iota zeta;
      intros [= <- <- <-].
Qed.

(** An upload that returns has sent exactly one request, with the
    payload it was given. *)
Lemma upload_index_return_inv p d (s s' : State X) u t :
  upload_index env p d s = (Return u, s', t) ->
  exists files,
    t = [EvPost (urljoin env (API_URL env) "/api/upload_index") files d].
Proof.
  rewrite upload_index_run.
  destruct (String.eqb (VECTOR_STORE env) "faiss").
  - destruct (read_file (fs s) (p ++ "/index.faiss")) as [f1|e1];
      [|discriminate].
    destruct (read_file (fs s) (p ++ "/index.pkl")) as [f2|e2];
      [|discriminate].
    intros H. apply post_index_return_inv in H as ->. now eexists.
  - intros H. apply post_index_return_inv in H as ->. now exists [].
Qed.

Lemma ingest_worker_completed_run fuel directory formats name_job filename
  user retriever (s s' : State X) v tr :
  ingest_worker env fuel directory formats name_job filename user retriever s
  = (Return v, s', tr) ->
  let full_path := os_path_join directory [user; name_job] in
  v = {| res_directory := directory; res_formats := formats;
         res_name_job := name_job; res_filename := filename;
         res_user := user; res_limited := false |}
  /\ exists raw chunks x x' x'' id tokens files,
       In (EvChunk chunk_policy raw) tr
       /\ chunker_chunk env chunk_policy raw x = (Ok chunks, x')
       /\ new_ObjectId env x' = (id, x'')
       /\ embed_calls tr = [map (to_langchain_format env) chunks]
       /\ embed_targets tr = [(full_path, id)]
       /\ count_tokens_docs env (map (to_langchain_format env) chunks)
          = Ok tokens
       /\ post_payloads tr
          = [(files,
              local_payload name_job filename user retriever tokens id)].
Proof.
  intros Hrun. cbv zeta. unfold ingest_worker in Hrun.
  apply bind_return_inv in Hrun as (? & s1 & t1 & ? & H1 & Hrun & ->).
  apply tell_inv in H1 as (_ & -> & ->).
  apply bind_return_inv in Hrun as (? & s2 & t2 & ? & H2 & Hrun & ->).
  apply ensure_dir_inv in H2 as (-> & _ & _).
  apply bind_return_inv in Hrun as (? & s3 & t3 & ? & H3 & Hrun & ->).
  assert (Hq3 : Forall silent t3).
  { match type of H3 with
    | ?m ?s0 = _ =>
        assert (Hq : emits silent m)
          by (apply emits_download_file; now intros);
        specialize (Hq s0); now rewrite H3 in Hq
    end. }
  clear H3.
  apply bind_return_inv in Hrun as (? & s4 & t4 & ? & H4 & Hrun & ->).
  assert (Hq4 : Forall silent t4).
  { destruct (endswith filename ".zip").
    - match type of H4 with
      | ?m ?s0 = _ =>
          assert (Hq : emits silent m)
            by (apply emits_extract_zip_recursive; now intros);
          specialize (Hq s0); now rewrite H4 in Hq
      end.
    - injection H4 as _ _ <-. constructor. }
  clear H4.
  apply bind_return_inv in Hrun as (? & s5 & t5 & ? & H5 & Hrun & ->).
  apply update_state_inv in H5 as (-> & _ & _).
  apply bind_return_inv in Hrun as (raw & s6 & t6 & ? & H6 & Hrun & ->).
  assert (Hq6 : Forall silent t6).
  { match type of H6 with
    | ?m ?s0 = _ =>
        assert (Hq : emits silent m) by (now apply emits_load_data);
        specialize (Hq s0); now rewrite H6 in Hq
    end. }
  clear H6.
  apply bind_return_inv in Hrun as (chunks & s7 & t7 & ? & H7 & Hrun & ->).
  apply chunk_return_inv in H7 as (-> & Hchunk).
  apply bind_return_inv in Hrun as (id & s8 & t8 & ? & H8 & Hrun & ->).
  apply fresh_ObjectId_inv in H8 as (-> & id' & [= <-] & Hid).
  apply bind_return_inv in Hrun as (? & s9 & t9 & ? & H9 & Hrun & ->).
  apply embed_return_inv in H9 as ->.
  apply bind_return_inv in Hrun as (tokens & s10 & t10 & ? & H10 & Hrun & ->).
  apply lift_call_return_inv in H10 as (Htok & -> & _).
  apply bind_return_inv in Hrun as (? & s11 & t11 & ? & H11 & Hrun & ->).
  apply update_state_inv in H11 as (-> & _ & _).
  apply bind_return_inv in Hrun as (? & s12 & t12 & ? & H12 & Hrun & ->).
  injection H12 as _ <- <-.
  apply bind_return_inv in Hrun as (? & s13 & t13 & ? & H13 & Hrun & ->).
  apply upload_index_return_inv in H13 as (files & ->).
  apply bind_return_inv in Hrun as (? & s14 & t14 & ? & H14 & Hrun & ->).
  apply fs_op_inv in H14 as ->.
  injection Hrun as <- _ <-.
  split; [reflexivity|].
  exists raw, chunks, (ext s6), (ext s7), (ext s8), id, tokens, files.
  destruct (silent_events _ Hq3) as (Ha3 & Hb3 & Hc3).
  destruct (silent_events _ Hq4) as (Ha4 & Hb4 & Hc4).
  destruct (silent_events _ Hq6) as (Ha6 & Hb6 & Hc6).
  split; [|split; [exact Hchunk|split; [exact Hid|split; [|split; [|split]]]]].
  - repeat rewrite in_app_iff. cbn [In]. intuition auto.
  - repeat (rewrite embed_calls_app; cbn [embed_calls app]).
    now rewrite Ha3, Ha4, Ha6.
  - repeat (rewrite embed_targets_app; cbn [embed_targets app]).
    now rewrite Hb3, Hb4, Hb6.
  - exact Htok.
  - repeat (rewrite post_payloads_app; cbn [post_payloads app]).
    now rewrite Hc3, Hc4, Hc6.
Qed.

End CompletedRuns.

Section CompletedRemote.

Context {X : Type}.
Variable env : Env X.

Lemma remote_cleanup_return_inv p (s s' : State X) u t :
  remote_cleanup p s = (Return u, s', t) ->
  t = [] /\ os_path_exists (fs s') p = false.
Proof.
  unfold remote_cleanup, bind, gets, fs_op, ret.
  destruct (os_path_exists (fs s) p) eqn:Ex; cbv beta iota zeta.
  - destruct (shutil_rmtree (fs s) p) as [root'|e] eqn:Er;
      intros [= <- <- <-]. split; auto.
    eapply shutil_rmtree_ok_gone, Er.
  - intros [= <- <- <-]. auto.
Qed.

(** The branch of the remote flow that binds [id]: when it returns it
    has called the embedding sink once, under a new identifier in upload
    mode and under the identifier it was given in sync mode. *)
Lemma remote_id_branch_inv j p docs (s s' : State X) o t :
  (if String.eqb (operation_mode j) "upload" then
     bind (fresh_ObjectId env)
       (fun id => bind (embed env docs p id) (fun _ => ret (Some id)))
   else if String.eqb (operation_mode j) "sync" then
     if invalid_doc_id env (doc_id j) then
       bind (logging_error
               ("Invalid doc_id provided for sync operation: "
                ++ match doc_id j with Some d => d | None => "None" end))
         (fun _ =>
            raise (ValueError "doc_id must be provided for sync operation."))
     else
       bind (lift_call
               (ObjectId_from env
                  (match doc_id j with Some d => d | None => "" end)))
         (fun id => bind (embed env docs p id) (fun _ => ret (Some id)))
   else ret None) s = (Return o, s', t) ->
  (o = None /\ t = []
   /\ operation_mode j <> "upload" /\ operation_mode j <> "sync")
  \/ exists id,
       o = Some id /\ t = [EvEmbed docs p id]
       /\ ((operation_mode j = "upload"
            /\ exists x, new_ObjectId env (ext s) = (id, x))
           \/ (operation_mode j = "sync"
               /\ exists d, doc_id j = Some d
                            /\ invalid_doc_id env (Some d) = false
                            /\ ObjectId_from env d = Ok id)).
Proof.
  destruct (String.eqb (operation_mode j) "upload") eqn:Eu.
  - apply String.eqb_eq in Eu. intros H.
    apply bind_return_inv in H as (id & s1 & t1 & t2 & H1 & H & ->).
    apply fresh_ObjectId_inv in H1 as (-> & id' & [= <-] & Hid).
    apply bind_return_inv in H as (? & s2 & t3 & t4 & H2 & H & ->).
    apply embed_return_inv in H2 as ->. injection H as <- _ <-.
    right. exists id. split; [reflexivity|]. split; [reflexivity|].
    left. split; [exact Eu|]. eexists. exact Hid.
  - apply String.eqb_neq in Eu.
    destruct (String.eqb (operation_mode j) "sync") eqn:Es.
    + apply String.eqb_eq in Es.
      destruct (invalid_doc_id env (doc_id j)) eqn:Ei; intros H.
      * apply bind_return_inv in H as (? & s1 & t1 & t2 & _ & H & ->).
        discriminate.
      * apply bind_return_inv in H as (id & s1 & t1 & t2 & H1 & H & ->).
        apply lift_call_return_inv in H1 as (Hid & -> & ->).
        apply bind_return_inv in H as (? & s2 & t3 & t4 & H2 & H & ->).
        apply embed_return_inv in H2 as ->. injection H as <- _ <-.
        right. exists id. split; [reflexivity|]. split; [reflexivity|].
        right. split; [exact Es|].
        destruct (doc_id j) as [d|]; [|discriminate]. now exists d.
    + apply String.eqb_neq in Es. intros [= <- <- <-]. left. auto.
Qed.

Lemma remote_worker_completed_run j (s s' : State X) v tr :
  remote_worker env j s = (Return v, s', tr) ->
  v = {| rr_urls := source_data j; rr_name_job := name_job j;
         rr_user := user j; rr_limited := false |}
  /\ os_path_exists (fs s') (job_path j) = false
  /\ exists raw x x' chunks x'' id tokens files,
       loader_load_data env (loader j) (source_data j) x = (Ok raw, x')
       /\ chunker_chunk env chunk_policy raw x' = (Ok chunks, x'')
       /\ embed_calls tr = [map (to_langchain_format env) raw]
       /\ embed_targets tr = [(job_path j, id)]
       /\ ((operation_mode j = "upload"
            /\ exists x3, new_ObjectId env x'' = (id, x3))
           \/ (operation_mode j = "sync"
               /\ exists d, doc_id j = Some d
                            /\ invalid_doc_id env (Some d) = false
                            /\ ObjectId_from env d = Ok id))
       /\ count_tokens_docs env (map (to_langchain_format env) raw)
          = Ok tokens
       /\ post_payloads tr = [(files, remote_payload j tokens id)]
       /\ last tr (EvLog "" "")
          = EvLog "INFO" "remote_worker task completed successfully".
Proof.
  intros Hrun. unfold remote_worker in Hrun.
  apply bind_return_inv in Hrun as (? & s1 & t1 & ? & H1 & Hrun & ->).
  apply tell_inv in H1 as (_ & -> & ->).
  apply bind_return_inv in Hrun as (? & s2 & t2 & ? & H2 & Hrun & ->).
  apply ensure_dir_inv in H2 as (-> & _ & _).
  apply bind_return_inv in Hrun as (? & s3 & t3 & ? & H3 & Hrun & ->).
  apply update_state_inv in H3 as (-> & _ & _).
  apply bind_return_inv in Hrun as (? & s4 & t4 & ? & H4 & Hrun & ->).
  apply bind_return_inv in Hrun as (? & s5 & t5 & ? & H5 & Hrun & ->).
  apply tell_inv in H5 as (_ & -> & ->).
  injection Hrun as <- <- <-.
  apply try_finally_return_inv in H4 as (s6 & t6 & t7 & Hbody & Hclean & ->).
  apply remote_cleanup_return_inv in Hclean as (-> & Hgone).
  unfold remote_guarded in Hbody.
  apply try_except_reraise_return_inv in Hbody.
  2: { intros e. apply fails_bind_r. intro. apply fails_raise. }
  unfold remote_body in Hbody.
  apply bind_return_inv in Hbody as (? & b1 & u1 & ? & B1 & Hbody & ->).
  apply tell_inv in B1 as (_ & -> & ->).
  apply bind_return_inv in Hbody as (? & b2 & u2 & ? & B2 & Hbody & ->).
  apply tell_inv in B2 as (_ & -> & ->).
  apply bind_return_inv in Hbody as (? & b3 & u3 & ? & B3 & Hbody & ->).
  apply ext_op_inv in B3 as (c3 & y3 & _ & -> & -> & _).
  apply bind_return_inv in Hbody as (? & b4 & u4 & ? & B4 & Hbody & ->).
  apply tell_inv in B4 as (_ & -> & ->).
  apply bind_return_inv in Hbody as (raw & b5 & u5 & ? & B5 & Hbody & ->).
  apply ext_op_inv in B5 as (c5 & y5 & Hload & -> & -> & Hc5).
  destruct c5 as [raw'|e5]; [|discriminate]. injection Hc5 as ->.
  apply bind_return_inv in Hbody as (chunks & b6 & u6 & ? & B6 & Hbody & ->).
  apply chunk_return_inv in B6 as (-> & Hchunk).
  apply bind_return_inv in Hbody as (tokens & b7 & u7 & ? & B7 & Hbody & ->).
  apply lift_call_return_inv in B7 as (Htok & -> & ->).
  apply bind_return_inv in Hbody as (? & b8 & u8 & ? & B8 & Hbody & ->).
  apply tell_inv in B8 as (_ & -> & ->).
  apply bind_return_inv in Hbody as (o & b9 & u9 & ? & B9 & Hbody & ->).
  apply bind_return_inv in Hbody as (? & b10 & u10 & ? & B10 & Hbody & ->).
  apply update_state_inv in B10 as (-> & _ & _).
  apply bind_return_inv in Hbody as (id_str & b11 & u11 & ? & B11 & Hbody & ->).
  apply remote_id_branch_inv in B9
    as [(-> & _)|(id & -> & -> & Hmode)]; [discriminate|].
  injection B11 as <- _ <-.
  apply upload_index_return_inv in Hbody as (files & ->).
  split; [reflexivity|]. split; [exact Hgone|].
  cbn [ext] in *.
  exists raw', y3, y5, chunks, (ext b6), id, tokens, files.
  split; [exact Hload|]. split; [exact Hchunk|].
  split; [reflexivity|]. split; [reflexivity|].
  split; [exact Hmode|]. split; [exact Htok|]. split; reflexivity.
Qed.

End CompletedRemote.

(** X9.  A run of the local upload flow that completes returns the
    summary of its arguments with [limited] false; it has called the
    chunker, embedded exactly once, the chunker's output converted to the
    final format, under the working directory and the identifier that
    [ObjectId()] gave right after the chunker returned; counted the
    tokens of those documents; uploaded exactly once, with the payload
    name, file, user, tokens, retriever, that identifier and type
    [local]; and the working directory is gone. *)
Theorem ingest_worker_completed {X} (env : Env X) (fuel : nat)
  (directory : string) (formats : list string)
  (name_job filename user retriever : string) (s : State X) :
  let run := ingest_worker env fuel directory formats name_job filename user
               retriever s in
  let full_path := os_path_join directory [user; name_job] in
  is_return (res run) = true ->
  res run
  = Return {| res_directory := directory; res_formats := formats;
              res_name_job := name_job; res_filename := filename;
              res_user := user; res_limited := false |}
  /\ os_path_exists (fs (final run)) full_path = false
  /\ exists raw chunks x x' x'' id tokens files,
       In (EvChunk chunk_policy raw) (events run)
       /\ chunker_chunk env chunk_policy raw x = (Ok chunks, x')
       /\ new_ObjectId env x' = (id, x'')
       /\ embed_calls (events run) = [map (to_langchain_format env) chunks]
       /\ embed_targets (events run) = [(full_path, id)]
       /\ count_tokens_docs env (map (to_langchain_format env) chunks)
          = Ok tokens
       /\ post_payloads (events run)
          = [(files,
              local_payload name_job filename user retriever tokens id)].
Proof.
  cbv zeta. intros Hret.
  pose proof (ingest_worker_completed_removes env fuel directory formats
                name_job filename user retriever s Hret) as Hgone.
  destruct (ingest_worker env fuel directory formats name_job filename user
              retriever s) as [[[v|e|] s'] tr] eqn:Hrun; try discriminate.
  destruct (ingest_worker_completed_run env _ _ _ _ _ _ _ _ _ _ _ Hrun)
    as (-> & Hrest).
  unfold res, final, events in *. cbn [fst snd] in *. auto.
Qed.

Lemma ingest_worker_completed_witness :
  embed_targets
    (events (ingest_worker (Demo.world Demo.notes_zip) 10 "temp" [".md"]
               "job1" "notes.zip" "u1" "classic" Demo.start))
  = [("temp/u1/job1", fst (new_ObjectId (Demo.world Demo.notes_zip) 0))]
  /\ post_payloads
       (events (ingest_worker (Demo.world Demo.notes_zip) 10 "temp" [".md"]
                  "job1" "notes.zip" "u1" "classic" Demo.start))
     = [([("file_faiss", Plain "faiss"); ("file_pkl", Plain "pkl")],
         local_payload "job1" "notes.zip" "u1" "classic" 1
           {| oid_hex := "650000000000000000000000" |})].
Proof.
  destruct (ingest_worker_completed (Demo.world Demo.notes_zip) 10 "temp"
              [".md"] "job1" "notes.zip" "u1" "classic" Demo.start eq_refl)
    as (_ & _ & raw & chunks & x & x' & x'' & id & tokens & files & _ & _ & _
        & _ & _ & _ & _).
  split; vm_compute; reflexivity.
Defined.

(** X10.  A run of the remote flow that completes returns the summary
    (the source, the job name, the user, [limited] false), after logging
    the completion as its last event, and its working path is gone.  It
    ran in upload mode or in sync mode with an identifier that passed
    the check; it embedded exactly once, the loader's documents
    converted, under the working directory and, in upload mode, the
    identifier that the identifier source gave right after the chunker
    returned, in sync mode the identifier that [ObjectId] makes of the
    one it was given; it counted the tokens of those documents; and it
    uploaded exactly once, with the payload name, user, tokens,
    retriever, identifier, loader type, remote data and sync
    frequency. *)
Theorem remote_worker_completed {X} (env : Env X) (j : RemoteJob)
  (s : State X) :
  let run := remote_worker env j s in
  is_return (res run) = true ->
  res run
  = Return {| rr_urls := source_data j; rr_name_job := name_job j;
              rr_user := user j; rr_limited := false |}
  /\ os_path_exists (fs (final run)) (job_path j) = false
  /\ exists raw x x' chunks x'' id tokens files,
       loader_load_data env (loader j) (source_data j) x = (Ok raw, x')
       /\ chunker_chunk env chunk_policy raw x' = (Ok chunks, x'')
       /\ embed_calls (events run) = [map (to_langchain_format env) raw]
       /\ embed_targets (events run) = [(job_path j, id)]
       /\ ((operation_mode j = "upload"
            /\ exists x3, new_ObjectId env x'' = (id, x3))
           \/ (operation_mode j = "sync"
               /\ exists d, doc_id j = Some d
                            /\ invalid_doc_id env (Some d) = false
                            /\ ObjectId_from env d = Ok id))
       /\ count_tokens_docs env (map (to_langchain_format env) raw)
          = Ok tokens
       /\ post_payloads (events run) = [(files, remote_payload j tokens id)]
       /\ last (events run) (EvLog "" "")
          = EvLog "INFO" "remote_worker task completed successfully".
Proof.
  cbv zeta. intros Hret.
  destruct (remote_worker env j s) as [[[v|e|] s'] tr] eqn:Hrun;
    try discriminate.
  destruct (remote_worker_completed_run env _ _ _ _ _ Hrun)
    as (-> & Hgone & Hrest).
  unfold res, final, events. cbn [fst snd]. auto.
Qed.

Lemma remote_worker_completed_witness :
  res (remote_worker (Demo.world (Plain "")) Demo.upload_job Demo.start)
  = Return {| rr_urls := "https://docs.example.org"; rr_name_job := "job1";
              rr_user := "u1"; rr_limited := false |}
  /\ os_path_exists
       (fs (final (remote_worker (Demo.world (Plain "")) Demo.upload_job
                     Demo.start)))
       "temp/u1/job1" = false.
Proof.
  destruct (remote_worker_completed (Demo.world (Plain "")) Demo.upload_job
              Demo.start eq_refl) as (Hres & Hgone & _).
  split; assumption.
Defined.

(** A sync job whose identifier is written with white space: [ObjectId]
    accepts it, the job completes, and the store is written under the
    identifier [ObjectId] made of it. *)
Lemma remote_worker_sync_example :
  let job :=
    sync_job "https://docs.example.org" "job1" "u1" "url" "daily" "classic"
      (Some "65a1b2c3d4e5f60718293a  ") "temp" in
  let run := remote_worker (Demo.world (Plain "")) job Demo.start in
  invalid_doc_id (Demo.world (Plain "")) (doc_id job) = false
  /\ is_return (res run) = true
  /\ embed_targets (events run)
     = [("temp/u1/job1", {| oid_hex := "65a1b2c3d4e5f60718293a" |})].
Proof. cbv zeta. repeat split; vm_compute; reflexivity. Qed.

(** ** What the local upload flow extracts *)

Lemma no_extract_depths (tr : list event) :
  Forall (fun ev => match ev with EvExtract _ _ _ => False | _ => True end)
    tr ->
  extract_depths tr = [].
Proof.
  induction 1 as [|ev tr Hev _ IH]; simpl; auto.
  destruct ev; auto. destruct Hev.
Qed.

Section LocalExtraction.

Context {X : Type}.
Variable env : Env X.

Lemma emits_ingest_worker_no_archive fuel directory formats name_job
  filename user retriever :
  endswith filename ".zip" = false ->
  emits (fun ev => match ev with EvExtract _ _ _ => False | _ => True end)
    (ingest_worker env fuel directory formats name_job filename user
       retriever).
Proof.
  intros Hzip.
  unfold ingest_worker, ensure_dir, logging_info.
  rewrite Hzip.
  apply emits_bind; [now apply emits_tell|intros _].
  apply emits_bind; [emits_steps|intros _].
  apply emits_bind; [now apply emits_download_file|intros _].
  apply emits_bind; [apply emits_ret|intros _].
  apply emits_bind; [now apply emits_update_state|intros _].
  apply emits_bind; [now apply emits_load_data|intros raw_docs].
  apply emits_bind; [now apply emits_chunk|intros chunks].
  apply emits_bind; [apply emits_fresh_ObjectId|intros id].
  apply emits_bind; [now apply emits_embed|intros _].
  apply emits_bind; [apply emits_lift_call|intros tokens].
  apply emits_bind; [now apply emits_update_state|intros _].
  apply emits_bind; [apply emits_ret|intros _].
  apply emits_bind; [now apply emits_upload_index|intros _].
  apply emits_bind; [apply emits_fs_op|intros _].
  apply emits_ret.
Qed.

End LocalExtraction.

(** X11.  The local upload flow opens archives only at depths 0, 1 and
    2, and only when the name of the uploaded file ends in [.zip]: for
    any other file name no archive is opened at all. *)
Theorem ingest_worker_extraction_scope {X} (env : Env X) (fuel : nat)
  (directory : string) (formats : list string)
  (name_job filename user retriever : string) (s : State X) :
  let run := ingest_worker env fuel directory formats name_job filename user
               retriever s in
  Forall (fun d => (0 <= d <= 2)%Z) (extract_depths (events run))
  /\ (endswith filename ".zip" = false -> extract_depths (events run) = []).
Proof.
  cbv zeta. split.
  - apply extract_depths_bounds.
    eapply Forall_impl;
      [|apply (emits_ingest_worker env fuel directory formats name_job
                 filename user retriever s)].
    intros [] H; simpl in *; auto.
  - intros Hzip. apply no_extract_depths.
    now apply (emits_ingest_worker_no_archive env).
Qed.

Lemma ingest_worker_extraction_scope_witness :
  extract_depths
    (events (ingest_worker (Demo.world Demo.notes_zip) 10 "temp" [".md"]
               "job1" "notes.txt" "u1" "classic" Demo.start)) = [].
Proof.
  apply (ingest_worker_extraction_scope (Demo.world Demo.notes_zip) 10 "temp"
           [".md"] "job1" "notes.txt" "u1" "classic" Demo.start).
  reflexivity.
Defined.

(** ** Errors in the remote flow *)

(** X12.  The remote flow does not swallow errors: when its body raises
    an exception over a working directory that is in place (the set-up
    and the first progress report having returned), the job logs the
    error once, after the events of the body, removes the working
    directory and raises the same exception. *)
Theorem remote_worker_reraises {X} (env : Env X) (j : RemoteJob)
  (s s1 s2 : State X) (x0 : X) (body_events : list event) (e : exn) :
  scratch_path_ok (job_path j) = true ->
  ensure_dir (job_path j) s = (Return tt, s1, []) ->
  task_update_state env "PROGRESS" 1 (ext s1) = (Ok tt, x0) ->
  remote_body env j (job_path j) (mkState (fs s1) x0)
  = (Raise e, s2, body_events) ->
  os_path_isdir (fs s2) (job_path j) = true ->
  let run := remote_worker env j s in
  res run = Raise e
  /\ events run
     = [EvRemoteWorker j; EvUpdateState "PROGRESS" 1] ++ body_events
       ++ [EvLog "ERROR" ("Error in remote_worker task: " ++ str_exn e)]
  /\ os_path_exists (fs (final run)) (job_path j) = false
  /\ ext (final run) = ext s2.
Proof.
  intros Hok Hens Hrep Hbody Hdir. cbv zeta.
  exact (remote_worker_raising_body env j s s1 s2 x0 body_events e Hok Hens
           Hrep Hbody Hdir).
Qed.

Lemma remote_worker_reraises_witness :
  res (remote_worker Demo.offline Demo.unreachable_job Demo.start)
  = Raise (OtherException "ConnectionError" "source unreachable").
Proof.
  refine (proj1
            (remote_worker_reraises Demo.offline Demo.unreachable_job
               Demo.start
               (mkState
                  (Dir [("temp", Dir [("u1", Dir [("job1", Dir [])])])]) 0)
               _ 0 _ _ eq_refl eq_refl eq_refl eq_refl eq_refl)).
Defined.

(** ** The scheduler's calls *)

(** X13.  [sync] never raises.  It runs one [remote_worker] job in sync
    mode with the arguments it was given; when the job returns it answers
    with status [success] and adds no event; when the job raises it logs
    the error and answers with status [error] and the text of the
    exception. *)
Theorem sync_outcomes {X} (env : Env X)
  (source_data name_job user loader sync_frequency retriever : string)
  (doc_id : option string) (directory : string) (s : State X) :
  let job := sync_job source_data name_job user loader sync_frequency
               retriever doc_id directory in
  let inner := remote_worker env job s in
  let run := sync env source_data name_job user loader sync_frequency
               retriever doc_id directory s in
  operation_mode job = "sync"
  /\ final run = final inner
  /\ match res inner with
     | Return _ =>
         res run = Return {| status := "success"; error := None |}
         /\ events run = events inner
     | Raise e =>
         res run = Return {| status := "error"; error := Some (str_exn e) |}
         /\ events run
            = events inner
              ++ [EvLog "ERROR" ("Error during sync: " ++ str_exn e)]
     | OutOfFuel => False
     end.
Proof.
  cbv zeta. split; [reflexivity|].
  pose proof (total_remote_worker env
                (sync_job source_data name_job user loader sync_frequency
                   retriever doc_id directory) s) as Htot.
  unfold sync, try_except, any_exception, logging_error, bind, tell, ret,
    res, final, events in *.
  destruct (remote_worker env
              (sync_job source_data name_job user loader sync_frequency
                 retriever doc_id directory) s)
    as [[[v|e|] s1] t]; cbn [fst snd] in *.
  - rewrite app_nil_r. auto.
  - cbv beta iota zeta. cbn [fst snd]. auto.
  - congruence.
Qed.

Section SchedulerEdges.

Context {X : Type}.
Variable env : Env X.

Lemma fold_sync_rounds_none_due frequency (sources : list SourceDoc) :
  Forall (fun doc => due frequency doc = false) sources ->
  forall (c : Counter) (s : State X),
    fold_m (sync_round env frequency) sources c s = (Return c, s, []).
Proof.
  induction 1 as [|doc sources Hdoc _ IH]; intros c s; simpl; auto.
  unfold sync_round at 1. rewrite Hdoc.
  unfold bind, ret. now rewrite IH.
Qed.

(** A due source whose stored identifier is not a valid one: its job
    raises without a call to the embedding sink. *)
Lemma emits_sync_round_invalid frequency c doc :
  (due frequency doc = true -> ObjectId_is_valid env (src_id doc) = false) ->
  emits (fun ev => is_embed ev = false) (sync_round env frequency c doc).
Proof.
  intros Hbad. unfold sync_round.
  destruct (due frequency doc) eqn:Hdue; [|apply emits_ret].
  apply emits_bind; [|intros resp; apply emits_ret].
  unfold sync, logging_error.
  apply emits_try_except.
  - apply emits_bind; [|intros _; apply emits_ret].
    apply emits_remote_worker; auto.
    apply quiet_embed_remote_body_invalid_sync; [reflexivity|].
    cbn [doc_id sync_job invalid_doc_id]. rewrite (Hbad eq_refl).
    apply orb_true_r.
  - intros e. apply emits_bind; [now apply emits_tell|intros _].
    apply emits_ret.
Qed.

Lemma run_jobs_invalid frequency (sources : list SourceDoc) :
  Forall (fun doc => ObjectId_is_valid env (src_id doc) = false) sources ->
  forall s : State X,
    Forall (fun b => b = false)
      (fst (run_jobs env (map (job_of_source frequency) sources) s)).
Proof.
  induction 1 as [|doc sources Hdoc _ IH]; intros s; simpl; auto.
  assert (Hbad :
            invalid_doc_id env (doc_id (job_of_source frequency doc)) = true)
    by (cbn [doc_id job_of_source invalid_doc_id]; rewrite Hdoc;
        apply orb_true_r).
  pose proof (fails_remote_worker env (job_of_source frequency doc)
                (fails_remote_body_invalid_sync env
                   (job_of_source frequency doc) _ eq_refl Hbad) s) as Hf.
  unfold res in Hf.
  destruct (remote_worker env (job_of_source frequency doc) s)
    as [[r s1] t]. cbn [fst] in Hf.
  specialize (IH s1).
  destruct (run_jobs env (map (job_of_source frequency) sources) s1)
    as [outs s2]. cbn [fst] in *. constructor; auto.
Qed.

End SchedulerEdges.

(** X14.  When no stored source is due for the frequency (in particular
    on an empty store), [sync_worker] returns the three counters at zero,
    starts no job, produces no event and leaves the state as it was. *)
Theorem sync_worker_nothing_due {X} (env : Env X) (frequency : string)
  (s : State X) :
  Forall (fun doc => due frequency doc = false) (sources_find env (ext s)) ->
  sync_worker env frequency s
  = (Return [("total_sync_count", 0%Z); ("sync_success", 0%Z);
             ("sync_failure", 0%Z)], s, []).
Proof.
  intros Hnone. unfold sync_worker, bind, gets, ret.
  cbv beta iota zeta.
  rewrite (fold_sync_rounds_none_due env frequency _ Hnone).
  reflexivity.
Qed.

Lemma sync_worker_nothing_due_witness :
  sync_worker Demo.scheduled "weekly" Demo.start
  = (Return [("total_sync_count", 0%Z); ("sync_success", 0%Z);
             ("sync_failure", 0%Z)], Demo.start, []).
Proof.
  apply (sync_worker_nothing_due Demo.scheduled "weekly" Demo.start).
  repeat constructor.
Defined.

Section SchedulerInvalid.

Context {X : Type}.
Variable env : Env X.

Lemma emits_fold_m_on {A B} (P : event -> Prop) (f : B -> A -> M X B)
  (l : list A) :
  Forall (fun a => forall b, emits P (f b a)) l ->
  forall b, emits P (fold_m f l b).
Proof.
  induction 1 as [|a l Ha _ IH]; intros b; simpl.
  - apply emits_ret.
  - apply emits_bind; auto.
Qed.

Lemma count_all_false (l : list bool) :
  Forall (fun b => b = false) l ->
  count_true l = 0%Z /\ count_false l = Z.of_nat (List.length l).
Proof.
  unfold count_true, count_false.
  induction 1 as [|b l -> _ [IH1 IH2]]; simpl; auto.
  split; [exact IH1|]. lia.
Qed.

Lemma run_jobs_length (jobs : list RemoteJob) :
  forall s : State X,
    List.length (fst (run_jobs env jobs s)) = List.length jobs.
Proof.
  induction jobs as [|j jobs IH]; intros s; simpl; auto.
  destruct (remote_worker env j s) as [[r s1] t].
  specialize (IH s1). destruct (run_jobs env jobs s1) as [outs s2].
  simpl in *. now rewrite IH.
Qed.

End SchedulerInvalid.

(** X15.  When every due source carries a stored identifier that is not
    a valid one, [sync_worker] still starts a job for each of them, every
    job raises (at the validation, if not before), nothing is handed to
    the embedding sink,
    and the counters come back as M attempts, no success and M
    failures. *)
Theorem sync_worker_invalid_identifiers {X} (env : Env X)
  (frequency : string) (s : State X) :
  Forall (fun doc => due frequency doc = true ->
                     ObjectId_is_valid env (src_id doc) = false)
    (sources_find env (ext s)) ->
  let run := sync_worker env frequency s in
  let M :=
    Z.of_nat
      (List.length (filter (due frequency) (sources_find env (ext s)))) in
  res run
  = Return [("total_sync_count", M); ("sync_success", 0%Z);
            ("sync_failure", M)]
  /\ embed_calls (events run) = []
  /\ List.length (remote_jobs (events run))
     = List.length (filter (due frequency) (sources_find env (ext s))).
Proof.
  intros Hbad. cbv zeta.
  assert (Hdue : Forall (fun doc => ObjectId_is_valid env (src_id doc) = false)
                   (filter (due frequency) (sources_find env (ext s)))).
  { apply Forall_forall. intros doc Hin. apply filter_In in Hin as [Hin Hd].
    rewrite Forall_forall in Hbad. now apply Hbad. }
  pose proof (run_jobs_invalid env frequency _ Hdue s) as Hall.
  apply count_all_false in Hall as [Htrue Hfalse].
  rewrite run_jobs_length, length_map in Hfalse.
  destruct (fold_sync_rounds env frequency (sources_find env (ext s)) [] s)
    as (c' & t & Hfold & Hjobs & Htot & Hok & Hko).
  assert (Hsilent : Forall (fun ev => is_embed ev = false) t).
  { pose proof (emits_fold_m_on (fun ev => is_embed ev = false)
                  (sync_round env frequency) (sources_find env (ext s))) as H.
    assert (Hall : Forall
                     (fun doc => forall c,
                          emits (fun ev => is_embed ev = false)
                            (sync_round env frequency c doc))
                     (sources_find env (ext s))).
    { eapply Forall_impl; [|exact Hbad].
      intros doc Hdoc c. now apply emits_sync_round_invalid. }
    specialize (H Hall [] s). now rewrite Hfold in H. }
  unfold sync_worker, bind, gets, ret, res, final, events.
  cbv beta iota zeta. rewrite Hfold. cbv beta iota zeta.
  cbn [fst snd app map]. rewrite ?app_nil_r.
  rewrite Htot, Hok, Hko, Htrue, Hfalse, Hjobs, !length_map.
  change (counter_get "total_sync_count" []) with 0%Z.
  change (counter_get "sync_success" []) with 0%Z.
  change (counter_get "sync_failure" []) with 0%Z.
  repeat split; auto using no_embed_calls.
Qed.

Lemma sync_worker_invalid_identifiers_witness :
  res (sync_worker
         (Demo.demo_env Demo.failed_download (fun names => names)
            [ {| src_id := "none"; src_name := "handbook"; src_user := "u1";
                 src_type := "url";
                 src_remote_data := "https://docs.example.org";
                 src_retriever := "classic";
                 src_sync_frequency := Some "daily" |} ])
         "daily" Demo.start)
  = Return [("total_sync_count", 1%Z); ("sync_success", 0%Z);
            ("sync_failure", 1%Z)].
Proof.
  apply (sync_worker_invalid_identifiers
           (Demo.demo_env Demo.failed_download (fun names => names)
              [ {| src_id := "none"; src_name := "handbook";
                   src_user := "u1"; src_type := "url";
                   src_remote_data := "https://docs.example.org";
                   src_retriever := "classic";
                   src_sync_frequency := Some "daily" |} ])
           "daily" Demo.start).
  repeat constructor.
Defined.

(** ** What the attachment job leaves alone *)

(** X16.  [attachment_worker] only reads: whatever happens, the file
    system is as before, no chunker call, no call to the embedding sink
    and no index upload is made, and at most one attachment record is
    written. *)
Theorem attachment_worker_only_reads {X} (env : Env X) (directory : string)
  (file_info : FileInfo) (user : string) (s : State X) :
  let run := attachment_worker env directory file_info user s in
  fs (final run) = fs s
  /\ chunk_calls (events run) = []
  /\ embed_calls (events run) = []
  /\ post_calls (events run) = []
  /\ List.length (inserted (events run)) <= 1.
Proof.
  cbv zeta.
  unfold attachment_worker, getitem, load_data, update_state, try_except,
    any_exception, logging_info, logging_warning, logging_error, bind, gets,
    ext_op, lift_call, tell, raise, ret, final, events.
  cbv beta iota zeta.
  destruct (assoc "folder" file_info) as [folder|];
    cbv beta iota zeta; cbn [fst snd fs ext];
    [|repeat split; simpl; lia].
  destruct (task_update_state env "PROGRESS" 10 (ext s)) as [[[]|e] x0];
    cbv beta iota zeta; cbn [fst snd fs ext];
    [|repeat split; simpl; lia].
  destruct (assoc "filename" file_info) as [filename|];
    cbv beta iota zeta; cbn [fst snd fs ext];
    [|repeat split; simpl; lia].
  destruct (os_path_exists (fs s) (os_path_join directory [filename]));
    cbv beta iota zeta; cbn [negb fst snd fs ext];
    [|repeat split; simpl; lia].
  destruct (reader_load_data env _ (fs s) x0) as [[documents|e] x1];
    cbv beta iota zeta; cbn [fst snd fs ext];
    [|repeat split; simpl; lia].
  destruct (task_update_state env "PROGRESS" 50 x1) as [[[]|e] x2];
    cbv beta iota zeta; cbn [fst snd fs ext];
    [|repeat split; simpl; lia].
  destruct documents as [|first rest];
    cbv beta iota zeta; cbn [fst snd fs ext];
    [repeat split; simpl; lia|].
  destruct (num_tokens_from_string env (text first)) as [n|e];
    cbv beta iota zeta; cbn [fst snd fs ext];
    [|repeat split; simpl; lia].
  destruct (datetime_now env x2) as [now x2'];
    cbv beta iota zeta; cbn [fst snd fs ext].
  destruct (insert_one env _ x2') as [[oid|e] x3];
    cbv beta iota zeta; cbn [fst snd fs ext];
    [|repeat split; simpl; lia].
  destruct (task_update_state env "PROGRESS" 100 x3) as [[[]|e] x4];
    cbv beta iota zeta; cbn [fst snd fs ext];
    repeat split; simpl; lia.
Qed.
